(* ===== verification/_CoqProject ===== *)
-Q . S2P
Prelude.v
PyStr.v
PyObj.v
Datetime.v
Store.v
Affinity.v
Runtime.v
Transform.v
Sqlite.v
Load.v
Csv.v
CsvNewlines.v
Extract.v
Main.v
Records.v
EndToEnd.v
HeaderOrder.v
