(* ===== verification/Prelude.v ===== *)
(** * A verification development of [simple_etl_pipeline]

    The program ([src/pipeline.py]) generates synthetic user records,
    writes them to a CSV file, recreates an SQLite table, and then streams
    the CSV rows through three chained Python generators -- extract,
    transform, load -- into the table.  This development models the
    program in Gallina, close to the way it is written, and proves what
    makes it correct.

    ** How the program's parts interact

    [__main__] (lines 143-153) calls [generate_csv] (which drains
    [get_user]), then [init_db], then [load_data(db, transform_users(
    extract_users(csv)))].  Nothing runs in the three generators until
    [load_data]'s [for] loop asks for a row: each [next] of the loader
    pulls one row from the transformer, which pulls one from the
    extractor, which reads one CSV record.  The console lines of the
    three stages are therefore interleaved, and an exception raised in
    the extractor or the transformer surfaces inside [load_data]'s
    [try]/[with conn] block.  The model keeps this structure: a generator
    is a value of a [Generator] class whose [gen_next] is a monadic step,
    and the loader drains the chain one step at a time.

    ** Library layout (dependency order, as in [_CoqProject])

    - [Prelude]   this header; the [etl_scope] notations; the pure result
                  type [res] ([Val]/[Err]) and the state/exception/fuel
                  monad [M S E A := S -> outcome E A * S] with [raise],
                  [try_except], [try_finally]; monad laws; the [etl] hint
                  databases; shared Ltac; a few list lemmas.
    - [PyStr]     Python strings (code points U+0000-U+00FF): [str.lower],
                  [str.upper], [str.isalnum], the ["".join(...)] filter of
                  [transform_users], and [int(str)] / [str(int)] as
                  CPython parses and prints them (white space, sign,
                  underscores, the 4300-digit limit), with the grammar
                  of [int()] literals stated independently.
    - [PyObj]     Python values, the exceptions the program can meet, and
                  the insertion-ordered [dict] as an association list with
                  its invariant [wf] (no duplicate key): getitem, setitem,
                  delitem, values, dict(zip(...)).
    - [Datetime]  [datetime.now(timezone.utc)] values (microseconds since
                  the epoch) and [isoformat(" ")], the text sqlite3's
                  default adapter stores; the days-to-date conversion
                  and its inverse.
    - [Store]     the file system: paths to text files, SQLite database
                  files (tables of rows) or directories; SQLite's storage
                  classes and the parameters a statement binds.
    - [Affinity]  SQLite's column affinity: the affinity of a declared
                  type ([sqlite3AffinityType]), the numbers [sqlite3AtoF]
                  reads in a text, and the conversion [applyAffinity]
                  makes of each stored value.
    - [Runtime]   the [world] (file system, console output, clock reads),
                  [print], the clock, and the [Generator] /
                  [GeneratorBound] classes with the list generator and the
                  total [drain] of a bounded generator; traces of
                  generators and [local] computations, with the existence
                  of a trace.
    - [Transform] [transform_users] (lines 93-105): the loop body
                  [transform_fields] / [transform_row] and the generator
                  [tgen] ([TInit] before the first [next], [TIter i up]).
    - [Sqlite]    [connect], [execute] (prepare, implicit BEGIN, parameter
                  adapters, column affinity, NOT NULL), [commit],
                  [rollback], [with conn],
                  [close], following Python's sqlite3 module.
    - [Load]      [load_data] (lines 118-135): [load_rows] is the [for]
                  loop, [load_data] the connect / try / with / except /
                  finally structure; [insert_all] is its reference
                  semantics over a list of rows.
    - [Csv]       [csv.DictWriter] and [csv.DictReader] with the excel
                  dialect, transcribed from CPython's [_csv.c] writer and
                  reader state machine, and text-mode newline translation.
    - [CsvNewlines] what the reader gives back for fields holding a
                  carriage return: the universal-newline translation of
                  each field.
    - [Extract]   [extract_users] (lines 83-90): the generator [egen]
                  ([EInit path], [EIter i reader]).
    - [Main]      [get_user], [generate_csv], [init_db], the module
                  constants and [main] (lines 12-81 and 138-153).
    - [Records]   a CSV record read under any order of the five field
                  names, what the loop body of [transform_users] makes of
                  it and the row the [INSERT] stores for it; the stage
                  lemmas over the records of a file.
    - [EndToEnd]  whole runs: [run_etl] on any file the writer wrote and
                  on any content of the CSV path, [init_db]'s reset,
                  [main] over any draws of Faker, termination on any
                  input.
    - [HeaderOrder] which headers make the runs of [run_etl] store each
                  value in the column of its name.

    ** What the theorems show

    - The whole program (EndToEnd): for any data Faker draws whose
      strings fit the CSV reader's field size limit (131072
      characters), any clock and any file system where the two
      paths are not directories, [main] ends normally, the table holds
      exactly one row per record in order -- id, name, lower-cased
      e-mail, alphanumeric description, the instant of the k-th clock
      read, the strings as the reader reads them back (a CR LF or lone
      CR drawn becomes LF; Faker draws none) -- and the console shows
      the three stages interleaved row by row.  For any CSV file the
      writer wrote (not only Faker's), under any order of the five field
      names, steps 3-5 preserve the file order, each row holding the
      record's values in header order; they store every record as the
      specification describes exactly when the header without
      [password] is [id, name, email, description] (HeaderOrder).
      [init_db] resets the table whatever the file held; on any input
      file the pipeline terminates.  A bad id after good records, a
      missing file and a directory at the database path give the
      outcomes the code produces (see the findings in PROJECT.json).
    - Composition (Runtime, Extract, Transform, Load): a generator's run
      is described by a trace ([yields] / [yields0]): the items, the
      lines each step prints and its clock reads.  The extractor's trace
      over a file the writer wrote, the transform stage's trace over any
      clock-free upstream ([t_trace]) and [load_data]'s exact result over
      any traced upstream ([l_run]) compose into the theorem on [main].
      A computation is [local] when its effects do not depend on the
      console; the stages are local, and a local generator with a
      decreasing measure always has a trace ([yields_exists]).  Hence,
      on any content of the CSV path -- any text, a missing file, a
      directory -- steps 3-5 end normally and either leave the file
      system as it was or append rows to [users] and change nothing
      else.
    - The CSV module (Csv): the reader reads back the text of a
      [writerow] call as the same fields ([read_write_record]), proved
      through a stream form of the reader state machine.  As the file
      is opened without [newline=''], a field with a carriage return
      does not survive: for fields of any characters the reader gives
      back [translate_newlines] of each field (CsvNewlines).  Over any file, in every state the DictReader
      reaches, the field size limit is the only error [next] can raise:
      a record of the wrong length is not a parse error.
    - The transform stage (Transform): on a well-formed raw row the loop
      body succeeds, removes [password], parses [id] with [int()],
      lower-cases [email], keeps the alphanumeric characters of
      [description] and appends [processed_at] (the clock read), keeping
      the other keys in place; a bad id or a missing password raises the
      exact Python exception; over a list source the generator yields
      exactly the reference list [transform_all] with the console lines
      of the code, and no yielded row has a password.
    - The binding of the values (Records, HeaderOrder, Affinity): the
      row stored for a record is its values in the CSV header's order,
      each under the affinity of the column it lands in; it is the row
      the specification describes, every value in its own column,
      exactly when the header without [password] is [id, name, email,
      description] -- the program's own header is, a permuted one is
      not.  SQLite's text of an INTEGER is Python's [str()] of it, and
      a column declared [INT] reads it back as the same INTEGER.  The
      scan of [sqlite3AffinityType] (a rolling window of four
      characters, a [break] at INT) gives every declared type the
      affinity of the rules SQLite documents ([affinity_of_rule]).
    - The load stage (Load, Sqlite): [load_data] is all or nothing -- it
      commits every row, or, at the first failing row, rolls back and
      prints the error (the exact result world is given by [insert_all]);
      a directory path raises from [connect], outside the [try].
    - The string operations (PyStr): [int(s)] accepts exactly the literals of its grammar (so a
      negative id is accepted, against the specification's data model);
      [str(z)] succeeds exactly when [|z| < 10^4300], and then
      [int(str(z)) = z].
    - The stored timestamp (Datetime): for every instant [datetime]
      represents (years 1 to 9999), an independent reader of the text
      stored for [processed_at] reads back exactly the instant, to the
      microsecond; the date in it is a valid Gregorian date.  The
      conversion repeats every 400 years, so the proof shifts a day by
      whole eras; within one era [lia] bounds the year of the era and
      the day of the year, and the 366 days of a year are checked by
      evaluation; the year range follows from the monotonicity of the
      inverse conversion.
    - The shape of the data (EndToEnd): every row the transform stage
      makes of a record read under the header [generate_csv] writes has
      the TransformedRecord type of the specification; a directory at
      the database path makes the program crash from [init_db]'s
      [connect], outside its [try].

    ** Fuel

    Python's loops over generators terminate because the generators are
    finite, so the model bounds them by fuel and proves the fuel enough:
    [load_rows] takes fuel above the generator's [gen_measure] (the
    number of rows left plus the stages' start and end steps), and
    [Load.load_data_no_fuel] shows that such fuel never runs out, which
    gives the termination of steps 3-5 on any input with fuel above the
    number of lines plus two; the theorem on [main] needs fuel above the
    number of records.  The DictReader's blank-line loop takes one more
    than the number of lines left, as each turn consumes a line.

    ** Not modelled

    Faker and [random] (their results are an argument of [main]); the
    encoding of the files (characters beyond U+00FF are not represented);
    directories as parents of paths; I/O errors of the operating system
    other than missing files, directories and non-database files; the
    binary value of a REAL (a REAL is kept as the exact decimal value of
    its literal; SQLite keeps the nearest double, so the two can differ
    on literals with more than 15 significant digits or beyond the
    double range -- the program itself never binds a float); the upper
    case of ['µ'] and ['ÿ'], which lies beyond U+00FF (the model's
    [upper] leaves them unchanged; Faker's e-mails are ASCII).  A
    directory at the CSV path makes [generate_csv] raise
    [IsADirectoryError] at its [open], which the model has, without a
    theorem of its own. *)

From Stdlib Require Import List String Ascii ZArith Lia.
Import ListNotations.

Declare Scope etl_scope.
Delimit Scope etl_scope with etl.

(** ** Pure fallible computations *)

(** A pure computation of the program either returns a value or raises.
    [res E A] is the result of such a computation; [E] is the type of the
    exceptions it can raise. *)
Inductive res (E A : Type) : Type :=
| Val (a : A)
| Err (e : E).
Arguments Val {E A} a.
Arguments Err {E A} e.

Definition rbind {E A B} (r : res E A) (k : A -> res E B) : res E B :=
  match r with
  | Val a => k a
  | Err e => Err e
  end.

Definition rmap_err {E E' A} (f : E -> E') (r : res E A) : res E' A :=
  match r with
  | Val a => Val a
  | Err e => Err (f e)
  end.

Notation "x <-? r ;; k" := (rbind r (fun x => k))
  (at level 61, r at next level, right associativity) : etl_scope.

(** ** Effectful computations: state, exceptions and fuel *)

(** An effectful function of the program reads and writes a state [S]
    (the file system, the console, the clock), returns, raises an
    exception of type [E], or -- for the loops that Python runs until a
    generator is exhausted -- stops when the fuel the model was given is
    spent.  [OutOfFuel] is not a Python behaviour: the termination
    theorems show that enough fuel never reaches it. *)
Inductive outcome (E A : Type) : Type :=
| Ok (a : A)
| Exc (e : E)
| OutOfFuel.
Arguments Ok {E A} a.
Arguments Exc {E A} e.
Arguments OutOfFuel {E A}.

Definition M (S E A : Type) : Type := S -> outcome E A * S.

Section Monad.
Context {S E : Type}.

Definition ret {A} (a : A) : M S E A := fun s => (Ok a, s).

Definition bind {A B} (m : M S E A) (k : A -> M S E B) : M S E B :=
  fun s =>
    match m s with
    | (Ok a, s') => k a s'
    | (Exc e, s') => (Exc e, s')
    | (OutOfFuel, s') => (OutOfFuel, s')
    end.

Definition raise {A} (e : E) : M S E A := fun s => (Exc e, s).

Definition out_of_fuel {A} : M S E A := fun s => (OutOfFuel, s).

Definition get : M S E S := fun s => (Ok s, s).

Definition put (s : S) : M S E unit := fun _ => (Ok tt, s).

Definition modify (f : S -> S) : M S E unit := fun s => (Ok tt, f s).

(** A pure fallible computation run inside [M]. *)
Definition lift {A} (r : res E A) : M S E A :=
  fun s => match r with
           | Val a => (Ok a, s)
           | Err e => (Exc e, s)
           end.

(** [try: m except: h]: the handler sees the state the body left. *)
Definition try_except {A} (m : M S E A) (h : E -> M S E A) : M S E A :=
  fun s =>
    match m s with
    | (Exc e, s') => h e s'
    | r => r
    end.

(** [try: m finally: f]: [f] runs after a normal or an exceptional
    exit of [m]; an exception of [f] replaces the body's outcome. *)
Definition try_finally {A} (m : M S E A) (f : M S E unit) : M S E A :=
  fun s =>
    match m s with
    | (OutOfFuel, s') => (OutOfFuel, s')
    | (r, s') =>
        match f s' with
        | (Ok _, s'') => (r, s'')
        | (Exc e, s'') => (Exc e, s'')
        | (OutOfFuel, s'') => (OutOfFuel, s'')
        end
    end.

Lemma bind_ret_l {A B} (a : A) (k : A -> M S E B) s :
  bind (ret a) k s = k a s.
Proof. reflexivity. Qed.

Lemma bind_ret_r {A} (m : M S E A) s : bind m ret s = m s.
Proof. unfold bind, ret. destruct (m s) as [[] ?]; reflexivity. Qed.

Lemma bind_assoc {A B C} (m : M S E A) (f : A -> M S E B)
      (g : B -> M S E C) s :
  bind (bind m f) g s = bind m (fun a => bind (f a) g) s.
Proof. unfold bind. destruct (m s) as [[] ?]; reflexivity. Qed.

Lemma bind_raise {A B} (e : E) (k : A -> M S E B) s :
  bind (raise e) k s = (Exc e, s).
Proof. reflexivity. Qed.

Lemma bind_lift_val {A B} (a : A) (k : A -> M S E B) s :
  bind (lift (Val a)) k s = k a s.
Proof. reflexivity. Qed.

Lemma bind_lift_err {A B} (e : E) (k : A -> M S E B) s :
  bind (lift (Err e)) k s = (Exc e, s).
Proof. reflexivity. Qed.

(** The outcome of a bind, read off the outcome of its first part. *)
Lemma bind_ok {A B} (m : M S E A) (k : A -> M S E B) s a s' :
  m s = (Ok a, s') -> bind m k s = k a s'.
Proof. unfold bind. intros ->. reflexivity. Qed.

Lemma bind_exc {A B} (m : M S E A) (k : A -> M S E B) s e s' :
  m s = (Exc e, s') -> bind m k s = (Exc e, s').
Proof. unfold bind. intros ->. reflexivity. Qed.

Lemma bind_fuel {A B} (m : M S E A) (k : A -> M S E B) s s' :
  m s = (OutOfFuel, s') -> bind m k s = (OutOfFuel, s').
Proof. unfold bind. intros ->. reflexivity. Qed.

Lemma rbind_val {A B} (a : A) (k : A -> res E B) : rbind (Val a) k = k a.
Proof. reflexivity. Qed.

Lemma rbind_err {A B} (e : E) (k : A -> res E B) : rbind (Err e) k = Err e.
Proof. reflexivity. Qed.

(** A bind succeeds only when both of its parts do. *)
Lemma rbind_val_inv {A B} (r : res E A) (k : A -> res E B) b :
  rbind r k = Val b -> exists a, r = Val a /\ k a = Val b.
Proof. destruct r as [a|e]; simpl; [eauto | discriminate]. Qed.

End Monad.

Notation "x <- m ;; k" := (bind m (fun x => k))
  (at level 61, m at next level, right associativity) : etl_scope.
Notation "m ;;; k" := (bind m (fun _ => k))
  (at level 61, right associativity) : etl_scope.

Create HintDb etl discriminated.
Create Rewrite HintDb etl_simpl.
#[export] Hint Rewrite @bind_ret_l @bind_assoc @bind_raise @bind_lift_val
  @bind_lift_err @rbind_val @rbind_err : etl_simpl.

(** ** Shared tactics *)

(** [inv H]: invert [H], substitute, and drop it. *)
Ltac inv H := inversion H; subst; clear H.

(** Case analysis on the scrutinee of the first [match] or [if] in the
    goal, keeping the equation. *)
Ltac case_match_goal :=
  match goal with
  | |- context [match ?x with _ => _ end] =>
      let E := fresh "E" in destruct x eqn:E
  end.

(** Case analysis on every boolean variable of the context. *)
Ltac destruct_bools :=
  repeat match goal with b : bool |- _ => destruct b end.

(** Decide a property of one character by evaluating it on all 256
    characters. *)
Ltac by_all_chars c :=
  destruct c as [[] [] [] [] [] [] [] []]; vm_compute; reflexivity.

(** ** Generic lemmas on lists *)

Section Lists.
Context {A : Type}.

(** [l1] is a subsequence of [l2]: [l2] with some elements removed. *)
Inductive subseq : list A -> list A -> Prop :=
| subseq_nil : subseq [] []
| subseq_keep x l1 l2 : subseq l1 l2 -> subseq (x :: l1) (x :: l2)
| subseq_drop x l1 l2 : subseq l1 l2 -> subseq l1 (x :: l2).

Lemma subseq_filter (p : A -> bool) l : subseq (filter p l) l.
Proof.
  induction l as [|x l IH]; simpl; [constructor|].
  destruct (p x); constructor; exact IH.
Qed.

Lemma subseq_refl l : subseq l l.
Proof. induction l; constructor; assumption. Qed.

Lemma filter_idem (p : A -> bool) l : filter p (filter p l) = filter p l.
Proof.
  induction l as [|x l IH]; simpl; [reflexivity|].
  destruct (p x) eqn:Hp; simpl; [rewrite Hp, IH|]; auto.
Qed.

Lemma filter_all_true (p : A -> bool) l :
  Forall (fun x => p x = true) l -> filter p l = l.
Proof.
  induction 1 as [|x l Hx _ IH]; simpl; [reflexivity|].
  rewrite Hx, IH. reflexivity.
Qed.
End Lists.

#[export] Hint Constructors subseq : etl.
#[export] Hint Resolve subseq_filter subseq_refl : etl.

(** ** Finite checks on integer ranges *)

(** [Z_all f n z]: [f] holds on the [n] integers from [z]; decided by
    evaluation, then read back with [Z_all_spec]. *)
Fixpoint Z_all (f : Z -> bool) (n : nat) (z : Z) : bool :=
  match n with
  | O => true
  | S n' => (f z && Z_all f n' (z + 1))%bool
  end.

Lemma Z_all_spec f n z0 z :
  Z_all f n z0 = true -> (z0 <= z < z0 + Z.of_nat n)%Z -> f z = true.
Proof.
  revert z0. induction n as [|n IH]; intros z0 H Hz; [lia|]. cbn [Z_all] in H.
  apply andb_prop in H as [H0 H]. destruct (Z.eq_dec z z0) as [->|Hne]; [exact H0|].
  apply (IH (z0 + 1)%Z); [exact H | lia].
Qed.
