(* ===== verification/PyStr.v ===== *)
(** * Python string operations used by [src/pipeline.py]

    A Python [str] is a sequence of Unicode code points.  The model keeps
    a string as a Rocq [string] whose characters are the code points
    U+0000 .. U+00FF (Latin-1); every operation below is CPython's on that
    range, with the Unicode database restricted to it.  Modelled:
    - [str.isalnum] on one code point and on a string;
    - [str.lower] (total on the range: every Latin-1 upper-case letter has
      its lower case in the range);
    - [str.upper], as [get_user] uses it on generated e-mails: ['ß']
      becomes ["SS"]; ['µ'] and ['ÿ'], whose upper case lies outside the
      range, are left unchanged (the one deviation from CPython);
    - the expression ["".join(char for char in s if char.isalnum())] of
      [transform_users];
    - [int(s)] for a [str] (CPython's [PyLong_FromUnicodeObject] in base
      10: surrounding white space, a sign, digits with single underscores,
      the 4300-digit limit) and [str(n)] for an [int]. *)

From Stdlib Require Import List String Ascii Bool ZArith Lia.
From Stdlib Require Import DecimalN DecimalFacts.
From S2P Require Import Prelude.
Import ListNotations.
Local Open Scope etl_scope.

Module PyStr.

(** ** Characters *)

Definition ord (c : ascii) : nat := nat_of_ascii c.

Definition in_range (lo hi n : nat) : bool := (lo <=? n) && (n <=? hi).

(** [c.isalnum()] for a code point below U+0100: the ASCII letters and
    digits, and the Latin-1 characters that are alphabetic or numeric
    (ª ² ³ µ ¹ º ¼ ½ ¾ and the letters À..ÿ except × and ÷). *)
Definition isalnum_char (c : ascii) : bool :=
  let n := ord c in
  in_range 48 57 n || in_range 65 90 n || in_range 97 122 n
  || (n =? 170) || in_range 178 179 n || (n =? 181) || in_range 185 186 n
  || in_range 188 190 n || in_range 192 214 n || in_range 216 246 n
  || in_range 248 255 n.

(** Upper-case code points that [lower] changes: A..Z, À..Ö, Ø..Þ. *)
Definition isupper_char (c : ascii) : bool :=
  let n := ord c in in_range 65 90 n || in_range 192 214 n || in_range 216 222 n.

Definition lower_char (c : ascii) : ascii :=
  if isupper_char c then ascii_of_nat (ord c + 32) else c.

(** Lower-case code points that [upper] maps inside the range:
    a..z, à..ö, ø..þ. *)
Definition islower_char (c : ascii) : bool :=
  let n := ord c in in_range 97 122 n || in_range 224 246 n || in_range 248 254 n.

Definition upper_char (c : ascii) : ascii :=
  if islower_char c then ascii_of_nat (ord c - 32) else c.

Definition sharp_s : ascii := ascii_of_nat 223.

(** ** String operations *)

(** [s.lower()] *)
Fixpoint lower (s : string) : string :=
  match s with
  | EmptyString => EmptyString
  | String c r => String (lower_char c) (lower r)
  end.

(** [s.upper()]: ['ß'] has the two-character upper case ["SS"]. *)
Fixpoint upper (s : string) : string :=
  match s with
  | EmptyString => EmptyString
  | String c r =>
      if Ascii.eqb c sharp_s then String "S" (String "S" (upper r))
      else String (upper_char c) (upper r)
  end.

Fixpoint all_chars (p : ascii -> bool) (s : string) : bool :=
  match s with
  | EmptyString => true
  | String c r => p c && all_chars p r
  end.

(** [s.isalnum()]: true when [s] is not empty and every character is
    alphanumeric. *)
Definition isalnum (s : string) : bool :=
  match s with
  | EmptyString => false
  | String _ _ => all_chars isalnum_char s
  end.

(** Iterating over a [str] yields its characters as strings of length 1. *)
Fixpoint chars (s : string) : list string :=
  match s with
  | EmptyString => []
  | String c r => String c EmptyString :: chars r
  end.

(** [sep.join(items)] with the empty separator. *)
Fixpoint join (items : list string) : string :=
  match items with
  | [] => EmptyString
  | x :: r => x ++ join r
  end.

(** ["".join(char for char in items if char.isalnum())] *)
Definition join_alnum (items : list string) : string :=
  join (filter isalnum items).

(** The same filter, character by character: the reference definition
    [join_alnum] is compared with. *)
Fixpoint filter_chars (p : ascii -> bool) (s : string) : string :=
  match s with
  | EmptyString => EmptyString
  | String c r => if p c then String c (filter_chars p r) else filter_chars p r
  end.

(** ** Character lemmas, by evaluation on all 256 code points *)

Lemma lower_char_idem c : lower_char (lower_char c) = lower_char c.
Proof. by_all_chars c. Qed.

Lemma isupper_lower_char c : isupper_char (lower_char c) = false.
Proof. by_all_chars c. Qed.

Lemma lower_upper_char c : lower_char (upper_char c) = lower_char c.
Proof. by_all_chars c. Qed.

Lemma isalnum_lower_char c : isalnum_char (lower_char c) = isalnum_char c.
Proof. by_all_chars c. Qed.

(** A character that [upper] turns into two is exactly ['ß']. *)
Lemma sharp_s_eqb c : Ascii.eqb c sharp_s = true <-> c = sharp_s.
Proof. apply Ascii.eqb_eq. Qed.

#[export] Hint Rewrite lower_char_idem isupper_lower_char lower_upper_char
  isalnum_lower_char : etl_simpl.

(** ** String lemmas *)

Lemma lower_app s t : lower (s ++ t)%string = (lower s ++ lower t)%string.
Proof. induction s; simpl; congruence. Qed.

Lemma str_app_assoc (a b c : string) : ((a ++ b) ++ c)%string = (a ++ (b ++ c))%string.
Proof. induction a; simpl; congruence. Qed.

Lemma str_app_nil_r (a : string) : (a ++ "")%string = a.
Proof. induction a; simpl; congruence. Qed.

Lemma str_app_length (a b : string) :
  String.length (a ++ b) = String.length a + String.length b.
Proof. induction a; simpl; congruence. Qed.

Lemma join_app l1 l2 : join (l1 ++ l2) = (join l1 ++ join l2)%string.
Proof.
  induction l1 as [|x l1 IH]; simpl; [reflexivity|].
  rewrite IH, str_app_assoc. reflexivity.
Qed.

(** The generator expression over the characters of a string is the
    character filter. *)
Lemma join_alnum_chars s : join_alnum (chars s) = filter_chars isalnum_char s.
Proof.
  unfold join_alnum. induction s as [|c s IH]; simpl; [reflexivity|].
  rewrite andb_true_r. destruct (isalnum_char c); simpl; rewrite IH; reflexivity.
Qed.

Lemma filter_chars_all p s : all_chars p (filter_chars p s) = true.
Proof.
  induction s as [|c s IH]; simpl; [reflexivity|].
  destruct (p c) eqn:Hc; simpl; rewrite ?Hc; auto.
Qed.

Lemma filter_chars_id p s : all_chars p s = true -> filter_chars p s = s.
Proof.
  induction s as [|c s IH]; simpl; [reflexivity|].
  intros H. apply andb_prop in H as [-> Hs]. rewrite IH; auto.
Qed.

Lemma filter_chars_idem p s : filter_chars p (filter_chars p s) = filter_chars p s.
Proof. apply filter_chars_id, filter_chars_all. Qed.

(** A string of alphanumeric characters is [isalnum] exactly when it is
    not empty. *)
Lemma isalnum_filter s :
  filter_chars isalnum_char s <> EmptyString ->
  isalnum (filter_chars isalnum_char s) = true.
Proof.
  unfold isalnum. destruct (filter_chars isalnum_char s) eqn:E; [congruence|].
  intros _. rewrite <- E. apply filter_chars_all.
Qed.


(** ** [int(s)] and [str(n)] *)

(** White space that [int()] skips: the ASCII characters [Py_ISSPACE]
    accepts (TAB, LF, VT, FF, CR, SPACE) and the two Latin-1 code points
    above U+007E that [_PyUnicode_TransformDecimalAndSpaceToASCII] turns
    into a space (NEL U+0085, NBSP U+00A0). *)
Definition is_int_space (c : ascii) : bool :=
  let n := ord c in in_range 9 13 n || (n =? 32) || (n =? 133) || (n =? 160).

Fixpoint lstrip_space (s : string) : string :=
  match s with
  | EmptyString => EmptyString
  | String c r => if is_int_space c then lstrip_space r else s
  end.

Definition digit_value (c : ascii) : option nat :=
  if in_range 48 57 (ord c) then Some (ord c - 48) else None.

(** The digit scan of [PyLong_FromString]: a run of digits and single
    underscores.  [prev_us] is true when the previous character was an
    underscore; starting the scan with [prev_us = true] rejects a leading
    underscore and an empty run, as CPython does before and after its
    scan loop.  Returns the digits and the rest of the string. *)
Fixpoint scan_digits (s : string) (prev_us : bool) : option (list nat * string) :=
  match s with
  | EmptyString => if prev_us then None else Some ([], EmptyString)
  | String c r =>
      match digit_value c with
      | Some d =>
          match scan_digits r false with
          | Some (ds, rest) => Some (d :: ds, rest)
          | None => None
          end
      | None =>
          if Ascii.eqb c "_"%char then
            if prev_us then None else scan_digits r true
          else if prev_us then None else Some ([], s)
      end
  end.

Fixpoint digits_value (acc : Z) (ds : list nat) : Z :=
  match ds with
  | [] => acc
  | d :: r => digits_value (acc * 10 + Z.of_nat d)%Z r
  end.

(** [sys.get_int_max_str_digits()] by default. *)
Definition max_str_digits : nat := 4300.

Inductive int_error : Type :=
| InvalidLiteral                 (** invalid literal for int() with base 10 *)
| ExceedsLimit (ndigits : nat).  (** exceeds the limit (4300 digits) *)

(** [int(s)] for a [str] [s]. *)
Definition int_of_str (s : string) : res int_error Z :=
  let s1 := lstrip_space s in
  let '(neg, s2) :=
    match s1 with
    | String c r =>
        if Ascii.eqb c "+"%char then (false, r)
        else if Ascii.eqb c "-"%char then (true, r)
        else (false, s1)
    | EmptyString => (false, s1)
    end in
  match scan_digits s2 true with
  | None => Err InvalidLiteral
  | Some (ds, rest) =>
      if max_str_digits <? List.length ds then Err (ExceedsLimit (List.length ds))
      else if all_chars is_int_space rest then
        let v := digits_value 0 ds in Val (if neg then (- v)%Z else v)
      else Err InvalidLiteral
  end.

Fixpoint uint_digits (d : Decimal.uint) : list nat :=
  match d with
  | Decimal.Nil => []
  | Decimal.D0 r => 0 :: uint_digits r
  | Decimal.D1 r => 1 :: uint_digits r
  | Decimal.D2 r => 2 :: uint_digits r
  | Decimal.D3 r => 3 :: uint_digits r
  | Decimal.D4 r => 4 :: uint_digits r
  | Decimal.D5 r => 5 :: uint_digits r
  | Decimal.D6 r => 6 :: uint_digits r
  | Decimal.D7 r => 7 :: uint_digits r
  | Decimal.D8 r => 8 :: uint_digits r
  | Decimal.D9 r => 9 :: uint_digits r
  end.

Fixpoint digits_string (ds : list nat) : string :=
  match ds with
  | [] => EmptyString
  | d :: r => String (ascii_of_nat (48 + d)) (digits_string r)
  end.

(** The decimal digits of [|z|], most significant first. *)
Definition decimal_digits (z : Z) : list nat := uint_digits (N.to_uint (Z.abs_N z)).

(** [str(z)] for an [int] [z]; CPython refuses more than 4300 digits. *)
Definition str_of_int (z : Z) : res int_error string :=
  let ds := decimal_digits z in
  if max_str_digits <? List.length ds then Err (ExceedsLimit (List.length ds))
  else Val ((if (z <? 0)%Z then "-" else "") ++ digits_string ds)%string.

(** *** The literals [int()] accepts

    The grammar of the Python documentation for [int(x)] with a string
    [x]: optional white space, an optional sign, decimal digits with
    single underscores between them, optional white space; at most 4300
    digits.  It is stated here independently of the scan above, so that
    the theorem [int_of_str_literal] checks the scan against it. *)

Definition digit_char (d : nat) : ascii := ascii_of_nat (48 + d).

(** The digits after the first one, each preceded by at most one
    underscore. *)
Inductive digit_tail : string -> list nat -> Prop :=
| dt_nil : digit_tail EmptyString []
| dt_digit d s ds : d < 10 -> digit_tail s ds -> digit_tail (String (digit_char d) s) (d :: ds)
| dt_under d s ds : d < 10 -> digit_tail s ds ->
    digit_tail (String "_"%char (String (digit_char d) s)) (d :: ds).

Definition int_spaces (s : string) : Prop := all_chars is_int_space s = true.

Definition int_literal (s : string) (z : Z) : Prop :=
  exists w1 sign d t ds w2,
    s = (w1 ++ sign ++ String (digit_char d) t ++ w2)%string /\
    int_spaces w1 /\ int_spaces w2 /\
    (sign = ""%string \/ sign = "+"%string \/ sign = "-"%string) /\
    d < 10 /\ digit_tail t ds /\ List.length (d :: ds) <= max_str_digits /\
    z = (if String.eqb sign "-" then (- digits_value 0 (d :: ds))%Z else digits_value 0 (d :: ds)).

(** Where the digit scan stops: the end, or a character that is neither
    a digit nor an underscore. *)
Definition scan_stop (s : string) : Prop :=
  match s with
  | EmptyString => True
  | String c _ => digit_value c = None /\ Ascii.eqb c "_"%char = false
  end.

(** *** Lemmas on the conversions *)

Lemma uint_digits_lt d : Forall (fun k => k < 10) (uint_digits d).
Proof. induction d; simpl; constructor; auto; lia. Qed.

Lemma to_uint_not_nil n : N.to_uint n <> Decimal.Nil.
Proof. destruct n; [discriminate|apply DecimalPos.Unsigned.to_uint_nonnil]. Qed.

Lemma decimal_digits_not_nil z : decimal_digits z <> [].
Proof.
  unfold decimal_digits. pose proof (to_uint_not_nil (Z.abs_N z)).
  destruct (N.to_uint (Z.abs_N z)); simpl; congruence.
Qed.

Lemma digit_value_char d : d < 10 -> digit_value (ascii_of_nat (48 + d)) = Some d.
Proof.
  intros H. do 10 (destruct d as [|d]; [reflexivity|]). lia.
Qed.

Lemma scan_digits_string ds prev :
  ds <> [] -> Forall (fun k => k < 10) ds ->
  scan_digits (digits_string ds) prev = Some (ds, EmptyString).
Proof.
  revert prev. induction ds as [|d ds IH]; intros prev Hne Hlt; [congruence|].
  inv Hlt. cbn [digits_string scan_digits]. rewrite digit_value_char by assumption.
  destruct ds as [|d' ds']; [reflexivity|].
  rewrite IH by (congruence || assumption). reflexivity.
Qed.

Lemma digits_value_acc d p :
  Z.pos (Pos.of_uint_acc d p) = digits_value (Z.pos p) (uint_digits d).
Proof.
  revert p. induction d; intros p; cbn [Pos.of_uint_acc uint_digits digits_value]; rewrite ?IHd.
  all: f_equal; lia.
Qed.
Lemma digits_value_uint d : Z.of_N (Pos.of_uint d) = digits_value 0 (uint_digits d).
Proof.
  induction d; cbn [Pos.of_uint uint_digits digits_value Z.of_N]; rewrite ?IHd, ?digits_value_acc; reflexivity.
Qed.

Lemma digits_value_decimal z : digits_value 0 (decimal_digits z) = Z.abs z.
Proof.
  unfold decimal_digits. rewrite <- digits_value_uint.
  change (Pos.of_uint (N.to_uint (Z.abs_N z))) with (N.of_uint (N.to_uint (Z.abs_N z))).
  rewrite DecimalN.Unsigned.of_to. lia.
Qed.

(** A decimal digit character is neither white space nor a sign. *)
Lemma digit_char_not_special d :
  d < 10 ->
  is_int_space (ascii_of_nat (48 + d)) = false /\
  Ascii.eqb (ascii_of_nat (48 + d)) "+"%char = false /\
  Ascii.eqb (ascii_of_nat (48 + d)) "-"%char = false.
Proof. intros H. do 10 (destruct d as [|d]; [split; [|split]; reflexivity|]). lia. Qed.

(** Whenever [str(z)] succeeds, [int()] of the text gives back [z]. *)
Lemma int_of_str_of_int_ok z s : str_of_int z = Val s -> int_of_str s = Val z.
Proof.
  unfold str_of_int. destruct (max_str_digits <? List.length (decimal_digits z)) eqn:Hlim;
    [discriminate|]. intros [= <-].
  pose proof (decimal_digits_not_nil z) as Hne.
  pose proof (uint_digits_lt (N.to_uint (Z.abs_N z))) as Hlt.
  fold (decimal_digits z) in Hlt.
  pose proof (digits_value_decimal z) as Hv.
  destruct (decimal_digits z) as [|d ds] eqn:Hds; [congruence|].
  assert (Hd : d < 10) by (inv Hlt; assumption).
  destruct (digit_char_not_special d Hd) as (Hsp & Hplus & Hminus).
  unfold int_of_str.
  destruct (z <? 0)%Z eqn:Hz; cbn [String.append lstrip_space].
  - change (is_int_space "-"%char) with false. cbn -[scan_digits digits_string digits_value max_str_digits Nat.ltb List.length].
    rewrite scan_digits_string by assumption. rewrite Hlim. cbn [all_chars].
    rewrite Hv. f_equal. apply Z.ltb_lt in Hz. lia.
  - cbn [digits_string lstrip_space]. rewrite Hsp, Hplus, Hminus.
    change (String (ascii_of_nat (48 + d)) (digits_string ds)) with (digits_string (d :: ds)).
    rewrite scan_digits_string by (congruence || assumption). rewrite Hlim. cbn [all_chars].
    rewrite Hv. f_equal. apply Z.ltb_ge in Hz. lia.
Qed.

(** *** [int()] against its grammar *)

Lemma digit_value_inv c d : digit_value c = Some d -> c = digit_char d /\ d < 10.
Proof.
  unfold digit_value, in_range, ord, digit_char.
  destruct ((48 <=? nat_of_ascii c) && (nat_of_ascii c <=? 57)) eqn:E; [|discriminate].
  intros [= <-]. apply andb_prop in E as [E1 E2]. apply Nat.leb_le in E1, E2.
  split; [|lia]. replace (48 + (nat_of_ascii c - 48)) with (nat_of_ascii c) by lia.
  symmetry. apply ascii_nat_embedding.
Qed.

(** White space is neither a digit, an underscore nor a sign. *)
Lemma space_char_special c :
  is_int_space c = true ->
  digit_value c = None /\ Ascii.eqb c "_"%char = false /\
  Ascii.eqb c "+"%char = false /\ Ascii.eqb c "-"%char = false.
Proof.
  assert (H : implb (is_int_space c)
                (negb (match digit_value c with Some _ => true | None => false end) &&
                 negb (Ascii.eqb c "_"%char) && negb (Ascii.eqb c "+"%char) &&
                 negb (Ascii.eqb c "-"%char)) = true) by by_all_chars c.
  intros Hs. rewrite Hs in H. cbn in H.
  destruct (digit_value c), (Ascii.eqb c "_"%char), (Ascii.eqb c "+"%char), (Ascii.eqb c "-"%char);
    try discriminate; auto.
Qed.

Lemma spaces_stop w : int_spaces w -> scan_stop w.
Proof.
  destruct w as [|c r]; cbn; [trivial|]. intros H. apply andb_prop in H as [H _].
  apply space_char_special in H. tauto.
Qed.

Lemma lstrip_space_app w s :
  int_spaces w -> match s with String c _ => is_int_space c = false | EmptyString => True end ->
  lstrip_space (w ++ s) = s.
Proof.
  induction w as [|c r IH]; cbn; intros Hw Hs.
  - destruct s as [|c r]; cbn; [reflexivity|]. rewrite Hs. reflexivity.
  - apply andb_prop in Hw as [-> Hr]. exact (IH Hr Hs).
Qed.

Lemma lstrip_space_split s :
  exists w, s = (w ++ lstrip_space s)%string /\ int_spaces w /\
    match lstrip_space s with String c _ => is_int_space c = false | EmptyString => True end.
Proof.
  induction s as [|c r (w & Ew & Hw & Hc)]; [exists ""%string; repeat split|].
  cbn [lstrip_space]. destruct (is_int_space c) eqn:Hs.
  - exists (String c w). cbn [String.append]. rewrite <- Ew.
    unfold int_spaces in *. cbn [all_chars]. rewrite Hs, Hw. auto.
  - exists ""%string. repeat split. exact Hs.
Qed.

Lemma scan_digits_sound s :
  (forall ds rest, scan_digits s false = Some (ds, rest) ->
     exists t, s = (t ++ rest)%string /\ digit_tail t ds /\ scan_stop rest) /\
  (forall ds rest, scan_digits s true = Some (ds, rest) ->
     exists d t ds', s = String (digit_char d) (t ++ rest) /\ d < 10 /\ digit_tail t ds' /\
                     ds = d :: ds' /\ scan_stop rest).
Proof.
  induction s as [|c r [IHf IHt]].
  - split; intros ds rest H; cbn in H; [|discriminate].
    injection H as <- <-. exists ""%string. repeat split. constructor.
  - cbn [scan_digits]. destruct (digit_value c) as [d|] eqn:Hd.
    + destruct (scan_digits r false) as [[ds0 rest0]|] eqn:Hr; [|split; discriminate].
      destruct (IHf _ _ eq_refl) as (t & -> & Ht & Hs). apply digit_value_inv in Hd as [-> Hd10].
      split; intros ds rest [= <- <-].
      * exists (String (digit_char d) t). repeat split; auto. constructor; auto.
      * exists d, t, ds0. repeat split; auto.
    + destruct (Ascii.eqb c "_"%char) eqn:Hu; split; intros ds rest H; try discriminate.
      * destruct (IHt _ _ H) as (d & t & ds' & -> & Hd10 & Ht & -> & Hs).
        apply Ascii.eqb_eq in Hu as ->. exists (String "_" (String (digit_char d) t)).
        repeat split; auto. constructor; auto.
      * injection H as <- <-. exists ""%string. repeat split; [constructor | exact Hd | exact Hu].
Qed.

Lemma scan_digits_complete t ds rest :
  digit_tail t ds -> scan_stop rest -> scan_digits (t ++ rest) false = Some (ds, rest).
Proof.
  intros Ht Hs. induction Ht as [|d s ds Hd Ht IH|d s ds Hd Ht IH]; cbn [String.append scan_digits].
  - destruct rest as [|c r]; [reflexivity|]. destruct Hs as [Hd Hu]. cbn. rewrite Hd, Hu. reflexivity.
  - unfold digit_char. rewrite digit_value_char, IH by exact Hd. reflexivity.
  - change (digit_value "_"%char) with (@None nat). rewrite Ascii.eqb_refl. cbn [scan_digits].
    unfold digit_char. rewrite digit_value_char, IH by exact Hd. reflexivity.
Qed.

(** What [int()] does after the sign, read back as the grammar's digits
    and trailing white space. *)
Lemma int_digits_sound (neg : bool) s2 z :
  match scan_digits s2 true with
  | None => Err InvalidLiteral
  | Some (ds, rest) =>
      if max_str_digits <? List.length ds then Err (ExceedsLimit (List.length ds))
      else if all_chars is_int_space rest then
        let v := digits_value 0 ds in Val (if neg then (- v)%Z else v)
      else Err InvalidLiteral
  end = Val z ->
  exists d t ds w2, s2 = String (digit_char d) (t ++ w2) /\ d < 10 /\ digit_tail t ds /\
    int_spaces w2 /\ List.length (d :: ds) <= max_str_digits /\
    z = (if neg then (- digits_value 0 (d :: ds))%Z else digits_value 0 (d :: ds)).
Proof.
  destruct (scan_digits s2 true) as [[ds rest]|] eqn:E; [|discriminate].
  destruct (proj2 (scan_digits_sound s2) _ _ E) as (d & t & ds' & -> & Hd & Ht & -> & _).
  destruct (max_str_digits <? _) eqn:Hl; [discriminate|]. apply Nat.ltb_ge in Hl.
  destruct (all_chars is_int_space rest) eqn:Hw; [|discriminate]. intros [= <-].
  exists d, t, ds', rest. repeat split; auto.
Qed.

Lemma int_digits_complete (neg : bool) d t ds w2 :
  d < 10 -> digit_tail t ds -> int_spaces w2 -> List.length (d :: ds) <= max_str_digits ->
  match scan_digits (String (digit_char d) (t ++ w2)) true with
  | None => Err InvalidLiteral
  | Some (ds, rest) =>
      if max_str_digits <? List.length ds then Err (ExceedsLimit (List.length ds))
      else if all_chars is_int_space rest then
        let v := digits_value 0 ds in Val (if neg then (- v)%Z else v)
      else Err InvalidLiteral
  end = Val (if neg then (- digits_value 0 (d :: ds))%Z else digits_value 0 (d :: ds)).
Proof.
  intros Hd Ht Hw Hl. cbn [scan_digits]. unfold digit_char at 1. rewrite digit_value_char by exact Hd.
  rewrite (scan_digits_complete t ds w2 Ht (spaces_stop w2 Hw)).
  apply Nat.ltb_ge in Hl. rewrite Hl. unfold int_spaces in Hw. rewrite Hw. reflexivity.
Qed.

(** *** The digit limit of [str(int)] *)

Lemma digits_value_shift acc ds :
  digits_value acc ds = (acc * 10 ^ Z.of_nat (List.length ds) + digits_value 0 ds)%Z.
Proof.
  revert acc. induction ds as [|d ds IH]; intros acc; cbn [digits_value List.length].
  - lia.
  - rewrite IH, (IH (0 * 10 + Z.of_nat d)%Z), Nat2Z.inj_succ, Z.pow_succ_r by lia. ring.
Qed.

Lemma digits_value_bounds ds :
  Forall (fun k => k < 10) ds -> (0 <= digits_value 0 ds < 10 ^ Z.of_nat (List.length ds))%Z.
Proof.
  induction ds as [|d ds IH]; intros H; cbn [digits_value List.length]; [cbn; lia|].
  inv H. rewrite digits_value_shift, Nat2Z.inj_succ, Z.pow_succ_r by lia.
  specialize (IH H3). pose proof (Z.pow_pos_nonneg 10 (Z.of_nat (List.length ds))). nia.
Qed.

Lemma digits_value_lower d ds :
  1 <= d -> Forall (fun k => k < 10) ds -> (10 ^ Z.of_nat (List.length ds) <= digits_value 0 (d :: ds))%Z.
Proof.
  intros Hd H. cbn [digits_value]. rewrite digits_value_shift.
  pose proof (digits_value_bounds ds H). nia.
Qed.

(** [N.to_uint] has no leading zero, but for [0] itself. *)
Lemma nzhead_head d : match Decimal.nzhead d with Decimal.D0 _ => False | _ => True end.
Proof. induction d; cbn; auto. Qed.

Lemma decimal_digits_head z :
  decimal_digits z = [0] \/ exists d ds, decimal_digits z = d :: ds /\ 1 <= d.
Proof.
  assert (E : N.to_uint (Z.abs_N z) = Decimal.unorm (N.to_uint (Z.abs_N z))).
  { rewrite <- (DecimalN.Unsigned.of_to (Z.abs_N z)) at 1. apply DecimalN.Unsigned.to_of. }
  unfold decimal_digits. rewrite E. unfold Decimal.unorm.
  pose proof (nzhead_head (N.to_uint (Z.abs_N z))).
  destruct (Decimal.nzhead (N.to_uint (Z.abs_N z))); cbn;
    first [left; reflexivity | contradiction | right; do 2 eexists; split; [reflexivity | lia]].
Qed.

(** Below [10^w], the decimal digits of [z] are at most [w]. *)
Lemma decimal_digits_length_le z w :
  (Z.abs z < 10 ^ Z.of_nat w)%Z -> 1 <= w -> List.length (decimal_digits z) <= w.
Proof.
  intros Hz Hw. pose proof (digits_value_decimal z) as Hv.
  pose proof (uint_digits_lt (N.to_uint (Z.abs_N z))) as Hlt. fold (decimal_digits z) in Hlt.
  destruct (decimal_digits_head z) as [H0 | (d & ds & H0 & Hd)]; rewrite H0 in *; cbn [List.length]; [lia|].
  inv Hlt. pose proof (digits_value_lower d ds Hd H3) as Hlo.
  assert (Hp : (10 ^ Z.of_nat (List.length ds) < 10 ^ Z.of_nat w)%Z) by lia.
  apply Z.pow_lt_mono_r_iff in Hp; lia.
Qed.

(** [str(z)] succeeds exactly below 4300 digits. *)
Lemma str_of_int_ok_iff z :
  (exists s, str_of_int z = Val s) <-> (Z.abs z < 10 ^ Z.of_nat max_str_digits)%Z.
Proof.
  unfold str_of_int. pose proof (digits_value_decimal z) as Hv.
  pose proof (uint_digits_lt (N.to_uint (Z.abs_N z))) as Hlt. fold (decimal_digits z) in Hlt.
  destruct (max_str_digits <? List.length (decimal_digits z)) eqn:E.
  - split; [intros [s H]; discriminate|]. intros Hz. apply Nat.ltb_lt in E.
    pose proof (decimal_digits_length_le z max_str_digits Hz ltac:(unfold max_str_digits; lia)). lia.
  - split; [intros _ | intros _; eexists; reflexivity]. apply Nat.ltb_ge in E.
    pose proof (digits_value_bounds _ Hlt) as [_ Hhi].
    assert (Hp : (10 ^ Z.of_nat (List.length (decimal_digits z)) <= 10 ^ Z.of_nat max_str_digits)%Z)
      by (apply Z.pow_le_mono_r; lia).
    lia.
Qed.

(** C25: [str(z)] succeeds exactly when [|z| < 10^4300] (CPython's
    default digit limit), and then [int()] of its text gives back [z]. *)
Theorem str_of_int_roundtrip z :
  (Z.abs z < 10 ^ Z.of_nat max_str_digits)%Z <->
  exists s, str_of_int z = Val s /\ int_of_str s = Val z.
Proof.
  rewrite <- str_of_int_ok_iff. split.
  - intros [s H]. exists s. split; [exact H | exact (int_of_str_of_int_ok z s H)].
  - intros (s & H & _). exists s. exact H.
Qed.

(** ** Properties of the operations [transform_users] applies *)

(** C7: [int(s)] for a [str] accepts exactly the literals of its
    documented grammar -- white space, an optional sign, decimal digits
    with single underscores between them, white space, at most 4300
    digits -- and returns their value; every other string raises
    [ValueError].  In particular a negative literal such as ["-7"] is
    accepted. *)
Theorem int_of_str_literal s z : int_of_str s = Val z <-> int_literal s z.
Proof.
  split.
  - unfold int_of_str. destruct (lstrip_space_split s) as (w1 & Es & Hw1 & Hc).
    destruct (lstrip_space s) as [|c r]; [discriminate|].
    destruct (Ascii.eqb c "+"%char) eqn:Ep; [|destruct (Ascii.eqb c "-"%char) eqn:Em]; intros H;
      [apply Ascii.eqb_eq in Ep as ->; exists w1, "+"%string;
       destruct (int_digits_sound false r z H) as (d & t & ds & w2 & Er & Hd & Ht & Hw2 & Hl & ->)
      |apply Ascii.eqb_eq in Em as ->; exists w1, "-"%string;
       destruct (int_digits_sound true r z H) as (d & t & ds & w2 & Er & Hd & Ht & Hw2 & Hl & ->)
      |exists w1, ""%string;
       destruct (int_digits_sound false (String c r) z H) as (d & t & ds & w2 & Er & Hd & Ht & Hw2 & Hl & ->)];
      exists d, t, ds, w2; rewrite Es, Er; repeat split; auto.
  - intros (w1 & sign & d & t & ds & w2 & -> & Hw1 & Hw2 & Hsign & Hd & Ht & Hl & ->).
    destruct (digit_char_not_special d Hd) as (Hsp & Hplus & Hminus). fold (digit_char d) in *.
    unfold int_of_str.
    destruct Hsign as [-> | [-> | ->]]; rewrite lstrip_space_app by (exact Hw1 || exact Hsp || reflexivity);
      cbn [String.append]; [rewrite Hplus, Hminus; exact (int_digits_complete false _ _ _ _ Hd Ht Hw2 Hl)
                           |exact (int_digits_complete false _ _ _ _ Hd Ht Hw2 Hl)
                           |exact (int_digits_complete true _ _ _ _ Hd Ht Hw2 Hl)].
Qed.

Lemma str_of_int_roundtrip_witness :
  exists s, str_of_int (-120) = Val s /\ int_of_str s = Val (-120)%Z.
Proof. apply str_of_int_roundtrip. vm_compute. reflexivity. Defined.

End PyStr.
