(* ===== verification/PyObj.v ===== *)
(** * Python objects used by [src/pipeline.py]: values, exceptions, dicts

    The rows that flow through the pipeline are Python [dict]s built by
    [csv.DictReader] and mutated in place by [transform_users].  A dict is
    modelled as an association list in insertion order, which is the
    order [dict.values()] returns (Python 3.7+): assigning to an existing
    key keeps its position, assigning to a new key appends it, [del]
    removes it.  Keys are the field names read from the CSV header and
    [None], the [restkey] under which [DictReader] stores the surplus
    fields of a long row.  The exceptions are the ones the program can
    raise, with the information their messages carry. *)

From Stdlib Require Import List String Ascii Bool ZArith Lia.
From S2P Require Import Prelude PyStr.
Import ListNotations.
Local Open Scope etl_scope.

Module PyObj.

(** ** Values *)

(** Dict keys: a [str], or [None]. *)
Inductive key : Type :=
| KStr (s : string)
| KNone.

Definition key_eq_dec (k1 k2 : key) : {k1 = k2} + {k1 <> k2}.
Proof. decide equality. apply string_dec. Defined.

Definition key_eqb (k1 k2 : key) : bool := if key_eq_dec k1 k2 then true else false.

(** The values a row can hold. *)
Inductive value : Type :=
| VNone                       (** [None], DictReader's [restval] *)
| VInt (z : Z)                (** an [int] *)
| VStr (s : string)           (** a [str] *)
| VList (items : list string) (** the [list] of surplus fields of a long row *)
| VDatetime (t : Z).          (** an aware [datetime] in UTC, in microseconds
                                  since the epoch *)

(** ** Exceptions *)

(** The SQLite exception classes of the [sqlite3] module that the
    program's statements can raise (all subclasses of [sqlite3.Error]). *)
Inductive sqlite_class : Type :=
| OperationalError | ProgrammingError | IntegrityError | DatabaseError.

Inductive sqlite_msg : Type :=
| UnableToOpen                        (** unable to open database file *)
| NotADatabase                        (** file is not a database *)
| NoSuchTable (table : string)        (** no such table: users *)
| NoSuchColumn (table col : string)   (** table users has no column named x *)
| BindingCount (needed supplied : nat)(** Incorrect number of bindings supplied *)
| UnsupportedType (param : nat)       (** Error binding parameter: type not supported *)
| NotNullFailed (table col : string). (** NOT NULL constraint failed: users.name *)

Inductive csv_msg : Type :=
| FieldLimit (limit : nat)        (** field larger than field limit (131072) *)
| NewlineInUnquoted.              (** new-line character seen in unquoted field *)

Inductive exn : Type :=
| KeyError (k : key)
| ValueErrorInt (s : string) (e : PyStr.int_error) (** int() of a bad [str] *)
| ValueErrorStr (e : PyStr.int_error)              (** str() of a huge [int] *)
| ValueErrorFields (extra : list key)  (** DictWriter: dict contains fields not in fieldnames *)
| TypeErrorInt (v : value)             (** int() argument must be a string or a number *)
| TypeErrorNotIterable (v : value)     (** object is not iterable *)
| AttributeError (v : value) (attr : string) (** object has no attribute *)
| OverflowError                        (** Python int too large to convert to SQLite INTEGER *)
| FileNotFoundError (path : string)
| IsADirectoryError (path : string)
| UnicodeDecodeError (path : string)
| CsvError (m : csv_msg)
| SqliteError (cls : sqlite_class) (m : sqlite_msg).

(** [except sqlite3.Error] *)
Definition is_sqlite_error (e : exn) : bool :=
  match e with SqliteError _ _ => true | _ => false end.

(** ** Operations on values *)

(** [int(v)] *)
Definition py_int (v : value) : res exn Z :=
  match v with
  | VInt z => Val z
  | VStr s => rmap_err (ValueErrorInt s) (PyStr.int_of_str s)
  | _ => Err (TypeErrorInt v)
  end.

(** [v.lower()] *)
Definition py_lower (v : value) : res exn string :=
  match v with
  | VStr s => Val (PyStr.lower s)
  | _ => Err (AttributeError v "lower")
  end.

(** [for x in v], where the items are strings: a [str] yields its
    characters, a [list] of strings its elements. *)
Definition py_iter_str (v : value) : res exn (list string) :=
  match v with
  | VStr s => Val (PyStr.chars s)
  | VList l => Val l
  | _ => Err (TypeErrorNotIterable v)
  end.

(** ** Dicts *)

Definition dict : Type := list (key * value).

Fixpoint lookup (d : dict) (k : key) : option value :=
  match d with
  | [] => None
  | (k', v) :: r => if key_eqb k k' then Some v else lookup r k
  end.

(** [d[k]] *)
Definition getitem (d : dict) (k : key) : res exn value :=
  match lookup d k with
  | Some v => Val v
  | None => Err (KeyError k)
  end.

(** [d[k] = v]: in place when [k] is present, appended otherwise. *)
Fixpoint setitem (d : dict) (k : key) (v : value) : dict :=
  match d with
  | [] => [(k, v)]
  | (k', v') :: r => if key_eqb k k' then (k', v) :: r else (k', v') :: setitem r k v
  end.

Fixpoint remove_key (d : dict) (k : key) : dict :=
  match d with
  | [] => []
  | (k', v') :: r => if key_eqb k k' then r else (k', v') :: remove_key r k
  end.

(** [del d[k]] *)
Definition delitem (d : dict) (k : key) : res exn dict :=
  match lookup d k with
  | Some _ => Val (remove_key d k)
  | None => Err (KeyError k)
  end.

(** [d.get(k, default)] *)
Definition get (d : dict) (k : key) (default : value) : value :=
  match lookup d k with Some v => v | None => default end.

Definition keys (d : dict) : list key := map fst d.

(** [d.values()], in insertion order. *)
Definition values (d : dict) : list value := map snd d.

(** [dict(pairs)]: the pairs inserted from left to right. *)
Definition dict_of_pairs (ps : list (key * value)) : dict :=
  fold_left (fun d kv => setitem d (fst kv) (snd kv)) ps [].

(** The invariant of a dict: no key occurs twice. *)
Definition wf (d : dict) : Prop := NoDup (keys d).

(** The invariant, decided. *)
Fixpoint nodup_keys (ks : list key) : bool :=
  match ks with
  | [] => true
  | k :: r => negb (existsb (key_eqb k) r) && nodup_keys r
  end.

Definition wfb (d : dict) : bool := nodup_keys (keys d).

(** ** Dict lemmas *)

Lemma key_eqb_eq k1 k2 : key_eqb k1 k2 = true <-> k1 = k2.
Proof. unfold key_eqb. destruct (key_eq_dec k1 k2); split; congruence. Qed.

Lemma key_eqb_refl k : key_eqb k k = true.
Proof. apply key_eqb_eq. reflexivity. Qed.

Lemma key_eqb_neq k1 k2 : k1 <> k2 -> key_eqb k1 k2 = false.
Proof. unfold key_eqb. destruct (key_eq_dec k1 k2); congruence. Qed.

#[export] Hint Rewrite key_eqb_refl : etl_simpl.

(** Case analysis on a key comparison, with the equation. *)
Ltac destruct_key_eqb :=
  match goal with
  | |- context [key_eqb ?a ?b] =>
      destruct (key_eq_dec a b) as [<-|?];
      [rewrite key_eqb_refl | rewrite (key_eqb_neq a b) by congruence]
  end.

Lemma lookup_in_keys d k : lookup d k <> None <-> In k (keys d).
Proof.
  induction d as [|[k' v'] d IH]; simpl; [tauto|].
  destruct_key_eqb; [split; auto; discriminate|].
  rewrite IH. split; [auto|]. intros [->|H]; [congruence|exact H].
Qed.

Lemma lookup_none_keys d k : lookup d k = None <-> ~ In k (keys d).
Proof.
  rewrite <- lookup_in_keys.
  destruct (lookup d k); split; intros H; try congruence; exfalso; apply H; discriminate.
Qed.

Lemma setitem_absent d k v : ~ In k (keys d) -> setitem d k v = d ++ [(k, v)].
Proof.
  induction d as [|[k' v'] d IH]; simpl; intros Hin; [reflexivity|].
  rewrite key_eqb_neq by (intros ?; subst; tauto). rewrite IH by tauto. reflexivity.
Qed.

Lemma lookup_setitem_eq d k v : lookup (setitem d k v) k = Some v.
Proof.
  induction d as [|[k' v'] d IH]; simpl; autorewrite with etl_simpl; [reflexivity|].
  destruct_key_eqb; simpl; autorewrite with etl_simpl; [reflexivity|].
  rewrite key_eqb_neq by congruence. exact IH.
Qed.

Lemma lookup_setitem_ne d k k' v :
  k <> k' -> lookup (setitem d k v) k' = lookup d k'.
Proof.
  intros Hne. induction d as [|[k0 v0] d IH]; simpl.
  - rewrite key_eqb_neq by congruence. reflexivity.
  - destruct (key_eqb k k0) eqn:E; simpl.
    + apply key_eqb_eq in E as <-. rewrite !(key_eqb_neq k' k) by congruence. reflexivity.
    + rewrite IH. reflexivity.
Qed.

Lemma keys_setitem_present d k v :
  In k (keys d) -> keys (setitem d k v) = keys d.
Proof.
  induction d as [|[k' v'] d IH]; simpl; [tauto|].
  intros Hin. destruct (key_eqb k k') eqn:E; simpl; [reflexivity|].
  rewrite IH; [reflexivity|]. destruct Hin as [->|Hin]; [|exact Hin].
  rewrite key_eqb_refl in E. discriminate.
Qed.

Lemma keys_setitem_absent d k v :
  ~ In k (keys d) -> keys (setitem d k v) = keys d ++ [k].
Proof.
  induction d as [|[k' v'] d IH]; simpl; [reflexivity|].
  intros Hin. rewrite key_eqb_neq by (intros ?; subst; tauto). simpl. rewrite IH by tauto. reflexivity.
Qed.

Lemma setitem_wf d k v : wf d -> wf (setitem d k v).
Proof.
  unfold wf. intros H. destruct (in_dec key_eq_dec k (keys d)) as [Hin|Hin].
  - rewrite keys_setitem_present by exact Hin. exact H.
  - rewrite keys_setitem_absent by exact Hin.
    apply NoDup_app; [exact H | constructor; [tauto|constructor] |].
    intros x Hx [<-|[]]. contradiction.
Qed.

(** Assigning to a present key replaces its value where it stands. *)
Lemma setitem_app l1 l2 k v0 v :
  ~ In k (keys l1) -> setitem (l1 ++ (k, v0) :: l2) k v = l1 ++ (k, v) :: l2.
Proof.
  induction l1 as [|[k' v'] l1 IH]; simpl; intros Hin.
  - rewrite key_eqb_refl. reflexivity.
  - rewrite key_eqb_neq by (intros ?; subst; tauto). rewrite IH by tauto. reflexivity.
Qed.

Lemma remove_key_app l1 l2 k v0 :
  ~ In k (keys l1) -> remove_key (l1 ++ (k, v0) :: l2) k = l1 ++ l2.
Proof.
  induction l1 as [|[k' v'] l1 IH]; simpl; intros Hin.
  - rewrite key_eqb_refl. reflexivity.
  - rewrite key_eqb_neq by (intros ?; subst; tauto). rewrite IH by tauto. reflexivity.
Qed.

(** A present key splits the dict at its first occurrence. *)
Lemma lookup_split d k v :
  lookup d k = Some v -> exists l1 l2, d = l1 ++ (k, v) :: l2 /\ ~ In k (keys l1).
Proof.
  induction d as [|[k' v'] d IH]; simpl; [discriminate|].
  destruct (key_eqb k k') eqn:E.
  - apply key_eqb_eq in E as <-. intros [= <-]. exists [], d. simpl. auto.
  - intros H. destruct (IH H) as (l1 & l2 & -> & Hn).
    exists ((k', v') :: l1), l2. split; [reflexivity|]. simpl.
    intros [->|Hk]; [rewrite key_eqb_refl in E; discriminate | contradiction].
Qed.

Lemma keys_app l1 l2 : keys (l1 ++ l2) = keys l1 ++ keys l2.
Proof. apply map_app. Qed.

Lemma values_app l1 l2 : values (l1 ++ l2) = values l1 ++ values l2.
Proof. apply map_app. Qed.

Lemma lookup_remove_eq d k : wf d -> lookup (remove_key d k) k = None.
Proof.
  unfold wf. induction d as [|[k' v'] d IH]; simpl; intros Hnd; [reflexivity|].
  inv Hnd. destruct (key_eqb k k') eqn:E.
  - apply key_eqb_eq in E as <-. apply lookup_none_keys. assumption.
  - simpl. rewrite E. auto.
Qed.

Lemma lookup_remove_ne d k k' : k <> k' -> lookup (remove_key d k) k' = lookup d k'.
Proof.
  intros Hne. induction d as [|[k0 v0] d IH]; simpl; [reflexivity|].
  destruct (key_eqb k k0) eqn:E.
  - apply key_eqb_eq in E as <-. rewrite key_eqb_neq by congruence. reflexivity.
  - simpl. rewrite IH. reflexivity.
Qed.

Lemma keys_remove_incl d k x : In x (keys (remove_key d k)) -> In x (keys d).
Proof.
  induction d as [|[k0 v0] d IH]; simpl; [tauto|].
  destruct (key_eqb k k0); simpl; tauto.
Qed.

Lemma keys_remove_key d k :
  wf d -> keys (remove_key d k) = remove key_eq_dec k (keys d).
Proof.
  unfold wf. induction d as [|[k0 v0] d IH]; simpl; intros Hnd; [reflexivity|].
  inv Hnd. destruct (key_eq_dec k k0) as [<-|Hne].
  - rewrite key_eqb_refl. symmetry. apply notin_remove. assumption.
  - rewrite key_eqb_neq by exact Hne. simpl. rewrite IH by assumption. reflexivity.
Qed.

Lemma remove_key_wf d k : wf d -> wf (remove_key d k).
Proof.
  unfold wf. induction d as [|[k0 v0] d IH]; simpl; intros Hnd; [constructor|].
  inv Hnd. destruct (key_eqb k k0); [assumption|].
  simpl. constructor; [|auto]. intros Hin. apply keys_remove_incl in Hin. contradiction.
Qed.

Lemma delitem_wf d k d' : wf d -> delitem d k = Val d' -> wf d'.
Proof.
  unfold delitem. destruct (lookup d k); intros H [= <-]. apply remove_key_wf, H.
Qed.

Lemma dict_of_pairs_wf ps : wf (dict_of_pairs ps).
Proof.
  unfold dict_of_pairs. assert (Hgen : forall d, wf d ->
    wf (fold_left (fun d kv => setitem d (fst kv) (snd kv)) ps d)).
  { induction ps as [|[k v] ps IH]; simpl; intros d Hd; [exact Hd|].
    apply IH, setitem_wf, Hd. }
  apply Hgen. constructor.
Qed.

(** With distinct keys, [dict(pairs)] keeps the pairs as given. *)
Lemma dict_of_pairs_nodup ps : NoDup (map fst ps) -> dict_of_pairs ps = ps.
Proof.
  unfold dict_of_pairs. intros Hnd.
  assert (Hgen : forall acc, NoDup (map fst (acc ++ ps)) ->
    fold_left (fun d kv => setitem d (fst kv) (snd kv)) ps acc = acc ++ ps).
  { clear Hnd. induction ps as [|[k v] ps IH]; simpl; intros acc Hacc;
      [rewrite app_nil_r; reflexivity|].
    rewrite map_app in Hacc. simpl in Hacc.
    assert (Hk : ~ In k (keys acc)).
    { intros Hin. apply NoDup_remove_2 in Hacc. apply Hacc, in_or_app. left. exact Hin. }
    rewrite setitem_absent by exact Hk. rewrite IH.
    - rewrite <- app_assoc. reflexivity.
    - rewrite <- app_assoc, map_app. exact Hacc. }
  apply (Hgen []). exact Hnd.
Qed.


Lemma wfb_wf d : wfb d = true -> wf d.
Proof.
  unfold wfb, wf. induction (keys d) as [|k r IH]; simpl; intros H; [constructor|].
  apply andb_prop in H as [Hk Hr]. constructor; [|auto].
  intros Hin. apply Bool.negb_true_iff in Hk.
  assert (existsb (key_eqb k) r = true) by (apply existsb_exists; exists k; split;
    [exact Hin | apply key_eqb_refl]). congruence.
Qed.

End PyObj.
