(* ===== verification/Datetime.v ===== *)
(** * The text SQLite stores for [processed_at]

    [load_data] binds the aware [datetime] of [processed_at] as a query
    parameter; the [sqlite3] module's default adapter turns it into TEXT
    with [val.isoformat(" ")], e.g. ["2023-11-14 22:13:20.000001+00:00"]:
    ["%04d-%02d-%02d %02d:%02d:%02d"], then [".%06d"] when the microsecond
    is not zero, then the UTC offset ["+00:00"].  An instant is a count of
    microseconds since 1970-01-01 00:00:00 UTC; the calendar date is
    computed with the days-to-civil conversion of the proleptic Gregorian
    calendar (eras of 400 years, 146097 days), as [datetime] uses.
    [civil_from_days_correct] shows the date is valid and that
    [days_from_civil] maps it back to the day. *)

From Stdlib Require Import List String Ascii ZArith Lia.
From S2P Require Import Prelude PyStr.
Import ListNotations.
Local Open Scope Z_scope.

Module Datetime.

Definition us_per_day : Z := 86400000000.

(** Year, month, day of the day [z] days after 1970-01-01. *)
Definition civil_from_days (z : Z) : Z * Z * Z :=
  let z := z + 719468 in
  let era := z / 146097 in
  let doe := z - era * 146097 in
  let yoe := (doe - doe / 1460 + doe / 36524 - doe / 146096) / 365 in
  let y := yoe + era * 400 in
  let doy := doe - (365 * yoe + yoe / 4 - yoe / 100) in
  let mp := (5 * doy + 2) / 153 in
  let d := doy - (153 * mp + 2) / 5 + 1 in
  let m := if mp <? 10 then mp + 3 else mp - 9 in
  (if m <=? 2 then y + 1 else y, m, d).

(** The day number of a civil date: the inverse conversion. *)
Definition days_from_civil (y m d : Z) : Z :=
  let y := if m <=? 2 then y - 1 else y in
  let era := y / 400 in
  let yoe := y - era * 400 in
  let doy := (153 * (if 2 <? m then m - 3 else m + 9) + 2) / 5 + d - 1 in
  let doe := yoe * 365 + yoe / 4 - yoe / 100 + doy in
  era * 146097 + doe - 719468.

(** ["%0<w>d"] for [n >= 0]. *)
Definition pad (w : nat) (n : Z) : string :=
  let s := PyStr.digits_string (PyStr.decimal_digits n) in
  (PyStr.join (repeat "0"%string (w - String.length s)) ++ s)%string.

(** [str(dt)] for an aware UTC [datetime] at instant [t]. *)
Definition isoformat_utc (t : Z) : string :=
  let days := t / us_per_day in
  let rem := t mod us_per_day in
  let '(y, m, d) := civil_from_days days in
  let secs := rem / 1000000 in
  let us := rem mod 1000000 in
  (pad 4 y ++ "-" ++ pad 2 m ++ "-" ++ pad 2 d ++ " " ++
   pad 2 (secs / 3600) ++ ":" ++ pad 2 (secs / 60 mod 60) ++ ":" ++ pad 2 (secs mod 60) ++
   (if Z.eqb us 0 then "" else "." ++ pad 6 us) ++ "+00:00")%string.

(** The Gregorian leap-year rule and the length of a month. *)
Definition leap (y : Z) : bool := (((y mod 4 =? 0) && negb (y mod 100 =? 0)) || (y mod 400 =? 0))%bool.

Definition month_len (lp : bool) (m : Z) : Z :=
  if m =? 2 then (if lp then 29 else 28)
  else if ((m =? 4) || (m =? 6) || (m =? 9) || (m =? 11))%bool then 30 else 31.

Definition days_in_month (y m : Z) : Z := month_len (leap y) m.

(** The month and day of day [doy] of a year that starts on March 1, as
    [civil_from_days] computes them, are a valid date; day 365 exists in
    leap years only. *)
Definition doy_ok (doy : Z) : bool :=
  let mp := (5 * doy + 2) / 153 in
  let d := doy - (153 * mp + 2) / 5 + 1 in
  let m := if mp <? 10 then mp + 3 else mp - 9 in
  ((0 <=? mp) && (mp <=? 11) && (1 <=? d) && (d <=? month_len (doy =? 365) m) &&
   (negb (doy =? 365) || (m =? 2)))%bool.

(** ** Reading the stored text back

    An independent reader of the stored format: fixed-width decimal
    fields and their separators, an optional fraction of six digits, the
    offset ["+00:00"], and the range checks of [datetime] (years
    1..9999, a valid month and day, a time of day). *)

Definition obind {A B} (o : option A) (f : A -> option B) : option B :=
  match o with Some a => f a | None => None end.

(** [n] decimal digits, accumulated into [acc]. *)
Fixpoint read_digits (n : nat) (acc : Z) (s : string) : option (Z * string) :=
  match n with
  | O => Some (acc, s)
  | S n' =>
      match s with
      | String c r =>
          match PyStr.digit_value c with
          | Some k => read_digits n' (acc * 10 + Z.of_nat k) r
          | None => None
          end
      | EmptyString => None
      end
  end.

Definition expect (c : ascii) (s : string) : option string :=
  match s with
  | String c' r => if Ascii.eqb c c' then Some r else None
  | EmptyString => None
  end.

Definition iso_fields_ok (y m d hh mi ss : Z) : bool :=
  ((1 <=? y) && (y <=? 9999) && (1 <=? m) && (m <=? 12) && (1 <=? d) &&
   (d <=? days_in_month y m) && (hh <? 24) && (mi <? 60) && (ss <? 60))%bool.

Definition instant_of (y m d hh mi ss us : Z) : Z :=
  days_from_civil y m d * us_per_day + ((hh * 60 + mi) * 60 + ss) * 1000000 + us.

Definition parse_iso (s : string) : option Z :=
  obind (read_digits 4 0 s) (fun '(y, s) =>
  obind (expect "-" s) (fun s =>
  obind (read_digits 2 0 s) (fun '(m, s) =>
  obind (expect "-" s) (fun s =>
  obind (read_digits 2 0 s) (fun '(d, s) =>
  obind (expect " " s) (fun s =>
  obind (read_digits 2 0 s) (fun '(hh, s) =>
  obind (expect ":" s) (fun s =>
  obind (read_digits 2 0 s) (fun '(mi, s) =>
  obind (expect ":" s) (fun s =>
  obind (read_digits 2 0 s) (fun '(ss, s) =>
  obind (match s with
         | String "."%char r => read_digits 6 0 r
         | _ => Some (0, s)
         end) (fun '(us, s) =>
  if (String.eqb s "+00:00" && iso_fields_ok y m d hh mi ss)%bool
  then Some (instant_of y m d hh mi ss us) else None)))))))))))).

(** The instants [datetime] represents: 0001-01-01 to 9999-12-31. *)
Definition min_instant : Z := days_from_civil 1 1 1 * us_per_day.
Definition max_instant : Z := days_from_civil 10000 1 1 * us_per_day.

(** The first and last days of the years 0 and 10000 bound those of the
    years in between. *)
Definition year_edges_ok : bool :=
  Z_all (fun m => Z_all (fun d => ((days_from_civil 0 m d <? days_from_civil 1 1 1) &&
                                   (days_from_civil 10000 1 1 <=? days_from_civil 10000 m d))%bool) 31 1) 12 1.

(** ** The calendar conversion

    The conversion repeats every era of 400 years (146097 days): shifting
    the day by whole eras shifts the year, and only the year.  Within the
    first era the year of the era and the day of the year are bounded by
    [lia]; the 366 days of a year are checked by evaluation. *)

Lemma civil_from_days_shift z k :
  civil_from_days (z + 146097 * k) =
    let '(y, m, d) := civil_from_days z in (y + 400 * k, m, d).
Proof.
  unfold civil_from_days.
  replace (z + 146097 * k + 719468) with ((z + 719468) + k * 146097) by ring.
  rewrite Z.div_add by lia.
  replace (z + 719468 + k * 146097 - ((z + 719468) / 146097 + k) * 146097)
    with (z + 719468 - (z + 719468) / 146097 * 146097) by ring.
  cbv zeta. destruct (_ <? 10); destruct (_ <=? 2); f_equal; f_equal; ring.
Qed.

Lemma days_from_civil_shift y m d k :
  days_from_civil (y + 400 * k) m d = days_from_civil y m d + 146097 * k.
Proof.
  unfold days_from_civil. cbv zeta.
  assert (E : (if m <=? 2 then y + 400 * k - 1 else y + 400 * k) =
              (if m <=? 2 then y - 1 else y) + k * 400)
    by (destruct (m <=? 2); ring).
  rewrite E. set (Y := if m <=? 2 then y - 1 else y). rewrite Z.div_add by lia.
  replace (Y + k * 400 - (Y / 400 + k) * 400) with (Y - Y / 400 * 400) by ring. ring.
Qed.

Lemma leap_shift y k : leap (y + 400 * k) = leap y.
Proof.
  unfold leap.
  replace (y + 400 * k) with (y + (100 * k) * 4) by ring. rewrite Z.mod_add by lia.
  replace (y + 100 * k * 4) with (y + (4 * k) * 100) by ring. rewrite Z.mod_add by lia.
  replace (y + 4 * k * 100) with (y + k * 400) by ring. rewrite Z.mod_add by lia.
  reflexivity.
Qed.

Lemma days_in_month_shift y m k : days_in_month (y + 400 * k) m = days_in_month y m.
Proof. unfold days_in_month. rewrite leap_shift. reflexivity. Qed.

Lemma month_len_leap lp m : month_len false m <= month_len lp m.
Proof. unfold month_len. destruct lp, (m =? 2), ((m =? 4) || (m =? 6) || (m =? 9) || (m =? 11))%bool; lia. Qed.

Lemma doy_ok_all : Z_all doy_ok 366 0 = true.
Proof. vm_compute. reflexivity. Qed.

(** Year of the era and day of the year, in the first era: the year of
    the era is below 400, the day of the year below 366, and day 365
    occurs only in a year whose February is a leap February. *)
Lemma yoe_doy_bounds doe : 0 <= doe < 146097 ->
  let yoe := (doe - doe / 1460 + doe / 36524 - doe / 146096) / 365 in
  let doy := doe - (365 * yoe + yoe / 4 - yoe / 100) in
  0 <= yoe <= 399 /\ 0 <= doy <= 365 /\ (doy = 365 -> leap (yoe + 1) = true).
Proof.
  intros H yoe doy. subst yoe doy.
  assert (doe / 36524 = 0 \/ doe / 36524 = 1 \/ doe / 36524 = 2 \/ doe / 36524 = 3 \/
          doe / 36524 = 4) by (Z.to_euclidean_division_equations; lia).
  assert (doe / 146096 = 0 \/ doe / 146096 = 1) by (Z.to_euclidean_division_equations; lia).
  unfold leap. rewrite Bool.orb_true_iff, Bool.andb_true_iff, Bool.negb_true_iff, !Z.eqb_eq, Z.eqb_neq.
  intuition idtac; Z.to_euclidean_division_equations; lia.
Qed.

(** The first era, from 0000-03-01 (day -719468). *)
Lemma civil_from_days_era0 doe : 0 <= doe < 146097 ->
  let '(y, m, d) := civil_from_days (doe - 719468) in
  days_from_civil y m d = doe - 719468 /\ 1 <= m <= 12 /\ 1 <= d <= days_in_month y m.
Proof.
  intros Hd. unfold civil_from_days. rewrite Z.sub_add, (Z.div_small doe) by lia.
  rewrite Z.mul_0_l, Z.sub_0_r, Z.add_0_r. cbv zeta.
  destruct (yoe_doy_bounds doe Hd) as (Hy & Hdoy & Hleap). cbv zeta in Hy, Hdoy, Hleap.
  set (yoe := (doe - doe / 1460 + doe / 36524 - doe / 146096) / 365) in *.
  set (doy := doe - (365 * yoe + yoe / 4 - yoe / 100)) in *.
  pose proof (Z_all_spec _ _ _ doy doy_ok_all ltac:(cbn; lia)) as Hm. unfold doy_ok in Hm.
  set (mp := (5 * doy + 2) / 153) in *. set (d := doy - (153 * mp + 2) / 5 + 1) in *.
  rewrite !Bool.andb_true_iff, Bool.orb_true_iff, Bool.negb_true_iff, !Z.leb_le, !Z.eqb_eq,
    Z.eqb_neq in Hm.
  destruct Hm as ((((Hmp0 & Hmp1) & Hd1) & Hd2) & Hfeb).
  destruct (Z.ltb_spec mp 10) as [Hlt|Hge]; [destruct (Z.leb_spec (mp + 3) 2) | destruct (Z.leb_spec (mp - 9) 2)];
    try lia; unfold days_from_civil, days_in_month; cbv zeta.
  - rewrite (proj2 (Z.leb_gt _ _) H), (proj2 (Z.ltb_lt 2 (mp + 3)) H), (Z.div_small yoe) by lia.
    replace (mp + 3 - 3) with mp by ring.
    destruct (Z.eqb_spec doy 365); [lia|]. pose proof (month_len_leap (leap yoe) (mp + 3)).
    split; [|lia]. unfold d, doy. ring_simplify (yoe - 0 * 400). ring.
  - rewrite (proj2 (Z.leb_le _ _) H), (proj2 (Z.ltb_ge 2 (mp - 9)) H), Z.add_simpl_r,
      (Z.div_small yoe) by lia.
    replace (mp - 9 + 9) with mp by ring.
    assert (d <= month_len (leap (yoe + 1)) (mp - 9)).
    { destruct (Z.eqb_spec doy 365) as [E|].
      - rewrite (Hleap E). exact Hd2.
      - pose proof (month_len_leap (leap (yoe + 1)) (mp - 9)). lia. }
    split; [|lia]. unfold d, doy. ring_simplify (yoe - 0 * 400). ring.
Qed.

(** *** Padded fields *)

Lemma digits_string_app a b :
  PyStr.digits_string (a ++ b) = (PyStr.digits_string a ++ PyStr.digits_string b)%string.
Proof. induction a as [|x a IH]; cbn; [reflexivity | rewrite IH; reflexivity]. Qed.

Lemma digits_string_length ds : String.length (PyStr.digits_string ds) = List.length ds.
Proof. induction ds as [|x ds IH]; cbn; [reflexivity | rewrite IH; reflexivity]. Qed.

Lemma join_zeros k : PyStr.join (repeat "0"%string k) = PyStr.digits_string (repeat 0%nat k).
Proof. induction k as [|k IH]; cbn; [reflexivity | rewrite IH; reflexivity]. Qed.

Lemma digits_value_zeros k ds : PyStr.digits_value 0 (repeat 0%nat k ++ ds) = PyStr.digits_value 0 ds.
Proof. induction k as [|k IH]; cbn; [reflexivity | exact IH]. Qed.

Lemma read_digits_string ds acc rest :
  Forall (fun k => (k < 10)%nat) ds ->
  read_digits (List.length ds) acc (PyStr.digits_string ds ++ rest) =
    Some (PyStr.digits_value acc ds, rest).
Proof.
  revert acc. induction ds as [|x ds IH]; intros acc H; [reflexivity|].
  inv H. cbn [List.length read_digits PyStr.digits_string String.append].
  rewrite PyStr.digit_value_char by assumption. apply IH. assumption.
Qed.

(** ["%0<w>d" % n] is read back as [n]. *)
Lemma read_pad w n rest :
  (1 <= w)%nat -> 0 <= n < 10 ^ Z.of_nat w -> read_digits w 0 (pad w n ++ rest) = Some (n, rest).
Proof.
  intros Hw Hn. unfold pad.
  pose proof (PyStr.decimal_digits_length_le n w ltac:(lia) Hw) as Hl.
  pose proof (PyStr.uint_digits_lt (N.to_uint (Z.abs_N n))) as Hlt.
  fold (PyStr.decimal_digits n) in Hlt.
  cbv zeta. rewrite digits_string_length, join_zeros, <- digits_string_app.
  replace w with (List.length (repeat 0%nat (w - List.length (PyStr.decimal_digits n)) ++
                               PyStr.decimal_digits n)) at 1
    by (rewrite length_app, repeat_length; lia).
  rewrite read_digits_string.
  - rewrite digits_value_zeros, PyStr.digits_value_decimal. f_equal. f_equal. lia.
  - apply Forall_app. split; [apply Forall_forall; intros x Hx; apply repeat_spec in Hx; lia | exact Hlt].
Qed.

(** *** The year of a day in [datetime]'s range *)

Lemma days_from_civil_succ y m d : days_from_civil y m d < days_from_civil (y + 1) m d.
Proof.
  unfold days_from_civil. cbv zeta.
  assert (E : (if m <=? 2 then y + 1 - 1 else y + 1) = (if m <=? 2 then y - 1 else y) + 1)
    by (destruct (m <=? 2); ring).
  rewrite E. set (Y := if m <=? 2 then y - 1 else y). clearbody Y.
  set (doy := (153 * (if 2 <? m then m - 3 else m + 9) + 2) / 5 + d - 1). clearbody doy.
  assert (Ee : (Y + 1) / 400 = Y / 400 \/ (Y + 1) / 400 = Y / 400 + 1)
    by (Z.to_euclidean_division_equations; lia).
  destruct Ee as [Ee|Ee]; rewrite Ee; Z.to_euclidean_division_equations; lia.
Qed.

Lemma days_from_civil_mono y k m d : days_from_civil y m d <= days_from_civil (y + Z.of_nat k) m d.
Proof.
  induction k as [|k IH]; [rewrite Z.add_0_r; lia|].
  pose proof (days_from_civil_succ (y + Z.of_nat k) m d). rewrite Nat2Z.inj_succ, <- Z.add_1_r, Z.add_assoc. lia.
Qed.

Lemma year_edges : year_edges_ok = true.
Proof. vm_compute. reflexivity. Qed.

Lemma year_in_range y m d :
  1 <= m <= 12 -> 1 <= d <= 31 ->
  days_from_civil 1 1 1 <= days_from_civil y m d < days_from_civil 10000 1 1 -> 1 <= y <= 9999.
Proof.
  intros Hm Hd Hr.
  pose proof (Z_all_spec _ _ _ d (Z_all_spec _ _ _ m year_edges ltac:(cbn; lia)) ltac:(cbn; lia)) as H.
  apply andb_prop in H as [H1 H2]. apply Z.ltb_lt in H1. apply Z.leb_le in H2.
  split; apply Z.nlt_ge; intros Hy.
  - pose proof (days_from_civil_mono y (Z.to_nat (- y)) m d). rewrite Z2Nat.id in * by lia. 
    replace (y + - y) with 0 in * by ring. lia.
  - pose proof (days_from_civil_mono 10000 (Z.to_nat (y - 10000)) m d). rewrite Z2Nat.id in * by lia.
    replace (10000 + (y - 10000)) with y in * by ring. lia.
Qed.

Lemma days_in_month_le y m : days_in_month y m <= 31.
Proof.
  unfold days_in_month, month_len. destruct (leap y), (m =? 2), ((m =? 4) || (m =? 6) || (m =? 9) || (m =? 11))%bool; lia.
Qed.

Example isoformat_epoch : isoformat_utc 0 = "1970-01-01 00:00:00+00:00"%string.
Proof. vm_compute. reflexivity. Qed.

Example isoformat_sample :
  isoformat_utc 1700000000000001 = "2023-11-14 22:13:20.000001+00:00"%string.
Proof. vm_compute. reflexivity. Qed.

Example isoformat_leap_day :
  isoformat_utc (days_from_civil 2024 2 29 * us_per_day) = "2024-02-29 00:00:00+00:00"%string.
Proof. vm_compute. reflexivity. Qed.




(** The date in the text of [processed_at] is the calendar date of
    the instant: for every day number [z] (days since 1970-01-01),
    [civil_from_days z] is a valid Gregorian date -- month 1..12, day
    within the month, leap years included -- and [days_from_civil] maps
    it back to [z]; so distinct days get distinct dates. *)
Theorem civil_from_days_correct z :
  let '(y, m, d) := civil_from_days z in
  days_from_civil y m d = z /\ 1 <= m <= 12 /\ 1 <= d <= days_in_month y m.
Proof.
  set (k := (z + 719468) / 146097). set (doe := z + 719468 - 146097 * k).
  assert (Hd : 0 <= doe < 146097).
  { unfold doe, k. pose proof (Z.mod_pos_bound (z + 719468) 146097 ltac:(lia)).
    pose proof (Z.div_mod (z + 719468) 146097 ltac:(lia)). lia. }
  assert (Ez : z = (doe - 719468) + 146097 * k) by (unfold doe; ring).
  rewrite Ez, civil_from_days_shift. pose proof (civil_from_days_era0 doe Hd) as H.
  destruct (civil_from_days (doe - 719468)) as [[y m] d].
  rewrite days_from_civil_shift, days_in_month_shift. lia.
Qed.

(** C19: the text sqlite3 stores for [processed_at] determines the
    instant: for every instant [datetime] represents (years 1 to 9999),
    an independent reader of the format
    ["%04d-%02d-%02d %02d:%02d:%02d[.%06d]+00:00"], which also checks
    that the date and the time of day are valid, reads back exactly the
    instant, to the microsecond. *)
Theorem isoformat_roundtrip t :
  min_instant <= t < max_instant -> parse_iso (isoformat_utc t) = Some t.
Proof.
  intros Ht. unfold isoformat_utc.
  set (days := t / us_per_day). set (rem := t mod us_per_day).
  assert (Hrem : 0 <= rem < us_per_day) by (apply Z.mod_pos_bound; reflexivity).
  assert (Et : t = days * us_per_day + rem) by (unfold days, rem; rewrite Z.mul_comm; apply Z.div_mod; discriminate).
  assert (Hdays : days_from_civil 1 1 1 <= days < days_from_civil 10000 1 1).
  { unfold min_instant, max_instant in Ht. rewrite Et in Ht.
    change (days_from_civil 1 1 1) with (-719162) in *. change (days_from_civil 10000 1 1) with 2932897 in *.
    unfold us_per_day in *. lia. }
  clearbody days rem.
  pose proof (civil_from_days_correct days) as Hc.
  destruct (civil_from_days days) as [[y m] d]. destruct Hc as (Hdfc & Hm & Hd).
  pose proof (days_in_month_le y m).
  pose proof (year_in_range y m d Hm ltac:(lia) ltac:(rewrite Hdfc; exact Hdays)) as Hy.
  unfold us_per_day in Hrem.
  assert (Hs : 0 <= rem / 1000000 < 86400) by (Z.to_euclidean_division_equations; lia).
  assert (Hus : 0 <= rem mod 1000000 < 1000000) by (apply Z.mod_pos_bound; lia).
  assert (Hf : iso_fields_ok y m d (rem / 1000000 / 3600) ((rem / 1000000 / 60) mod 60)
                 ((rem / 1000000) mod 60) = true).
  { unfold iso_fields_ok. rewrite !Bool.andb_true_iff, !Z.leb_le, !Z.ltb_lt.
    Z.to_euclidean_division_equations; lia. }
  unfold parse_iso.
  repeat (rewrite read_pad by (cbn; Z.to_euclidean_division_equations; lia);
          cbn [obind expect String.append Ascii.eqb Bool.eqb]).
  destruct (Z.eqb_spec (rem mod 1000000) 0) as [E0|E0]; cbn [String.append];
    [|rewrite read_pad by (cbn; lia)]; cbn [obind]; rewrite Hf; cbn; f_equal;
    unfold instant_of; rewrite Hdfc, Et; unfold us_per_day; Z.to_euclidean_division_equations; lia.
Qed.

Lemma isoformat_roundtrip_witness :
  min_instant <= 1700000000000001 < max_instant /\
  parse_iso (isoformat_utc 1700000000000001) = Some 1700000000000001.
Proof.
  assert (H : min_instant <= 1700000000000001 < max_instant) by (split; vm_compute; congruence).
  split; [exact H | exact (isoformat_roundtrip _ H)].
Defined.

End Datetime.
