(* ===== verification/Store.v ===== *)
(** * Persistent state: SQLite databases and the file system

    The program touches two files: the CSV file it writes and reads back,
    and the SQLite database file it recreates and fills.  A file-system
    node is a text file (its decoded contents), an SQLite database (its
    tables), or a directory.  A database is a list of tables by name; a
    table keeps its declared columns (name, declared type, NOT NULL) and
    its rows in insertion order.  A stored value has one of SQLite's
    storage classes NULL, INTEGER (64-bit), REAL and TEXT; a value bound
    to a statement parameter ([param]) is NULL, INTEGER or TEXT, the
    classes Python's [sqlite3] adapters produce for the program's
    values.  A REAL is kept as the exact decimal [m * 10^e] of the
    literal it was read from (see [Affinity]). *)

From Stdlib Require Import List String ZArith.
From S2P Require Import Prelude.
Import ListNotations.

Module Store.

Inductive sqlval : Type :=
| SNull
| SInt (z : Z)
| SReal (m e : Z)
| SText (s : string).

(** The range of an INTEGER. *)
Definition int64_min : Z := (- 2 ^ 63)%Z.
Definition int64_max : Z := (2 ^ 63 - 1)%Z.

(** A bound parameter, before the column's affinity is applied. *)
Inductive param : Type :=
| PNull
| PInt (z : Z)
| PText (s : string).

Record column : Type := mkColumn { col_name : string; col_type : string; col_notnull : bool }.

Record table : Type := mkTable { tbl_cols : list column; tbl_rows : list (list sqlval) }.

Definition database : Type := list (string * table).

Inductive node : Type :=
| NText (contents : string)
| NDb (db : database)
| NDir.

Definition fs : Type := list (string * node).

Fixpoint assoc_find {A} (l : list (string * A)) (k : string) : option A :=
  match l with
  | [] => None
  | (k', a) :: r => if String.eqb k k' then Some a else assoc_find r k
  end.

Fixpoint assoc_remove {A} (l : list (string * A)) (k : string) : list (string * A) :=
  match l with
  | [] => []
  | (k', a) :: r => if String.eqb k k' then assoc_remove r k else (k', a) :: assoc_remove r k
  end.

(** Replace the entry of [k] (or add one). *)
Definition assoc_set {A} (l : list (string * A)) (k : string) (a : A) : list (string * A) :=
  (k, a) :: assoc_remove l k.

Definition fs_lookup (f : fs) (p : string) : option node := assoc_find f p.
Definition fs_write (f : fs) (p : string) (n : node) : fs := assoc_set f p n.
Definition fs_unlink (f : fs) (p : string) : fs := assoc_remove f p.

Definition db_table (db : database) (t : string) : option table := assoc_find db t.

Lemma assoc_find_remove_eq {A} (l : list (string * A)) k : assoc_find (assoc_remove l k) k = None.
Proof.
  induction l as [|[k' a] l IH]; simpl; [reflexivity|].
  destruct (String.eqb k k') eqn:E; simpl; [exact IH|]. rewrite E. exact IH.
Qed.

Lemma assoc_find_remove_ne {A} (l : list (string * A)) k k' :
  k <> k' -> assoc_find (assoc_remove l k) k' = assoc_find l k'.
Proof.
  intros Hne. induction l as [|[k0 a] l IH]; simpl; [reflexivity|].
  destruct (String.eqb k k0) eqn:E; simpl.
  - apply String.eqb_eq in E as <-. rewrite (proj2 (String.eqb_neq k' k)) by congruence. exact IH.
  - rewrite IH. reflexivity.
Qed.

Lemma assoc_find_set_eq {A} (l : list (string * A)) k a : assoc_find (assoc_set l k a) k = Some a.
Proof. simpl. rewrite String.eqb_refl. reflexivity. Qed.

Lemma assoc_find_set_ne {A} (l : list (string * A)) k k' a :
  k <> k' -> assoc_find (assoc_set l k a) k' = assoc_find l k'.
Proof.
  intros Hne. simpl. rewrite (proj2 (String.eqb_neq k' k)) by congruence.
  apply assoc_find_remove_ne, Hne.
Qed.

(** Every entry of an association list satisfies [p]: kept by removing
    and setting entries, and read back by a lookup. *)
Section AssocAll.
Context {A : Type} (p : A -> bool).

Definition assoc_all (l : list (string * A)) : bool := forallb (fun ka => p (snd ka)) l.

Lemma assoc_all_remove l k : assoc_all l = true -> assoc_all (assoc_remove l k) = true.
Proof.
  unfold assoc_all. induction l as [|[k' a] l IH]; simpl; [auto|].
  rewrite Bool.andb_true_iff. intros [Ha Hl]. destruct (String.eqb k k'); simpl; [auto|].
  rewrite Ha. auto.
Qed.

Lemma assoc_all_set l k a :
  assoc_all l = true -> p a = true -> assoc_all (assoc_set l k a) = true.
Proof. intros Hl Ha. unfold assoc_set, assoc_all. simpl. rewrite Ha. apply assoc_all_remove, Hl. Qed.

Lemma assoc_all_find l k a : assoc_all l = true -> assoc_find l k = Some a -> p a = true.
Proof.
  unfold assoc_all. induction l as [|[k' a'] l IH]; simpl; [discriminate|].
  rewrite Bool.andb_true_iff. intros [Ha Hl]. destruct (String.eqb k k'); [intros [= <-]; exact Ha | auto].
Qed.
End AssocAll.

End Store.
