(* ===== verification/Affinity.v ===== *)
(** * SQLite column affinity: what a column stores of a bound value

    The [users] table declares [id INT] and the other columns [TEXT]
    (src/pipeline.py, lines 59-63).  SQLite gives each column an
    affinity from its declared type ([sqlite3AffinityType]: a scan of
    the type name for the substrings INT, CHAR, CLOB, TEXT, BLOB, REAL,
    FLOA, DOUB) and applies it to every value stored in the column
    ([applyAffinity] in vdbe.c):
    - TEXT affinity turns an INTEGER into its decimal text;
    - INTEGER and NUMERIC affinity turn a TEXT that reads as a number
      ([sqlite3AtoF]: white space, a sign, digits, a fraction, an
      exponent, white space) into an INTEGER when the number is an
      integer ([alsoAnInt], [sqlite3VdbeIntegerAffinity]), into a REAL
      otherwise; any other text is kept;
    - REAL affinity stores a number as a REAL; BLOB affinity keeps the
      value.
    A REAL is kept as the exact decimal value of its literal, normalized
    ([SReal m e] with [m] not a multiple of 10); SQLite keeps the nearest
    double, which is not modelled: the two agree on whether a literal is
    an integer except for literals whose value needs more than 53 bits
    of precision or lies outside the double range.

    The scan of the declared type is proved to implement the rules of
    the SQLite documentation ([affinity_rule]), which test whether the
    type contains each word anywhere.  A NUL character, where the C loop
    stops, does not occur in the program's declared types. *)

From Stdlib Require Import List String Ascii Bool ZArith Lia.
From S2P Require Import Prelude PyStr Store.
Import ListNotations.
Local Open Scope etl_scope.

Module Affinity.
Import Store.

Inductive affinity : Type := ABlob | AText | ANumeric | AInteger | AReal.

(** ** The affinity of a declared type ([sqlite3AffinityType]) *)

(** [sqlite3UpperToLower]: ASCII letters only. *)
Definition ascii_lower (c : ascii) : ascii :=
  if PyStr.in_range 65 90 (PyStr.ord c) then ascii_of_nat (PyStr.ord c + 32) else c.

(** The last four characters read, lower-cased: the 32-bit rolling
    hash [h] of the C code. *)
Definition window (w : string) (c : ascii) : string :=
  let w1 := (w ++ String (ascii_lower c) EmptyString)%string in
  if 4 <? String.length w1 then substring 1 4 w1 else w1.

Definition ends_int (w : string) : bool :=
  String.eqb (substring (String.length w - 3) 3 w) "int".

(** One iteration of the loop: the new affinity, or [None] at the
    [break] after INT. *)
Definition aff_next (w : string) (aff : affinity) : option affinity :=
  if String.eqb w "char" || String.eqb w "clob" || String.eqb w "text" then Some AText
  else if String.eqb w "blob" && match aff with ANumeric | AReal => true | _ => false end then
    Some ABlob
  else if (String.eqb w "real" || String.eqb w "floa" || String.eqb w "doub") &&
          match aff with ANumeric => true | _ => false end then Some AReal
  else if ends_int w then None
  else Some aff.

Fixpoint aff_scan (w : string) (aff : affinity) (s : string) : affinity :=
  match s with
  | EmptyString => aff
  | String c r =>
      let w' := window w c in
      match aff_next w' aff with
      | None => AInteger
      | Some a => aff_scan w' a r
      end
  end.

(** A column without a declared type has BLOB affinity. *)
Definition affinity_of (decl : string) : affinity :=
  match decl with
  | EmptyString => ABlob
  | _ => aff_scan EmptyString ANumeric decl
  end.

(** ** The rules of the SQLite documentation

    Section 3.1 of "Datatypes In SQLite": the affinity of a declared
    type is INTEGER when it contains "INT", else TEXT when it contains
    "CHAR", "CLOB" or "TEXT", else BLOB when it contains "BLOB" or is
    empty, else REAL when it contains "REAL", "FLOA" or "DOUB", else
    NUMERIC; the test ignores the case of ASCII letters. *)
Fixpoint lprefix (p l : list ascii) : bool :=
  match p, l with
  | [], _ => true
  | x :: p', y :: l' => Ascii.eqb x y && lprefix p' l'
  | _ :: _, [] => false
  end.

Fixpoint contains (p l : list ascii) : bool :=
  match l with
  | [] => match p with [] => true | _ => false end
  | _ :: l' => lprefix p l || contains p l'
  end.

Definition has (w : string) (l : list ascii) : bool := contains (list_ascii_of_string w) l.

Definition rule_noint (l : list ascii) : affinity :=
  if has "char" l || has "clob" l || has "text" l then AText
  else if has "blob" l then ABlob
  else if has "real" l || has "floa" l || has "doub" l then AReal
  else ANumeric.

Definition affinity_rule (decl : string) : affinity :=
  let l := map ascii_lower (list_ascii_of_string decl) in
  if has "int" l then AInteger
  else if String.eqb decl "" then ABlob
  else rule_noint l.

(** What the scan computes over the lower-cased characters [l]. *)
Definition scan_spec (l : list ascii) : affinity := if has "int" l then AInteger else rule_noint l.

(** The window of the scan after the lower-cased characters [R], last
    read first. *)
Definition win (R : list ascii) : string := string_of_list_ascii (rev (firstn 4 R)).

(** ** Numbers in text ([sqlite3AtoF]) *)

Definition sql_space (c : ascii) : bool :=
  let n := PyStr.ord c in (n =? 32) || PyStr.in_range 9 13 n.

Fixpoint skip_spaces (s : string) : string :=
  match s with
  | String c r => if sql_space c then skip_spaces r else s
  | EmptyString => EmptyString
  end.

(** An optional sign: [true] for a minus. *)
Definition sign (s : string) : bool * string :=
  match s with
  | String c r =>
      if Ascii.eqb c "-"%char then (true, r)
      else if Ascii.eqb c "+"%char then (false, r) else (false, s)
  | EmptyString => (false, s)
  end.

(** The longest run of decimal digits. *)
Fixpoint digit_run (s : string) : list nat * string :=
  match s with
  | String c r =>
      match PyStr.digit_value c with
      | Some d => let '(ds, t) := digit_run r in (d :: ds, t)
      | None => ([], s)
      end
  | EmptyString => ([], EmptyString)
  end.

Definition signed (neg : bool) (z : Z) : Z := if neg then (- z)%Z else z.

(** A numeric literal: a pure integer, or a number with a fraction or
    an exponent, as the decimal [m * 10^e]. *)
Inductive numlit : Type :=
| LInt (z : Z)
| LReal (m e : Z).

(** The exponent part: [None] when it is malformed ([e] without digits),
    [Some (None, s)] when there is none. *)
Definition exponent (s : string) : option (option Z * string) :=
  match s with
  | String c r =>
      if Ascii.eqb c "e"%char || Ascii.eqb c "E"%char then
        let '(neg, r1) := sign r in
        match digit_run r1 with
        | ([], _) => None
        | (es, r2) => Some (Some (signed neg (PyStr.digits_value 0 es)), r2)
        end
      else Some (None, s)
  | EmptyString => Some (None, s)
  end.

(** The number after the sign: digits, an optional fraction and
    exponent, trailing white space, at least one digit in the mantissa. *)
Definition atof_num (neg : bool) (s2 : string) : option numlit :=
  let '(ds, s3) := digit_run s2 in
  let '(frac, s4) :=
    match s3 with
    | String c r =>
        if Ascii.eqb c "."%char then let '(fs, t) := digit_run r in (Some fs, t) else (None, s3)
    | EmptyString => (None, s3)
    end in
  let fs := match frac with Some fs => fs | None => [] end in
  match exponent s4 with
  | None => None
  | Some (e, s5) =>
      if negb (PyStr.all_chars sql_space s5) then None
      else if Nat.eqb (List.length ds + List.length fs) 0 then None
      else
        let m := signed neg (PyStr.digits_value 0 (ds ++ fs)) in
        match frac, e with
        | None, None => Some (LInt m)
        | _, _ => Some (LReal m (match e with Some x => x | None => 0 end - Z.of_nat (List.length fs)))
        end
  end.

(** [sqlite3AtoF(z)] read as "is [z] a number, and which": leading
    white space, a sign, then the number. *)
Definition atof (s : string) : option numlit :=
  let '(neg, s2) := sign (skip_spaces s) in atof_num neg s2.

(** ** Applying the affinity *)

(** [m * 10^e] with the trailing zeros of [m] moved to the exponent. *)
Fixpoint normalize (fuel : nat) (m e : Z) : Z * Z :=
  match fuel with
  | O => (m, e)
  | S f =>
      if (m =? 0)%Z then (0%Z, 0%Z)
      else if (m mod 10 =? 0)%Z then normalize f (m / 10) (e + 1)
      else (m, e)
  end.

Definition norm (m e : Z) : Z * Z := normalize (List.length (PyStr.decimal_digits m)) m e.

(** A REAL under INTEGER or NUMERIC affinity
    ([sqlite3VdbeIntegerAffinity]): an integer strictly inside the
    64-bit range becomes an INTEGER. *)
Definition real_value (m e : Z) : sqlval :=
  let '(m', e') := norm m e in
  if (0 <=? e')%Z then
    let v := (m' * 10 ^ e')%Z in
    if (int64_min <? v)%Z && (v <? int64_max)%Z then SInt v else SReal m' e'
  else SReal m' e'.

(** [applyNumericAffinity(pRec, 1)] on a TEXT value. *)
Definition numeric_text (s : string) : sqlval :=
  match atof s with
  | None => SText s
  | Some (LInt z) =>
      if (int64_min <=? z)%Z && (z <=? int64_max)%Z then SInt z else real_value z 0
  | Some (LReal m e) => real_value m e
  end.

(** The decimal text of an INTEGER ([sqlite3VdbeMemStringify], "%lld"). *)
Definition int_text (z : Z) : string :=
  ((if (z <? 0)%Z then "-" else "") ++ PyStr.digits_string (PyStr.decimal_digits z))%string.

(** The value a column of affinity [a] stores for a bound parameter. *)
Definition apply_affinity (a : affinity) (p : param) : sqlval :=
  match a, p with
  | _, PNull => SNull
  | AText, PInt z => SText (int_text z)
  | AText, PText s => SText s
  | ABlob, PInt z => SInt z
  | ABlob, PText s => SText s
  | (ANumeric | AInteger), PInt z => SInt z
  | (ANumeric | AInteger), PText s => numeric_text s
  | AReal, PInt z => let '(m, e) := norm z 0 in SReal m e
  | AReal, PText s =>
      match numeric_text s with
      | SInt z => let '(m, e) := norm z 0 in SReal m e
      | v => v
      end
  end.

(** The value column [c] stores. *)
Definition column_value (c : column) (p : param) : sqlval :=
  apply_affinity (affinity_of (col_type c)) p.

(** ** Lemmas *)

(** ** The scan implements the rules *)

Lemma lprefix_spec p l : lprefix p l = true <-> exists b, l = p ++ b.
Proof.
  revert l. induction p as [|x p IH]; intros [|y l]; cbn.
  - split; eauto.
  - split; eauto.
  - split; [discriminate | intros [b Hb]; discriminate].
  - rewrite andb_true_iff, Ascii.eqb_eq, IH. split.
    + intros [-> [b ->]]. eauto.
    + intros [b Hb]. injection Hb as -> ->. eauto.
Qed.

Lemma contains_spec p l : contains p l = true <-> exists a b, l = a ++ p ++ b.
Proof.
  induction l as [|y l IH]; cbn.
  - destruct p as [|x p]; split.
    + intros _. exists [], []. reflexivity.
    + reflexivity.
    + discriminate.
    + intros ([|a0 a] & b & H); discriminate.
  - rewrite orb_true_iff, IH, lprefix_spec. split.
    + intros [[b Hb] | (a & b & ->)]; [exists [], b; exact Hb | exists (y :: a), b; reflexivity].
    + intros ([|a0 a] & b & H); [left; exists b; exact H|].
      injection H as -> ->. right. eauto.
Qed.

Lemma contains_rev p l : contains p (rev l) = contains (rev p) l.
Proof.
  apply Bool.eq_iff_eq_true. rewrite !contains_spec. split; intros (a & b & H).
  - exists (rev b), (rev a). rewrite <- (rev_involutive l), H, !rev_app_distr, app_assoc. reflexivity.
  - exists (rev b), (rev a). rewrite H, !rev_app_distr, rev_involutive, app_assoc. reflexivity.
Qed.

Lemma contains_app_l p l m : contains p l = true -> contains p (l ++ m) = true.
Proof.
  rewrite !contains_spec. intros (a & b & ->). exists a, (b ++ m). rewrite <- !app_assoc. reflexivity.
Qed.

Lemma window_win R c : window (win R) c = win (ascii_lower c :: R).
Proof. destruct R as [|x1 [|x2 [|x3 [|x4 R]]]]; reflexivity. Qed.

Lemma ends_int_win R : ends_int (win R) = String.eqb (string_of_list_ascii (rev (firstn 3 R))) "int".
Proof. destruct R as [|x1 [|x2 [|x3 [|x4 R]]]]; reflexivity. Qed.

Lemma length_list_ascii s : List.length (list_ascii_of_string s) = String.length s.
Proof. induction s as [|c s IH]; cbn; [reflexivity | rewrite IH; reflexivity]. Qed.

Lemma eqb_firstn n R w :
  String.length w = n ->
  String.eqb (string_of_list_ascii (rev (firstn n R))) w = lprefix (rev (list_ascii_of_string w)) R.
Proof.
  intros Hn. apply Bool.eq_iff_eq_true. rewrite String.eqb_eq, lprefix_spec. split.
  - intros <-. rewrite list_ascii_of_string_of_list_ascii, rev_involutive.
    exists (skipn n R). symmetry. apply firstn_skipn.
  - intros [b ->]. rewrite firstn_app, length_rev, length_list_ascii, Hn, Nat.sub_diag, firstn_O, app_nil_r.
    rewrite <- Hn, <- length_list_ascii, <- length_rev, firstn_all, rev_involutive.
    apply string_of_list_ascii_of_string.
Qed.

Lemma has_step w c R :
  has w (rev (c :: R)) = lprefix (rev (list_ascii_of_string w)) (c :: R) || has w (rev R).
Proof. unfold has. rewrite !contains_rev. reflexivity. Qed.

Lemma has_step4 w c R :
  String.length w = 4 -> has w (rev (c :: R)) = String.eqb (win (c :: R)) w || has w (rev R).
Proof. intros H. rewrite has_step. unfold win. rewrite (eqb_firstn 4) by exact H. reflexivity. Qed.

Lemma has_step_int c R : has "int" (rev (c :: R)) = ends_int (win (c :: R)) || has "int" (rev R).
Proof. rewrite has_step, ends_int_win, (eqb_firstn 3) by reflexivity. reflexivity. Qed.

(** The case of a window [W] equal to the word [w]. *)
Ltac word_case W w :=
  let E := fresh "E" in
  destruct (String.eqb W w) eqn:E; [apply String.eqb_eq in E; subst W; first [solve [cbn; auto] | destruct_bools; cbn; auto]|].

Lemma aff_next_spec c R aff :
  has "int" (rev R) = false -> aff = rule_noint (rev R) ->
  match aff_next (win (ascii_lower c :: R)) aff with
  | None => has "int" (rev (ascii_lower c :: R)) = true
  | Some a => has "int" (rev (ascii_lower c :: R)) = false /\ a = rule_noint (rev (ascii_lower c :: R))
  end.
Proof.
  intros Hi ->. unfold rule_noint. rewrite has_step_int, !has_step4 by reflexivity. rewrite Hi.
  generalize (win (ascii_lower c :: R)) as W. intros W.
  generalize (has "char" (rev R)) (has "clob" (rev R)) (has "text" (rev R)) (has "blob" (rev R))
    (has "real" (rev R)) (has "floa" (rev R)) (has "doub" (rev R)).
  intros hc hl ht hb hr hf hd.
  word_case W "char"%string. word_case W "clob"%string. word_case W "text"%string. word_case W "blob"%string.
  word_case W "real"%string. word_case W "floa"%string. word_case W "doub"%string.
  unfold aff_next. repeat match goal with H : String.eqb W _ = false |- _ => rewrite H; clear H end.
  destruct (ends_int W); cbn; auto.
Qed.

Lemma aff_scan_spec s : forall R aff,
  has "int" (rev R) = false -> aff = rule_noint (rev R) ->
  aff_scan (win R) aff s = scan_spec (rev R ++ map ascii_lower (list_ascii_of_string s)).
Proof.
  induction s as [|c r IH]; intros R aff Hi Ha.
  - cbn. rewrite app_nil_r. unfold scan_spec. rewrite Hi. exact Ha.
  - cbn [aff_scan]. rewrite window_win.
    replace (rev R ++ map ascii_lower (list_ascii_of_string (String c r)))
      with (rev (ascii_lower c :: R) ++ map ascii_lower (list_ascii_of_string r))
      by (cbn; rewrite <- app_assoc; reflexivity).
    pose proof (aff_next_spec c R aff Hi Ha) as H.
    destruct (aff_next _ aff) as [a|].
    + destruct H as [Hi' Ha']. apply IH; assumption.
    + unfold scan_spec, has in *. rewrite contains_app_l by exact H. reflexivity.
Qed.

(** C20: the scan of [sqlite3AffinityType] -- a rolling window of the
    last four characters read, with its early [break] at INT and the
    order of its tests -- gives every declared type the affinity the
    rules of the SQLite documentation give it: INTEGER when the type
    contains INT, else TEXT for CHAR, CLOB or TEXT, else BLOB for BLOB
    or an empty type, else REAL for REAL, FLOA or DOUB, else NUMERIC,
    with ASCII case ignored. *)
Theorem affinity_of_rule decl : affinity_of decl = affinity_rule decl.
Proof.
  destruct decl as [|c r]; [reflexivity|].
  transitivity (scan_spec ([] ++ map ascii_lower (list_ascii_of_string (String c r)))).
  - exact (aff_scan_spec (String c r) [] ANumeric eq_refl eq_refl).
  - reflexivity.
Qed.

End Affinity.
