(* ===== verification/Runtime.v ===== *)
(** * The runtime the program runs in: world, console, clock, generators

    Every effectful function of [src/pipeline.py] is a computation of
    [PyM := M world exn]: it reads and writes the file system, appends
    the lines it [print]s to the console, and reads the UTC wall clock
    ([datetime.now(tz=pytz.timezone("UTC"))]).  The clock is a function
    [w_clock] from the number of earlier reads to the time read, so that
    each call returns its own instant, as the real clock does.

    The three pipeline stages are Python generators.  The class
    [Generator] is the iterator protocol the stages rely on: [gen_next g]
    runs the generator [g] up to its next [yield] ([Some (a, g')], with
    the suspended generator [g']), to its end ([None], StopIteration), or
    raises.  [transform_users] and [load_data] are written against this
    interface, so their theorems hold for any upstream generator;
    [GeneratorBound] adds the measure that makes a consuming [for] loop
    terminate.

    The file also holds the reasoning tools the stages share: traces of
    a generator's run ([yields]), computations whose effects do not
    depend on the console ([local]) and the existence of a trace for a
    local bounded generator. *)

From Stdlib Require Import List String ZArith Lia.
From S2P Require Import Prelude PyStr PyObj Store.
Import ListNotations.
Local Open Scope etl_scope.

Module Runtime.
Import PyObj Store.

(** The lines the program prints, by the [print] call that prints them. *)
Inductive msg : Type :=
| MsgRecordsWritten (size : nat) (path : string) (** generate_csv: "{size} records written to a file {path}." *)
| MsgSqliteError (e : exn)     (** init_db: "SQLite error: {e}" *)
| MsgUnexpected (e : exn)      (** init_db, load_data: "An unexpected error occurred: {e}." *)
| MsgTableCreated              (** init_db: "Table created successfull." *)
| MsgEStart                    (** "E: start extract" *)
| MsgERow (i : nat)            (** "E: extract row #{i}" *)
| MsgEFinished                 (** "E: extract finished." *)
| MsgTStart                    (** "T: start transform" *)
| MsgTRow (i : nat)            (** "T: transform row #{i}" *)
| MsgTFinished                 (** "T: transform finished." *)
| MsgLStart                    (** "L: start load" *)
| MsgLInsert (row : dict)      (** "L: insert row {row}" *)
| MsgLFinished                 (** "L: load finished." *)
| MsgDatabaseError (e : exn).  (** load_data: "Database error: {e}" *)

Record world : Type := mkWorld {
  w_fs : fs;              (** the file system *)
  w_out : list msg;       (** the console, oldest line first *)
  w_tick : nat;           (** how many times the clock has been read *)
  w_clock : nat -> Z      (** the instant the n-th clock read returns (UTC, microseconds) *)
}.

Definition PyM (A : Type) : Type := M world exn A.

(** [print(m)] *)
Definition print (m : msg) : PyM unit :=
  modify (fun w => mkWorld (w_fs w) (w_out w ++ [m]) (w_tick w) (w_clock w)).

(** The world after one more clock read. *)
Definition clock_read (w : world) : world :=
  mkWorld (w_fs w) (w_out w) (S (w_tick w)) (w_clock w).

(** [datetime.now(tz=pytz.timezone("UTC"))] *)
Definition now_utc : PyM Z := fun w => (Ok (w_clock w (w_tick w)), clock_read w).

Definition read_fs : PyM fs := fun w => (Ok (w_fs w), w).

Definition write_fs (f : fs) : PyM unit :=
  modify (fun w => mkWorld f (w_out w) (w_tick w) (w_clock w)).

(** ** The iterator protocol *)

Class Generator (G A : Type) := gen_next : G -> PyM (option (A * G)).

(** A generator whose [next] leaves the file system alone, never runs out
    of fuel, and decreases a measure (which may depend on the file system,
    where the generator has not opened its file yet) at each [yield]. *)
Class GeneratorBound (G A : Type) `{Generator G A} := {
  gen_measure : G -> fs -> nat;
  gen_next_fs : forall g w r w', gen_next g w = (r, w') -> w_fs w' = w_fs w;
  gen_next_no_fuel : forall g w w', gen_next g w <> (OutOfFuel, w');
  gen_next_decr : forall g w a g' w',
      gen_next g w = (Ok (Some (a, g')), w') -> gen_measure g' (w_fs w') < gen_measure g (w_fs w)
}.

(** A generator over a list held in memory: what [iter(l)] gives for a
    list [l].  It stands for an upstream generator whose rows are known,
    in the theorems about the stages that consume one. *)
Inductive list_gen (A : Type) : Type := ListGen (items : list A).
Arguments ListGen {A} items.

#[export] Instance list_gen_next {A} : Generator (list_gen A) A :=
  fun g => match g with
           | ListGen [] => ret None
           | ListGen (a :: r) => ret (Some (a, ListGen r))
           end.

Definition list_gen_measure {A} (g : list_gen A) (_ : fs) : nat :=
  match g with ListGen l => List.length l end.

#[export] Instance list_gen_bound {A} : GeneratorBound (list_gen A) A.
Proof.
  refine {| gen_measure := list_gen_measure |}.
  - intros [[|a l]] w r w' H; injection H; intros; subst; reflexivity.
  - intros [[|a l]] w w' H; discriminate.
  - intros [[|a l]] w a' g' w' H; [discriminate|]. injection H; intros; subst. simpl. lia.
Defined.

(** [list(g)]: run a generator to exhaustion, collecting what it yields
    (a device for stating what a generator produces). *)
Fixpoint drain {G A} `{Generator G A} (fuel : nat) (g : G) : PyM (list A) :=
  match fuel with
  | 0 => out_of_fuel
  | S f =>
      r <- gen_next g ;;
      match r with
      | None => ret []
      | Some (a, g') => l <- drain f g' ;; ret (a :: l)
      end
  end.

(** ** Effects a computation does not have *)

(** [m] leaves the file system as it found it. *)
Definition fs_pres {A} (m : PyM A) : Prop := forall w r w', m w = (r, w') -> w_fs w' = w_fs w.

(** [m] never runs out of fuel. *)
Definition fuel_free {A} (m : PyM A) : Prop := forall w w', m w <> (OutOfFuel, w').

Section Pres.
Context {A B : Type}.

Lemma fs_pres_bind (m : PyM A) (k : A -> PyM B) :
  fs_pres m -> (forall a, fs_pres (k a)) -> fs_pres (bind m k).
Proof.
  intros Hm Hk w r w'. unfold bind.
  destruct (m w) as [[a|e|] w1] eqn:E; intros H; apply Hm in E.
  - rewrite <- E. apply (Hk a w1 r w' H).
  - injection H; intros; subst; exact E.
  - injection H; intros; subst; exact E.
Qed.

Lemma fuel_free_bind (m : PyM A) (k : A -> PyM B) :
  fuel_free m -> (forall a, fuel_free (k a)) -> fuel_free (bind m k).
Proof.
  intros Hm Hk w w'. unfold bind.
  destruct (m w) as [[a|e|] w1] eqn:E; [apply Hk|discriminate|]. apply Hm in E as [].
Qed.

Lemma fs_pres_ret (a : A) : fs_pres (ret a).
Proof. intros w r w' H. injection H; intros; subst; reflexivity. Qed.

Lemma fuel_free_ret (a : A) : fuel_free (ret a).
Proof. intros w w'. discriminate. Qed.

Lemma fs_pres_raise e : fs_pres (@raise world exn A e).
Proof. intros w r w' H. injection H; intros; subst; reflexivity. Qed.

Lemma fuel_free_raise e : fuel_free (@raise world exn A e).
Proof. intros w w'. discriminate. Qed.

Lemma fs_pres_lift (r : res exn A) : fs_pres (lift r).
Proof. intros w r' w' H. destruct r; injection H; intros; subst; reflexivity. Qed.

Lemma fuel_free_lift (r : res exn A) : fuel_free (lift r).
Proof. intros w w'. destruct r; discriminate. Qed.
End Pres.

Lemma fs_pres_print m : fs_pres (print m).
Proof. intros w r w' H. injection H; intros; subst; reflexivity. Qed.

Lemma fuel_free_print m : fuel_free (print m).
Proof. intros w w'. discriminate. Qed.

Lemma fs_pres_now : fs_pres now_utc.
Proof. intros w r w' H. injection H; intros; subst; reflexivity. Qed.

Lemma fuel_free_now : fuel_free now_utc.
Proof. intros w w'. discriminate. Qed.

#[export] Hint Resolve fs_pres_ret fs_pres_raise fs_pres_lift fs_pres_print fs_pres_now
  fuel_free_ret fuel_free_raise fuel_free_lift fuel_free_print fuel_free_now : etl.

(** Decompose a computation along its binds and matches, and close the
    pieces with the primitive lemmas. *)
Ltac pres_auto :=
  repeat match goal with
  | |- fs_pres (bind _ _) => apply fs_pres_bind; [|intros ?]
  | |- fuel_free (bind _ _) => apply fuel_free_bind; [|intros ?]
  | |- fs_pres (match ?x with _ => _ end) => destruct x
  | |- fuel_free (match ?x with _ => _ end) => destruct x
  | |- fs_pres _ => solve [eauto with etl]
  | |- fuel_free _ => solve [eauto with etl]
  end.

(** ** Termination of a loop over a generator *)

Section Drain.
Context {G A : Type} `{GeneratorBound G A}.

(** With more fuel than the generator's measure, [list(g)] returns or
    raises: it never runs out of fuel. *)
Lemma drain_total fuel (g : G) w w' :
  gen_measure g (w_fs w) < fuel -> drain fuel g w <> (OutOfFuel, w').
Proof.
  revert g w w'. induction fuel as [|f IH]; intros g w w' Hf; [lia|].
  simpl. unfold bind.
  destruct (gen_next g w) as [[[[a g']|]|e|] w1] eqn:E.
  - pose proof (gen_next_decr _ _ _ _ _ E) as Hd.
    destruct (drain f g' w1) as [[l|e|] w2] eqn:E2; try discriminate.
    apply IH in E2 as []. lia.
  - discriminate.
  - discriminate.
  - apply gen_next_no_fuel in E as [].
Qed.
End Drain.

(** ** Traces of generators

    The stages are generators that print, read the clock and read the
    file system, but never write it; what one [next] does therefore
    depends on the file system, the clock and the number of clock reads
    so far, and it appends its lines to whatever the console holds.
    [steps] states this of one [next]; [yields] strings the steps of a
    whole run together: the items with the lines each step prints and
    the clock reads it makes, then the last step, which stops or
    raises.  A consumer that prints between the steps (the next stage)
    sees the same items. *)

Inductive gend : Type := GStop | GRaise (e : exn).

Definition steps {G A} `{Generator G A} (f : fs) (clock : nat -> Z) (g : G) (t : nat)
    (r : outcome exn (option (A * G))) (ms : list msg) (dt : nat) : Prop :=
  forall out, gen_next g (mkWorld f out t clock) = (r, mkWorld f (out ++ ms) (t + dt) clock).

(** The end of a run: the lines of the last step, how it ends, its
    clock reads. *)
Definition gfin : Type := (list msg * gend * nat)%type.

Inductive yields {G A} `{Generator G A} (f : fs) (clock : nat -> Z)
  : G -> nat -> list (A * list msg * nat) -> gfin -> Prop :=
| yields_stop g t ms dt :
    steps f clock g t (Ok None) ms dt -> yields f clock g t [] (ms, GStop, dt)
| yields_raise g t e ms dt :
    steps f clock g t (Exc e) ms dt -> yields f clock g t [] (ms, GRaise e, dt)
| yields_item g t x g' ms dt rest fin :
    steps f clock g t (Ok (Some (x, g'))) ms dt -> yields f clock g' (t + dt) rest fin ->
    yields f clock g t ((x, ms, dt) :: rest) fin.

(** The items of a trace. *)
Definition items {A} (tr : list (A * list msg * nat)) : list A := map (fun '(x, _, _) => x) tr.

(** A step that does not read the clock, whatever the clock and the
    reads so far. *)
Definition steps0 {G A} `{Generator G A} (f : fs) (g : G) (r : outcome exn (option (A * G)))
    (ms : list msg) : Prop :=
  forall clock t, steps f clock g t r ms 0.

(** The trace of a generator that never reads the clock. *)
Inductive yields0 {G A} `{Generator G A} (f : fs)
  : G -> list (A * list msg) -> list msg * gend -> Prop :=
| yields0_stop g ms : steps0 f g (Ok None) ms -> yields0 f g [] (ms, GStop)
| yields0_raise g e ms : steps0 f g (Exc e) ms -> yields0 f g [] (ms, GRaise e)
| yields0_item g x g' ms rest fin :
    steps0 f g (Ok (Some (x, g'))) ms -> yields0 f g' rest fin -> yields0 f g ((x, ms) :: rest) fin.

Definition timed {A} (tr : list (A * list msg)) : list (A * list msg * nat) :=
  map (fun '(x, ms) => (x, ms, 0)) tr.

Lemma yields0_yields {G A} `{Generator G A} f clock (g : G) t tr fin :
  yields0 f g tr fin -> yields f clock g t (timed tr) (fst fin, snd fin, 0).
Proof.
  intros Y. revert t. induction Y; intros t'.
  - apply yields_stop, H0.
  - apply yields_raise, H0.
  - eapply yields_item; [apply H0|]. rewrite Nat.add_0_r. apply IHY.
Qed.

(** A list generator yields its elements, printing nothing. *)
Lemma yields0_list {A} f (l : list A) :
  yields0 f (ListGen l) (map (fun x => (x, [])) l) ([], GStop).
Proof.
  induction l as [|x l IH].
  - apply yields0_stop. intros clock t out. rewrite app_nil_r, Nat.add_0_r. reflexivity.
  - eapply yields0_item; [|exact IH].
    intros clock t out. rewrite app_nil_r, Nat.add_0_r. reflexivity.
Qed.

(** The trace of a generator whose first step prints [m] and then does
    what [g2] does. *)
Definition prepend_first {A} (m : msg) (p : list (A * list msg * nat) * gfin)
  : list (A * list msg * nat) * gfin :=
  match p with
  | ([], (ms, e, dt)) => ([], (m :: ms, e, dt))
  | ((x, ms, dt) :: r, fin) => ((x, m :: ms, dt) :: r, fin)
  end.

Lemma yields_prepend {G A} `{Generator G A} f clock (g1 g2 : G) m t p :
  (forall out, gen_next g1 (mkWorld f out t clock) = gen_next g2 (mkWorld f (out ++ [m]) t clock)) ->
  yields f clock g2 t (fst p) (snd p) ->
  yields f clock g1 t (fst (prepend_first m p)) (snd (prepend_first m p)).
Proof.
  destruct p as [tr fin]. cbn [fst snd]. intros Hg Y.
  assert (Hs : forall r ms dt, steps f clock g2 t r ms dt -> steps f clock g1 t r (m :: ms) dt)
    by (intros r ms dt Hs out; rewrite Hg, Hs, <- app_assoc; reflexivity).
  inversion Y; subst; cbn [prepend_first fst snd].
  - apply yields_stop. auto.
  - apply yields_raise. auto.
  - eapply yields_item; [|eassumption]. auto.
Qed.

(** The same for a generator that does not read the clock. *)
Definition prepend0 {A} (m : msg) (p : list (A * list msg) * (list msg * gend))
  : list (A * list msg) * (list msg * gend) :=
  match p with
  | ([], (ms, e)) => ([], (m :: ms, e))
  | ((x, ms) :: r, fin) => ((x, m :: ms) :: r, fin)
  end.

Lemma yields0_prepend {G A} `{Generator G A} f (g1 g2 : G) m p :
  (forall clock t out,
     gen_next g1 (mkWorld f out t clock) = gen_next g2 (mkWorld f (out ++ [m]) t clock)) ->
  yields0 f g2 (fst p) (snd p) -> yields0 f g1 (fst (prepend0 m p)) (snd (prepend0 m p)).
Proof.
  destruct p as [tr fin]. cbn [fst snd]. intros Hg Y.
  assert (Hs : forall r ms, steps0 f g2 r ms -> steps0 f g1 r (m :: ms))
    by (intros r ms Hs clock t out; rewrite Hg, Hs, <- app_assoc; reflexivity).
  inversion Y; subst; cbn [prepend0 fst snd].
  - apply yields0_stop. auto.
  - apply yields0_raise. auto.
  - eapply yields0_item; [|eassumption]. auto.
Qed.

(** The world with lines appended to the console. *)
Definition w_app (w : world) (l : list msg) : world :=
  mkWorld (w_fs w) (w_out w ++ l) (w_tick w) (w_clock w).

Lemma w_app_app w l1 l2 : w_app (w_app w l1) l2 = w_app w (l1 ++ l2).
Proof. unfold w_app. simpl. rewrite app_assoc. reflexivity. Qed.

Lemma w_app_nil w : w_app w [] = w.
Proof. destruct w. unfold w_app. simpl. rewrite app_nil_r. reflexivity. Qed.

(** ** Lemmas on the primitives *)

Lemma print_run m w :
  print m w = (Ok tt, mkWorld (w_fs w) (w_out w ++ [m]) (w_tick w) (w_clock w)).
Proof. reflexivity. Qed.

Lemma print_app m w : print m w = (Ok tt, w_app w [m]).
Proof. reflexivity. Qed.


(** ** Computations whose effects do not depend on the console

    [local m]: from a file system [f], a clock and a count [t] of clock
    reads, [m] has one outcome, prints the same lines and reads the clock
    the same number of times whatever the console holds, and writes no
    file.  The stages are local; a local generator that decreases its
    measure has a trace ([yields_exists]). *)
Definition local {A} (m : PyM A) : Prop :=
  forall f clock t, exists r ms dt,
    forall out, m (mkWorld f out t clock) = (r, mkWorld f (out ++ ms) (t + dt) clock).

Section Local.
Context {A B : Type}.

Lemma local_ret (a : A) : local (ret a).
Proof. intros f clock t. exists (Ok a), [], 0. intros out. rewrite app_nil_r, Nat.add_0_r. reflexivity. Qed.

Lemma local_raise e : local (@raise world exn A e).
Proof. intros f clock t. exists (Exc e), [], 0. intros out. rewrite app_nil_r, Nat.add_0_r. reflexivity. Qed.

Lemma local_lift (r : res exn A) : local (lift r).
Proof.
  intros f clock t. exists (match r with Val a => Ok a | Err e => Exc e end), [], 0.
  intros out. rewrite app_nil_r, Nat.add_0_r. destruct r; reflexivity.
Qed.

Lemma local_bind (m : PyM A) (k : A -> PyM B) :
  local m -> (forall a, local (k a)) -> local (bind m k).
Proof.
  intros Hm Hk f clock t. destruct (Hm f clock t) as (r & ms & dt & E).
  destruct r as [a|e|].
  - destruct (Hk a f clock (t + dt)) as (r2 & ms2 & dt2 & E2).
    exists r2, (ms ++ ms2), (dt + dt2). intros out. unfold bind. rewrite E, E2, app_assoc, Nat.add_assoc.
    reflexivity.
  - exists (Exc e), ms, dt. intros out. unfold bind. rewrite E. reflexivity.
  - exists OutOfFuel, ms, dt. intros out. unfold bind. rewrite E. reflexivity.
Qed.
End Local.

Lemma local_print m : local (print m).
Proof. intros f clock t. exists (Ok tt), [m], 0. intros out. rewrite Nat.add_0_r. reflexivity. Qed.

Lemma local_now : local now_utc.
Proof. intros f clock t. exists (Ok (clock t)), [], 1. intros out. rewrite app_nil_r, Nat.add_1_r. reflexivity. Qed.

Lemma local_read_fs : local read_fs.
Proof. intros f clock t. exists (Ok f), [], 0. intros out. rewrite app_nil_r, Nat.add_0_r. reflexivity. Qed.

#[export] Hint Resolve local_ret local_raise local_lift local_print local_now local_read_fs : etl.

(** Decompose a computation along its binds and matches. *)
Ltac local_auto :=
  repeat match goal with
  | |- local (bind _ _) => apply local_bind; [|intros ?]
  | |- local (match ?x with _ => _ end) => destruct x
  | |- local _ => solve [eauto with etl]
  end.

Section Traces.
Context {G A : Type} `{GeneratorBound G A}.
Hypothesis next_local : forall g : G, local (gen_next g).

(** A local generator whose measure decreases has a trace, no longer
    than its measure. *)
Lemma yields_exists f clock n : forall (g : G) t, gen_measure g f <= n ->
  exists tr fin, yields f clock g t tr fin /\ List.length tr <= gen_measure g f.
Proof.
  induction n as [|n IH]; intros g t Hn;
    destruct (next_local g f clock t) as (r & ms & dt & E);
    destruct r as [[[x g']|]|e|];
    try (exists [], (ms, GStop, dt); split; [apply yields_stop; exact E | cbn; lia]);
    try (exists [], (ms, GRaise e, dt); split; [apply yields_raise; exact E | cbn; lia]);
    try (specialize (E []); apply gen_next_no_fuel in E as []);
    pose proof (gen_next_decr _ _ _ _ _ (E [])) as Hd; cbn [w_fs] in Hd; [lia|].
  destruct (IH g' (t + dt) ltac:(lia)) as (tr & fin & Y & Hl).
  exists ((x, ms, dt) :: tr), fin. split; [eapply yields_item; eassumption | cbn; lia].
Qed.
End Traces.

End Runtime.
