(* ===== verification/Transform.v ===== *)
(** * The transform stage: [transform_users] (src/pipeline.py, lines 93-105)

    [transform_fields] is lines 97-102 of the loop body, the steps that do
    not read the clock: [del row["password"]], [row["id"] = int(row["id"])],
    [row["email"] = row["email"].lower()] and the alphanumeric filter of
    [row["description"]], each a possible exception, in the source's order.
    [transform_row] adds line 103, the [processed_at] stamp read from the
    clock.  [transform_users] is the generator: a suspended generator is
    [TInit up] before its first [next] (the body has not started, nothing
    is printed) and [TIter i up] after it yielded row [i - 1]; [up] is the
    upstream generator, of any type with a [Generator] instance.

    Theorems: the functional behaviour of a row's transformation (each
    field, the key order, the clock read), its error cases, that no
    yielded row has a [password] key, and that the generator yields
    exactly one row per upstream row, in order, each stamped by its own
    clock read. *)

From Stdlib Require Import List String ZArith Lia.
From S2P Require Import Prelude PyStr PyObj Store Runtime.
Import ListNotations.
Local Open Scope etl_scope.

Module Transform.
Import PyObj Runtime.

Definition k_id : key := KStr "id".
Definition k_name : key := KStr "name".
Definition k_email : key := KStr "email".
Definition k_password : key := KStr "password".
Definition k_description : key := KStr "description".
Definition k_processed_at : key := KStr "processed_at".

(** Lines 97-102. *)
Definition transform_fields (row : dict) : res exn dict :=
  row <-? delitem row k_password ;;
  v <-? getitem row k_id ;;
  n <-? py_int v ;;
  let row := setitem row k_id (VInt n) in
  v <-? getitem row k_email ;;
  s <-? py_lower v ;;
  let row := setitem row k_email (VStr s) in
  v <-? getitem row k_description ;;
  items <-? py_iter_str v ;;
  Val (setitem row k_description (VStr (PyStr.join_alnum items))).

(** Lines 97-103: the row after the loop body, with its clock stamp. *)
Definition transform_row (row : dict) : PyM dict :=
  row <- lift (transform_fields row) ;;
  t <- now_utc ;;
  ret (setitem row k_processed_at (VDatetime t)).

(** The suspended states of the generator object. *)
Inductive tgen (U : Type) : Type :=
| TInit (up : U)
| TIter (i : nat) (up : U).
Arguments TInit {U} up.
Arguments TIter {U} i up.

(** [transform_users(row_generator)]: creating the generator runs none of
    its body. *)
Definition transform_users {U} (up : U) : tgen U := TInit up.

Section Generator.
Context {U : Type} `{Generator U dict}.

(** One turn of [for i, row in enumerate(row_generator)]: pull a row,
    print, transform, yield; or print the final line and stop. *)
Definition transform_step (i : nat) (up : U) : PyM (option (dict * tgen U)) :=
  r <- gen_next up ;;
  match r with
  | None => print MsgTFinished ;;; ret None
  | Some (row, up') =>
      print (MsgTRow i) ;;;
      row' <- transform_row row ;;
      ret (Some (row', TIter (S i) up'))
  end.

Definition transform_users_next (g : tgen U) : PyM (option (dict * tgen U)) :=
  match g with
  | TInit up => print MsgTStart ;;; transform_step 0 up
  | TIter i up => transform_step i up
  end.

#[export] Instance transform_gen : Generator (tgen U) dict := transform_users_next.
End Generator.

(** ** Lemmas *)

Create Rewrite HintDb etl_dict.
#[export] Hint Rewrite lookup_setitem_eq : etl_dict.
#[export] Hint Rewrite lookup_setitem_ne lookup_remove_ne using (discriminate || congruence) : etl_dict.

Lemma py_int_str s n : PyStr.int_of_str s = Val n -> py_int (VStr s) = Val n.
Proof. simpl. intros ->. reflexivity. Qed.

Section Row.
(** A raw row as [csv.DictReader] yields it: a dict with a [password]
    key and [str] values under [id], [email] and [description]. *)
Variables (row : dict) (sid e ds : string) (n : Z).
Hypothesis Hwf : wf row.
Hypothesis Hpw : In k_password (keys row).
Hypothesis Hid : lookup row k_id = Some (VStr sid).
Hypothesis Hn : PyStr.int_of_str sid = Val n.
Hypothesis He : lookup row k_email = Some (VStr e).
Hypothesis Hds : lookup row k_description = Some (VStr ds).

(** The dict the loop body leaves before the clock stamp. *)
Definition fields_result : dict :=
  setitem (setitem (setitem (remove_key row k_password) k_id (VInt n))
                   k_email (VStr (PyStr.lower e)))
          k_description (VStr (PyStr.filter_chars PyStr.isalnum_char ds)).

Lemma transform_fields_ok : transform_fields row = Val fields_result.
Proof.
  unfold transform_fields, delitem.
  destruct (lookup row k_password) eqn:Hp;
    [|apply lookup_none_keys in Hp; contradiction].
  cbn [rbind]. unfold getitem. autorewrite with etl_dict. rewrite Hid.
  cbn [rbind]. rewrite (py_int_str _ _ Hn). cbn [rbind].
  autorewrite with etl_dict. rewrite He. cbn [rbind py_lower].
  autorewrite with etl_dict. rewrite Hds. cbn [rbind py_iter_str].
  rewrite PyStr.join_alnum_chars. reflexivity.
Qed.

Lemma fields_result_keys : keys fields_result = keys (remove_key row k_password).
Proof.
  unfold fields_result.
  rewrite !keys_setitem_present; [reflexivity| | |].
  all: apply lookup_in_keys; autorewrite with etl_dict;
       first [rewrite Hid | rewrite He | rewrite Hds]; discriminate.
Qed.

Lemma fields_result_wf : wf fields_result.
Proof. unfold fields_result. repeat apply setitem_wf. apply remove_key_wf, Hwf. Qed.
Lemma transform_row_ok w :
  transform_row row w =
    (Ok (setitem fields_result k_processed_at (VDatetime (w_clock w (w_tick w)))),
     clock_read w).
Proof. unfold transform_row. rewrite transform_fields_ok. reflexivity. Qed.

(** C5: the loop body of [transform_users] on a raw row succeeds,
    reads the clock once, and leaves a row without [password], with
    [id] parsed by [int()], [email] lower-cased, [description] reduced
    to its alphanumeric characters, and [processed_at] the instant read. *)
Theorem transform_row_fields w :
  exists row', transform_row row w = (Ok row', clock_read w) /\
    lookup row' k_password = None /\
    lookup row' k_id = Some (VInt n) /\
    lookup row' k_email = Some (VStr (PyStr.lower e)) /\
    lookup row' k_description = Some (VStr (PyStr.filter_chars PyStr.isalnum_char ds)) /\
    lookup row' k_processed_at = Some (VDatetime (w_clock w (w_tick w))).
Proof.
  eexists. split; [apply transform_row_ok|]. unfold fields_result.
  autorewrite with etl_dict. rewrite lookup_remove_eq by exact Hwf.
  repeat split; reflexivity.
Qed.

(** C22: the row keeps its other keys in their places and values:
    [password] is gone, [processed_at] is appended last, so
    [row.values()] lists the columns in the CSV header's order. *)
Theorem transform_row_keys w row' w' :
  ~ In k_processed_at (keys row) ->
  transform_row row w = (Ok row', w') ->
  keys row' = remove key_eq_dec k_password (keys row) ++ [k_processed_at] /\
  wf row' /\
  (forall k, ~ In k [k_password; k_id; k_email; k_description; k_processed_at] ->
             lookup row' k = lookup row k).
Proof.
  intros Hpa. rewrite transform_row_ok. intros [= <- _]. split; [|split].
  - rewrite keys_setitem_absent, fields_result_keys, keys_remove_key by
      (exact Hwf || (rewrite fields_result_keys; intros Hin;
                     apply keys_remove_incl in Hin; contradiction)).
    reflexivity.
  - apply setitem_wf, fields_result_wf.
  - intros k Hk. simpl in Hk. unfold fields_result.
    rewrite !lookup_setitem_ne, lookup_remove_ne by tauto. reflexivity.
Qed.
End Row.

(** C23: an [id] that [int()] rejects makes the loop body raise
    [ValueError] after the [del], before the clock is read; the world is
    left as it was. *)
Theorem transform_row_bad_id row sid err w :
  In k_password (keys row) ->
  lookup row k_id = Some (VStr sid) -> PyStr.int_of_str sid = Err err ->
  transform_row row w = (Exc (ValueErrorInt sid err), w).
Proof.
  intros Hpw Hid Herr. unfold transform_row, transform_fields, delitem.
  destruct (lookup row k_password) eqn:Hp; [|apply lookup_none_keys in Hp; contradiction].
  cbn [rbind]. unfold getitem. autorewrite with etl_dict. rewrite Hid.
  cbn [rbind py_int]. rewrite Herr. reflexivity.
Qed.

(** C24: a row without a [password] key makes the loop body raise
    [KeyError('password')] at its first statement. *)
Theorem transform_row_no_password row w :
  lookup row k_password = None -> transform_row row w = (Exc (KeyError k_password), w).
Proof.
  intros Hp. unfold transform_row, transform_fields, delitem. rewrite Hp. reflexivity.
Qed.


(** ** The generator *)

Section GeneratorLemmas.
Context {U : Type} `{GeneratorBound U dict}.

Definition tgen_measure (g : tgen U) (f : Store.fs) : nat :=
  match g with
  | TInit up => S (gen_measure up f)
  | TIter _ up => gen_measure up f
  end.

Lemma transform_row_pres row : fs_pres (transform_row row) /\ fuel_free (transform_row row).
Proof. unfold transform_row. split; pres_auto. Qed.

Lemma transform_step_fs i up : fs_pres (transform_step i up).
Proof.
  unfold transform_step. apply fs_pres_bind; [exact (gen_next_fs up)|].
  intros [[row up']|]; pres_auto. apply transform_row_pres.
Qed.

Lemma transform_step_fuel i up : fuel_free (transform_step i up).
Proof.
  unfold transform_step. apply fuel_free_bind; [exact (gen_next_no_fuel up)|].
  intros [[row up']|]; pres_auto. apply transform_row_pres.
Qed.

Lemma transform_step_decr i up w row g' w' :
  transform_step i up w = (Ok (Some (row, g')), w') ->
  tgen_measure g' (w_fs w') < gen_measure up (w_fs w).
Proof.
  unfold transform_step, bind at 1.
  destruct (gen_next up w) as [[[[r up']|]|e|] w1] eqn:E; try discriminate.
  - unfold bind. rewrite print_run. cbn -[transform_row].
    destruct (transform_row r _) as [[r'|e|] w2] eqn:E2; try discriminate.
    intros Hy. injection Hy as <- <- <-. simpl.
    apply (proj1 (transform_row_pres r)) in E2. simpl in E2. rewrite E2.
    exact (gen_next_decr _ _ _ _ _ E).
Qed.

#[export] Instance transform_bound : GeneratorBound (tgen U) dict.
Proof.
  refine {| gen_measure := tgen_measure |}.
  - intros [up|i up]; [|apply transform_step_fs].
    apply fs_pres_bind; [apply fs_pres_print|]. intros _. apply transform_step_fs.
  - intros [up|i up]; [|apply transform_step_fuel].
    apply fuel_free_bind; [apply fuel_free_print|]. intros _. apply transform_step_fuel.
  - intros [up|i up] w row g' w' Hn; simpl in Hn |- *.
    + apply transform_step_decr in Hn.
      simpl in Hn. lia.
    + apply transform_step_decr in Hn. exact Hn.
Defined.

(** Over a local upstream, the stage is local. *)
Lemma transform_next_local :
  (forall up : U, local (gen_next up)) -> forall g : tgen U, local (gen_next g).
Proof.
  intros Hup [up|i up]; cbv [gen_next transform_gen transform_users_next];
    [apply local_bind; [apply local_print | intros _]|];
    unfold transform_step; apply local_bind; [apply Hup | |apply Hup |];
    intros [[row up']|]; unfold transform_row; local_auto.
Qed.
End GeneratorLemmas.


(** ** What the generator yields *)

(** The specification of the stage: the loop body applied to each
    upstream row in order, row [i] stamped with clock read [t + i]. *)
Fixpoint transform_all (rows : list dict) (clock : nat -> Z) (t : nat) : res exn (list dict) :=
  match rows with
  | [] => Val []
  | r :: rs =>
      r' <-? transform_fields r ;;
      rest <-? transform_all rs clock (S t) ;;
      Val (setitem r' k_processed_at (VDatetime (clock t)) :: rest)
  end.

(** The console lines of a run over [n] rows, after the start line. *)
Definition t_lines (i n : nat) : list msg := map MsgTRow (seq i n) ++ [MsgTFinished].

Lemma world_eq f o t c f' o' t' :
  f = f' -> o = o' -> t = t' -> mkWorld f o t c = mkWorld f' o' t' c.
Proof. intros -> -> ->. reflexivity. Qed.

Lemma drain_S {G A} `{Generator G A} f (g : G) :
  drain (S f) g = (r <- gen_next g ;;
                   match r with
                   | None => ret []
                   | Some (a, g') => l <- drain f g' ;; ret (a :: l)
                   end).
Proof. reflexivity. Qed.

Lemma drain_titer rows i w fuel outs :
  List.length rows < fuel ->
  transform_all rows (w_clock w) (w_tick w) = Val outs ->
  drain fuel (TIter i (ListGen rows)) w =
    (Ok outs, mkWorld (w_fs w) (w_out w ++ t_lines i (List.length rows))
                      (w_tick w + List.length rows) (w_clock w)).
Proof.
  revert i w fuel outs. unfold t_lines.
  induction rows as [|r rs IH]; intros i w [|f] outs Hf Hall; try (simpl in Hf; lia).
  - injection Hall as <-.
    cbv [drain gen_next transform_gen transform_users_next transform_step list_gen_next
         bind ret print modify].
    f_equal. apply world_eq; simpl; [reflexivity | reflexivity | lia].
  - cbn [transform_all] in Hall.
    destruct (transform_fields r) as [r'|e] eqn:Er; [|discriminate]. cbn [rbind] in Hall.
    destruct (transform_all rs (w_clock w) (S (w_tick w))) as [rest|e] eqn:Erest;
      [|discriminate].
    injection Hall as <-.
    rewrite drain_S.
    cbv [gen_next transform_gen transform_users_next transform_step list_gen_next
         bind ret print modify transform_row lift now_utc clock_read].
    rewrite Er. cbn -[drain].
    erewrite IH; [| simpl in Hf; lia | exact Erest].
    f_equal. apply world_eq; simpl.
    + reflexivity.
    + rewrite <- app_assoc. reflexivity.
    + lia.
Qed.

(** C4: over an upstream whose rows all transform, [transform_users]
    yields exactly one row per upstream row, in upstream order, each
    stamped by its own clock read (reads [t], [t+1], ...), and prints its
    start line, one line per row and its final line. *)
Theorem transform_users_yields rows w fuel outs :
  S (List.length rows) < fuel ->
  transform_all rows (w_clock w) (w_tick w) = Val outs ->
  drain fuel (transform_users (ListGen rows)) w =
    (Ok outs, mkWorld (w_fs w) (w_out w ++ MsgTStart :: t_lines 0 (List.length rows))
                      (w_tick w + List.length rows) (w_clock w)).
Proof.
  intros Hf Hall. destruct fuel as [|f]; [lia|].
  change (drain (S f) (transform_users (ListGen rows)) w)
    with (drain (S f) (TIter 0 (ListGen rows))
            (mkWorld (w_fs w) (w_out w ++ [MsgTStart]) (w_tick w) (w_clock w))).
  erewrite drain_titer; [| simpl; lia | exact Hall].
  f_equal. apply world_eq; simpl; [reflexivity | rewrite <- app_assoc; reflexivity | reflexivity].
Qed.

(** The loop body removes the [password] key and keeps the dict
    invariant, whatever the row's values. *)
Lemma transform_fields_invariant r r' :
  wf r -> transform_fields r = Val r' -> lookup r' k_password = None /\ wf r'.
Proof.
  intros Hwf H. unfold transform_fields in H.
  repeat match goal with
         | H : rbind ?x _ = Val _ |- _ => apply rbind_val_inv in H as (? & ? & H)
         end.
  injection H as <-. unfold delitem in *.
  destruct (lookup r k_password); [|discriminate].
  match goal with H : Val _ = Val _ |- _ => injection H as <- end.
  split.
  - autorewrite with etl_dict. apply lookup_remove_eq, Hwf.
  - repeat apply setitem_wf. apply remove_key_wf, Hwf.
Qed.

(** C6: every row the transform stage yields, over upstream rows that
    are dicts, is a dict without a [password] key. *)
Theorem transform_all_no_password rows clock t outs :
  Forall wf rows -> transform_all rows clock t = Val outs ->
  Forall (fun r => lookup r k_password = None /\ wf r) outs.
Proof.
  revert t outs. induction rows as [|r rs IH]; intros t outs Hwf H; simpl in H.
  - injection H as <-. constructor.
  - inv Hwf. apply rbind_val_inv in H as (r' & Hr & H).
    apply rbind_val_inv in H as (rest & Hrest & H). injection H as <-.
    destruct (transform_fields_invariant r r' ltac:(assumption) Hr) as [Hp Hw].
    constructor; [|eapply IH; eassumption]. split.
    + rewrite lookup_setitem_ne by discriminate. exact Hp.
    + apply setitem_wf, Hw.
Qed.

(** ** The stage over any upstream generator

    [t_trace] is what the stage yields over an upstream that yields the
    rows of [tr] with their lines and ends as [fin], never reading the
    clock: each row gets its [T: transform row] line and one clock read,
    and a row the loop body rejects ends the run with its exception. *)
Fixpoint t_trace (clock : nat -> Z) (i t : nat) (tr : list (dict * list msg))
    (fin : list msg * gend) : list (dict * list msg * nat) * gfin :=
  match tr with
  | [] => ([], (fst fin ++ match snd fin with GStop => [MsgTFinished] | GRaise _ => [] end,
                snd fin, 0))
  | (x, ms) :: rest =>
      match transform_fields x with
      | Err e => ([], (ms ++ [MsgTRow i], GRaise e, 0))
      | Val r =>
          let '(tr', fin') := t_trace clock (S i) (S t) rest fin in
          ((setitem r k_processed_at (VDatetime (clock t)), ms ++ [MsgTRow i], 1) :: tr', fin')
      end
  end.

Lemma transform_row_run row w :
  transform_row row w =
    match transform_fields row with
    | Val r => (Ok (setitem r k_processed_at (VDatetime (w_clock w (w_tick w)))), clock_read w)
    | Err e => (Exc e, w)
    end.
Proof. unfold transform_row. destruct (transform_fields row); reflexivity. Qed.

(** A line printed first by the upstream stays first. *)
Lemma t_trace_prepend0 clock i t m p :
  t_trace clock i t (fst (prepend0 m p)) (snd (prepend0 m p)) =
    prepend_first m (t_trace clock i t (fst p) (snd p)).
Proof.
  destruct p as [[|[x ms] tr] [ms0 e]]; cbn [prepend0 fst snd t_trace]; [reflexivity|].
  destruct (transform_fields x); [|reflexivity].
  destruct (t_trace clock (S i) (S t) tr (ms0, e)). reflexivity.
Qed.

Section Trace.
Context {U : Type} `{Generator U dict}.

Lemma tnext_iter i (up : U) : gen_next (TIter i up) = transform_step i up.
Proof. reflexivity. Qed.

(** The step of the stage after an upstream step [Hs]. *)
Lemma transform_step_after f clock (up : U) i t r ms out :
  steps0 f up r ms ->
  transform_step i up (mkWorld f out t clock) =
    match r with
    | Ok None => (Ok None, mkWorld f (out ++ ms ++ [MsgTFinished]) t clock)
    | Ok (Some (x, up')) =>
        match transform_fields x with
        | Val row => (Ok (Some (setitem row k_processed_at (VDatetime (clock t)), TIter (S i) up')),
                      mkWorld f (out ++ ms ++ [MsgTRow i]) (S t) clock)
        | Err e => (Exc e, mkWorld f (out ++ ms ++ [MsgTRow i]) t clock)
        end
    | Exc e => (Exc e, mkWorld f (out ++ ms) t clock)
    | OutOfFuel => (OutOfFuel, mkWorld f (out ++ ms) t clock)
    end.
Proof.
  intros Hs. unfold transform_step, bind at 1. rewrite (Hs clock t out), Nat.add_0_r.
  destruct r as [[[x up']|]|e|]; cbn -[transform_row]; rewrite ?app_assoc; [|reflexivity..].
  unfold bind at 1. rewrite transform_row_run. destruct (transform_fields x); reflexivity.
Qed.

Lemma transform_yields f clock (up : U) tr fin i t :
  yields0 f up tr fin ->
  yields f clock (TIter i up) t (fst (t_trace clock i t tr fin)) (snd (t_trace clock i t tr fin)).
Proof.
  intros Y. revert i t. induction Y as [g ms Hs | g e ms Hs | g x g' ms rest fin Hs Y IH];
    intros i t; cbn [t_trace fst snd].
  - apply yields_stop. intros out. rewrite tnext_iter, (transform_step_after _ _ _ _ _ _ _ _ Hs).
    rewrite Nat.add_0_r. reflexivity.
  - apply yields_raise. intros out. rewrite tnext_iter, (transform_step_after _ _ _ _ _ _ _ _ Hs).
    rewrite app_nil_r, Nat.add_0_r. reflexivity.
  - destruct (transform_fields x) as [r|e] eqn:Ex.
    + destruct (t_trace clock (S i) (S t) rest fin) as [tr' fin'] eqn:Et. cbn [fst snd].
      eapply yields_item.
      * intros out. rewrite tnext_iter, (transform_step_after _ _ _ _ _ _ _ _ Hs), Ex.
        rewrite Nat.add_1_r. reflexivity.
      * rewrite Nat.add_1_r. specialize (IH (S i) (S t)). rewrite Et in IH. exact IH.
    + apply yields_raise. intros out.
      rewrite tnext_iter, (transform_step_after _ _ _ _ _ _ _ _ Hs), Ex, Nat.add_0_r. reflexivity.
Qed.

(** [transform_users(up)]: the start line, then the loop. *)
Lemma transform_users_trace f clock (up : U) tr fin t :
  yields0 f up tr fin ->
  yields f clock (transform_users up) t
    (fst (prepend_first MsgTStart (t_trace clock 0 t tr fin)))
    (snd (prepend_first MsgTStart (t_trace clock 0 t tr fin))).
Proof.
  intros Y. apply (yields_prepend _ _ _ (TIter 0 up)); [intros out; reflexivity|].
  apply transform_yields, Y.
Qed.
End Trace.

(** ** Witnesses, on the rows of the scenario in the specification *)

Definition ex_row (id name email pw desc : string) : dict :=
  [(k_id, VStr id); (k_name, VStr name); (k_email, VStr email);
   (k_password, VStr pw); (k_description, VStr desc)].

Definition ex_rows : list dict :=
  [ex_row "0" "Ann" "A@X.COM" "p" "ab-12!"; ex_row "1" "Bo" "b@y.com" "q" "**cd34";
   ex_row "2" "x" "C@Z.COM" "r" "5!6@"].

(** A clock that starts at 2023-11-14 22:13:20 UTC and advances one
    microsecond per read (the constant is added on the right so that
    evaluation under the binder stays small). *)
Definition ex_world : world := mkWorld [] [] 0 (fun n => Z.of_nat n + 1700000000000000)%Z.

Lemma transform_row_fields_witness :
  exists row', transform_row (ex_row "0" "Ann" "A@X.COM" "p" "ab-12!") ex_world
                 = (Ok row', clock_read ex_world) /\
    lookup row' k_password = None /\
    lookup row' k_id = Some (VInt 0) /\
    lookup row' k_email = Some (VStr (PyStr.lower "A@X.COM")) /\
    lookup row' k_description = Some (VStr (PyStr.filter_chars PyStr.isalnum_char "ab-12!")) /\
    lookup row' k_processed_at = Some (VDatetime (w_clock ex_world (w_tick ex_world))).
Proof.
  apply (transform_row_fields (ex_row "0" "Ann" "A@X.COM" "p" "ab-12!") "0" "A@X.COM" "ab-12!" 0);
    [apply wfb_wf; vm_compute; reflexivity | apply lookup_in_keys; vm_compute; discriminate | reflexivity.. ].
Defined.

Definition ex_row0 : dict := ex_row "0" "Ann" "A@X.COM" "p" "ab-12!".

Definition ex_out0 : dict :=
  [(k_id, VInt 0); (k_name, VStr "Ann"); (k_email, VStr "a@x.com");
   (k_description, VStr "ab12"); (k_processed_at, VDatetime (w_clock ex_world 0))].

Lemma transform_row_keys_witness :
  transform_row ex_row0 ex_world = (Ok ex_out0, clock_read ex_world) /\
  keys ex_out0 = remove key_eq_dec k_password (keys ex_row0) ++ [k_processed_at] /\
  wf ex_out0 /\
  (forall k, ~ In k [k_password; k_id; k_email; k_description; k_processed_at] ->
             lookup ex_out0 k = lookup ex_row0 k).
Proof.
  assert (Hrun : transform_row ex_row0 ex_world = (Ok ex_out0, clock_read ex_world))
    by (vm_compute; reflexivity).
  split; [exact Hrun|].
  apply (transform_row_keys ex_row0 "0" "A@X.COM" "ab-12!" 0) with (w := ex_world) (w' := clock_read ex_world).
  - apply wfb_wf. vm_compute. reflexivity.
  - apply lookup_in_keys. vm_compute. discriminate.
  - vm_compute. reflexivity.
  - vm_compute. reflexivity.
  - vm_compute. reflexivity.
  - vm_compute. reflexivity.
  - apply lookup_none_keys. vm_compute. reflexivity.
  - exact Hrun.
Defined.

Lemma transform_row_bad_id_witness :
  transform_row (ex_row "x1" "Ann" "a@x.com" "p" "d") ex_world
  = (Exc (ValueErrorInt "x1" PyStr.InvalidLiteral), ex_world).
Proof. apply transform_row_bad_id; [apply lookup_in_keys; vm_compute; discriminate | reflexivity | vm_compute; reflexivity]. Defined.

Lemma transform_row_no_password_witness :
  transform_row [(k_id, VStr "0")] ex_world = (Exc (KeyError k_password), ex_world).
Proof. apply transform_row_no_password. reflexivity. Defined.

Lemma transform_users_yields_witness :
  exists outs, transform_all ex_rows (w_clock ex_world) (w_tick ex_world) = Val outs /\
  drain 5 (transform_users (ListGen ex_rows)) ex_world =
    (Ok outs, mkWorld (w_fs ex_world) (w_out ex_world ++ MsgTStart :: t_lines 0 3)
                      (w_tick ex_world + 3) (w_clock ex_world)).
Proof.
  eexists. split; [vm_compute; reflexivity|].
  apply (transform_users_yields ex_rows ex_world 5); [simpl; lia | vm_compute; reflexivity].
Defined.

Lemma transform_all_no_password_witness :
  exists outs, transform_all ex_rows (w_clock ex_world) 0 = Val outs /\
    Forall (fun r => lookup r k_password = None /\ wf r) outs.
Proof.
  eexists. split; [vm_compute; reflexivity|].
  apply (transform_all_no_password ex_rows (w_clock ex_world) 0);
    [unfold ex_rows; repeat (apply Forall_cons; [apply wfb_wf; vm_compute; reflexivity|]);
     apply Forall_nil | vm_compute; reflexivity].
Defined.

End Transform.
