(* ===== verification/Sqlite.v ===== *)
(** * The [sqlite3] calls of [init_db] and [load_data]

    A connection ([sqlite3.connect(path)]) holds the database it works on
    ([c_db]; [None] when the file is not a database, which SQLite reports
    at the first statement) and whether a transaction is open.  Python's
    [sqlite3] module (legacy transaction control, [isolation_level = ""])
    opens a transaction implicitly before a DML statement ([INSERT]); a
    DDL statement outside a transaction ([CREATE TABLE]) is written to the
    file at once.  [commit] writes the connection's database to the file,
    [rollback] and [close] (of a connection with an open transaction)
    forget what was not committed: the file keeps the last commit.

    [execute] follows CPython's [_pysqlite_query_execute]: the statement
    is prepared (an unknown table fails here), the implicit [BEGIN] is
    issued, the parameters are bound (count, then each value's adapter:
    [int] to a 64-bit INTEGER or [OverflowError], [str] to TEXT, [None] to
    NULL, an aware [datetime] to its [isoformat(" ")] TEXT, anything else
    refused), and the row is stored after the NOT NULL checks, each
    value under the affinity of its column ([Affinity.column_value]). *)

From Stdlib Require Import List String ZArith Lia.
From S2P Require Import Prelude PyStr PyObj Datetime Store Affinity Runtime.
Import ListNotations.
Local Open Scope etl_scope.

Module Sqlite.
Import PyObj Store Affinity Runtime.

Record conn : Type := mkConn {
  c_path : string;
  c_db : option database;
  c_in_tx : bool
}.

(** The two statements the program executes. *)
Inductive stmt : Type :=
| CreateTable (table : string) (cols : list column)    (** CREATE TABLE IF NOT EXISTS *)
| Insert (table : string) (cols : list string).        (** INSERT INTO t (cols) VALUES (?, ..., ?) *)

(** [sqlite3.connect(path)] *)
Definition connect (path : string) : PyM conn :=
  f <- read_fs ;;
  match fs_lookup f path with
  | Some NDir => raise (SqliteError OperationalError UnableToOpen)
  | None => write_fs (fs_write f path (NDb [])) ;;; ret (mkConn path (Some []) false)
  | Some (NDb db) => ret (mkConn path (Some db) false)
  | Some (NText EmptyString) => ret (mkConn path (Some []) false)
  | Some (NText _) => ret (mkConn path None false)
  end.

(** The adapter of one parameter, [i] its position from 1. *)
Definition adapt (i : nat) (v : value) : res exn param :=
  match v with
  | VNone => Val PNull
  | VInt z => if andb (int64_min <=? z)%Z (z <=? int64_max)%Z then Val (PInt z) else Err OverflowError
  | VStr s => Val (PText s)
  | VDatetime t => Val (PText (Datetime.isoformat_utc t))
  | VList _ => Err (SqliteError ProgrammingError (UnsupportedType i))
  end.

Fixpoint bind_params (i : nat) (vs : list value) : res exn (list param) :=
  match vs with
  | [] => Val []
  | v :: r => x <-? adapt i v ;; xs <-? bind_params (S i) r ;; Val (x :: xs)
  end.

Fixpoint index_of (s : string) (l : list string) : option nat :=
  match l with
  | [] => None
  | x :: r => if String.eqb s x then Some 0 else option_map S (index_of s r)
  end.

(** The stored row: each table column takes the value bound to it, or
    NULL (no DEFAULT is declared), under the column's affinity. *)
Definition row_of (tcols : list column) (cols : list string) (vals : list param) : list sqlval :=
  map (fun c => column_value c
                  match index_of (col_name c) cols with
                  | Some j => nth j vals PNull
                  | None => PNull
                  end) tcols.

(** The first column of an [INSERT]'s list that the table does not
    have: [sqlite3_prepare] rejects the statement. *)
Definition missing_column (tcols : list column) (cols : list string) : option string :=
  find (fun n => negb (existsb (fun c => String.eqb (col_name c) n) tcols)) cols.

(** The first NOT NULL column holding NULL. *)
Fixpoint not_null_violation (tcols : list column) (row : list sqlval) : option string :=
  match tcols, row with
  | c :: cs, v :: vs =>
      if andb (col_notnull c) (match v with SNull => true | _ => false end)
      then Some (col_name c) else not_null_violation cs vs
  | _, _ => None
  end.

Definition set_table (db : database) (name : string) (t : table) : database :=
  assoc_set db name t.

(** Preparing, binding and stepping an [INSERT] into table [t] (named
    [name]): each column of the statement must be a column of the table
    (else [sqlite3_prepare] fails with "table users has no column named
    x"), then the parameter count, each adapter, the NOT NULL checks,
    then the row is appended, each value under its column's affinity.
    The failures leave the connection as it was, as a failed prepare
    does before the implicit BEGIN. *)
Definition insert_into (name : string) (t : table) (cols : list string) (params : list value)
  : res exn table :=
  match missing_column (tbl_cols t) cols with
  | Some n => Err (SqliteError OperationalError (NoSuchColumn name n))
  | None =>
      if negb (Nat.eqb (List.length params) (List.length cols)) then
        Err (SqliteError ProgrammingError (BindingCount (List.length cols) (List.length params)))
      else
        vals <-? bind_params 1 params ;;
        let row := row_of (tbl_cols t) cols vals in
        match not_null_violation (tbl_cols t) row with
        | Some col => Err (SqliteError IntegrityError (NotNullFailed name col))
        | None => Val (mkTable (tbl_cols t) (tbl_rows t ++ [row]))
        end
  end.

(** Write the connection's database to its file. *)
Definition write_back (c : conn) : PyM unit :=
  match c_db c with
  | Some db => f <- read_fs ;; write_fs (fs_write f (c_path c) (NDb db))
  | None => ret tt
  end.

(** [cursor.execute(stmt, params)]: prepare (the table must exist), the
    implicit BEGIN of a DML statement, then bind and step.  (BEGIN before
    binding is CPython's order; a failed binding leaves a transaction
    open, which the caller's [with conn] rolls back.) *)
Definition execute (c : conn) (s : stmt) (params : list value) : PyM conn :=
  match c_db c with
  | None => raise (SqliteError DatabaseError NotADatabase)
  | Some db =>
      match s with
      | CreateTable name cols =>
          let db' := match db_table db name with
                     | Some _ => db
                     | None => set_table db name (mkTable cols [])
                     end in
          let c' := mkConn (c_path c) (Some db') (c_in_tx c) in
          (if c_in_tx c then ret tt else write_back c') ;;; ret c'
      | Insert name cols =>
          match db_table db name with
          | None => raise (SqliteError OperationalError (NoSuchTable name))
          | Some t =>
              t' <- lift (insert_into name t cols params) ;;
              ret (mkConn (c_path c) (Some (set_table db name t')) true)
          end
      end
  end.

(** [conn.commit()] *)
Definition commit (c : conn) : PyM conn :=
  (if c_in_tx c then write_back c else ret tt) ;;;
  ret (mkConn (c_path c) (c_db c) false).

(** The database the file holds, as a connection would read it again. *)
Definition file_db (f : fs) (path : string) : option database :=
  match fs_lookup f path with
  | Some (NDb db) => Some db
  | Some (NText EmptyString) | None => Some []
  | _ => None
  end.

(** [conn.rollback()]: back to what the file holds. *)
Definition rollback (c : conn) : PyM conn :=
  f <- read_fs ;;
  ret (if c_in_tx c then mkConn (c_path c) (file_db f (c_path c)) false else c).

(** [with conn: body]: commit on a normal exit; roll back and re-raise
    on an exception. *)
Definition with_conn {A} (c : conn) (body : PyM (A * conn)) : PyM (A * conn) :=
  fun w =>
    match body w with
    | (Ok (a, c'), w') => (c'' <- commit c' ;; ret (a, c'')) w'
    | (Exc e, w') => (_ <- rollback c ;; raise e) w'
    | (OutOfFuel, w') => (OutOfFuel, w')
    end.

(** [conn.close()]: an open transaction is discarded; the file is
    untouched. *)
Definition close (c : conn) : PyM unit := ret tt.

(** ** Lemmas *)

Lemma connect_other p w c w1 q :
  connect p w = (Ok c, w1) -> q <> p -> fs_lookup (w_fs w1) q = fs_lookup (w_fs w) q.
Proof.
  destruct w as [f o t k]. unfold connect, bind. cbn [read_fs w_fs].
  destruct (fs_lookup f p) as [[[|? ?]|?|]|]; intros H Hq; try discriminate;
    injection H as _ <-; try reflexivity.
  apply assoc_find_set_ne. congruence.
Qed.

Lemma assoc_remove_idem {A} (l : list (string * A)) k :
  assoc_remove (assoc_remove l k) k = assoc_remove l k.
Proof.
  induction l as [|[k' a] l IH]; simpl; [reflexivity|].
  destruct (String.eqb k k') eqn:E; simpl; [exact IH|]. rewrite E, IH. reflexivity.
Qed.

Lemma set_table_twice db name a b : set_table (set_table db name a) name b = set_table db name b.
Proof.
  unfold set_table, assoc_set. simpl. rewrite String.eqb_refl, assoc_remove_idem. reflexivity.
Qed.

Lemma db_table_set_eq db name t : db_table (set_table db name t) name = Some t.
Proof. apply assoc_find_set_eq. Qed.

Lemma db_table_set_ne db name name' t :
  name <> name' -> db_table (set_table db name t) name' = db_table db name'.
Proof. apply assoc_find_set_ne. Qed.

Lemma execute_insert c db name t cols params :
  c_db c = Some db -> db_table db name = Some t ->
  forall w, execute c (Insert name cols) params w =
    match insert_into name t cols params with
    | Val t' => (Ok (mkConn (c_path c) (Some (set_table db name t')) true), w)
    | Err e => (Exc e, w)
    end.
Proof.
  intros Hc Ht w. unfold execute. rewrite Hc, Ht.
  destruct (insert_into name t cols params); reflexivity.
Qed.

(** A successful [INSERT] appends one row and keeps the columns. *)
Lemma insert_into_appends name t cols params t' :
  insert_into name t cols params = Val t' -> exists row, t' = mkTable (tbl_cols t) (tbl_rows t ++ [row]).
Proof.
  unfold insert_into. destruct (missing_column _ _); [discriminate|]. destruct (negb _); [discriminate|].
  destruct (bind_params 1 params) as [vals|e]; [|discriminate]. cbn [rbind].
  destruct (not_null_violation _ _); [discriminate|]. intros [= <-]. eexists. reflexivity.
Qed.

Lemma commit_run p db tx w :
  commit (mkConn p (Some db) tx) w =
    (Ok (mkConn p (Some db) false),
     if tx then mkWorld (fs_write (w_fs w) p (NDb db)) (w_out w) (w_tick w) (w_clock w) else w).
Proof. destruct tx; reflexivity. Qed.

Lemma rollback_fs c : fs_pres (rollback c).
Proof. intros w r w' H. injection H; intros; subst; reflexivity. Qed.

End Sqlite.
