(* ===== verification/Load.v ===== *)
(** * The load stage: [load_data] (src/pipeline.py, lines 108-135)

    [load_data row_generator path] connects to the database (outside the
    [try]), then inside [try: with conn:] prints its start line and runs
    [for row in row_generator: print(...); cur.execute(query,
    tuple(row.values()))]; a normal exit of the [with] block commits and
    prints the final line; an exception rolls the transaction back and is
    caught by [except sqlite3.Error] or [except Exception], which print
    it; [finally] closes the connection.  The loop pulls from any
    generator of dicts ([Generator] instance); it is a [Fixpoint] with
    fuel, and [load_data_no_fuel] shows that fuel above the generator's
    measure is never exhausted.

    Theorems: for an upstream of known rows, the run is all-or-nothing --
    every row appended to [users] in order and committed, or the file left
    as it was, with the error printed and not re-raised ([load_data_rows]);
    a database path that cannot be opened raises out of [load_data]
    ([load_data_connect_error]); fuel above the measure is enough
    ([load_data_no_fuel]). *)

From Stdlib Require Import List String ZArith Lia.
From S2P Require Import Prelude PyStr PyObj Datetime Store Runtime Sqlite.
Import ListNotations.
Local Open Scope etl_scope.

Module Load.
Import PyObj Store Runtime Sqlite.

(** The [INSERT INTO users (id, name, email, description, processed_at)
    VALUES (?, ?, ?, ?, ?)] of line 109. *)
Definition users_cols : list string :=
  ["id"; "name"; "email"; "description"; "processed_at"]%string.
Definition query : stmt := Insert "users"%string users_cols.

(** The table [init_db] creates (lines 57-65): [id INT, name TEXT NOT
    NULL, email TEXT NOT NULL, description TEXT NOT NULL, processed_at
    TEXT NOT NULL]. *)
Definition users_schema : list column :=
  [mkColumn "id" "INT" false; mkColumn "name" "TEXT" true; mkColumn "email" "TEXT" true;
   mkColumn "description" "TEXT" true; mkColumn "processed_at" "TEXT" true]%string.

(** The message a caught exception prints. *)
Definition error_msg (e : exn) : msg :=
  if is_sqlite_error e then MsgDatabaseError e else MsgUnexpected e.

Section Loop.
Context {G : Type} `{Generator G dict}.

(** Lines 126-128: [for row in row_generator: print(f"L: insert row
    {row}"); cur.execute(query, tuple(row.values()))]. *)
Fixpoint load_rows (fuel : nat) (g : G) (c : conn) : PyM conn :=
  match fuel with
  | 0 => out_of_fuel
  | S f =>
      r <- gen_next g ;;
      match r with
      | None => ret c
      | Some (row, g') =>
          print (MsgLInsert row) ;;;
          c' <- execute c query (values row) ;;
          load_rows f g' c'
      end
  end.

(** Lines 120-135. *)
Definition load_data (fuel : nat) (g : G) (path : string) : PyM unit :=
  c <- connect path ;;
  try_finally
    (try_except
       (_ <- with_conn c (print MsgLStart ;;; c' <- load_rows fuel g c ;; ret (tt, c')) ;;
        print MsgLFinished)
       (fun e => print (error_msg e)))
    (close c).

End Loop.

(** ** The all-or-nothing specification *)

(** Each row's values inserted into [users] in order; or the position
    of the first row whose [execute] fails, with its exception. *)
Fixpoint insert_all (t : table) (rows : list dict) : res (nat * exn) table :=
  match rows with
  | [] => Val t
  | r :: rs =>
      match insert_into "users" t users_cols (values r) with
      | Err e => Err (0, e)
      | Val t' =>
          match insert_all t' rs with
          | Val t'' => Val t''
          | Err (k, e) => Err (S k, e)
          end
      end
  end.

(** The database of the connection after the loop. *)
Definition db_after (db : database) (rows : list dict) (t : table) : database :=
  match rows with [] => db | _ => set_table db "users" t end.

Lemma load_rows_list rows p db t tx w fuel :
  List.length rows < fuel -> db_table db "users" = Some t ->
  load_rows fuel (ListGen rows) (mkConn p (Some db) tx) w =
    match insert_all t rows with
    | Val t' => (Ok (mkConn p (Some (db_after db rows t'))
                          (match rows with [] => tx | _ => true end)),
                 w_app w (map MsgLInsert rows))
    | Err (k, e) => (Exc e, w_app w (map MsgLInsert (firstn (S k) rows)))
    end.
Proof.
  revert db t tx w fuel.
  induction rows as [|r rs IH]; intros db t tx w [|f] Hf Ht; simpl in Hf; try lia.
  - simpl. rewrite w_app_nil. reflexivity.
  - cbn [load_rows insert_all]. unfold bind at 1. cbn [gen_next list_gen_next ret].
    unfold bind at 1. rewrite print_app. unfold bind at 1.
    unfold query. rewrite (execute_insert _ db _ t) by (reflexivity || exact Ht).
    destruct (insert_into "users" t users_cols (values r)) as [t1|e] eqn:E1.
    + rewrite (IH _ t1) by (lia || apply db_table_set_eq).
      destruct (insert_all t1 rs) as [t''|[k e]] eqn:E2.
      * rewrite w_app_app. f_equal. f_equal. destruct rs as [|r' rs'].
        -- simpl in E2. injection E2 as <-. reflexivity.
        -- cbn [db_after]. rewrite set_table_twice. reflexivity.
      * rewrite w_app_app. reflexivity.
    + reflexivity.
Qed.

(** The file system after a successful run over [rows]. *)
Definition fs_after (f : fs) (p : string) (db : database) (rows : list dict) (t : table) : fs :=
  match rows with [] => f | _ => fs_write f p (NDb (set_table db "users" t)) end.

(** C3: over an upstream of known rows, with a database file holding a
    [users] table, [load_data] is all-or-nothing and never raises: if
    every row inserts, all are appended to [users] in upstream order,
    committed to the file, and the start, per-row and final lines are
    printed; if row [k] is the first to fail, the file is left exactly as
    it was (the transaction is rolled back), rows [0..k] were printed,
    and the error is printed by the matching [except] clause. *)
Theorem load_data_all_or_nothing rows p db t w fuel :
  List.length rows < fuel ->
  fs_lookup (w_fs w) p = Some (NDb db) -> db_table db "users" = Some t ->
  load_data fuel (ListGen rows) p w =
    match insert_all t rows with
    | Val t' => (Ok tt, mkWorld (fs_after (w_fs w) p db rows t')
                           (w_out w ++ MsgLStart :: map MsgLInsert rows ++ [MsgLFinished])
                           (w_tick w) (w_clock w))
    | Err (k, e) => (Ok tt, w_app w (MsgLStart :: map MsgLInsert (firstn (S k) rows) ++ [error_msg e]))
    end.
Proof.
  intros Hf Hp Ht. unfold load_data, connect, bind at 1 2. cbn [read_fs]. rewrite Hp.
  cbn [ret]. unfold try_finally, try_except, with_conn, bind at 1 2 3.
  rewrite print_app. rewrite (load_rows_list rows p db t false _ fuel Hf Ht).
  destruct (insert_all t rows) as [t'|[k e]] eqn:E.
  - destruct w as [wf wo wt wc]. destruct rows as [|r rs]; cbn; f_equal;
      rewrite <- ?app_assoc; reflexivity.
  - destruct w as [wf wo wt wc]. cbn. f_equal. unfold w_app. cbn.
    rewrite <- ?app_assoc. reflexivity.
Qed.

(** C26: the connection is opened before the [try]: when the database
    path cannot be opened (it is a directory), [sqlite3.OperationalError]
    escapes from [load_data] -- nothing is printed, no row is read. *)
Theorem load_data_connect_error {G} `{Generator G dict} fuel (g : G) p w :
  fs_lookup (w_fs w) p = Some NDir ->
  load_data fuel g p w = (Exc (SqliteError OperationalError UnableToOpen), w).
Proof. intros Hp. unfold load_data, connect, bind. cbn [read_fs]. rewrite Hp. reflexivity. Qed.

(** ** The load stage over any upstream generator

    [l_run] is the run of the loop over an upstream with trace [tr] and
    end [fin]: the lines printed (the upstream's and the [L: insert row]
    lines), the clock reads the upstream made, and the table after the
    last insert, or the exception that ended the loop -- raised by an
    [execute] or by the upstream. *)
Fixpoint l_run (t : table) (tr : list (dict * list msg * nat)) (fin : gfin)
  : list msg * nat * res exn table :=
  match tr with
  | [] => let '(ms, e, dt) := fin in (ms, dt, match e with GStop => Val t | GRaise ex => Err ex end)
  | (x, ms, dt) :: rest =>
      match insert_into "users" t users_cols (values x) with
      | Err e => (ms ++ [MsgLInsert x], dt, Err e)
      | Val t' => let '(ms', dt', r) := l_run t' rest fin in (ms ++ MsgLInsert x :: ms', dt + dt', r)
      end
  end.

Lemma l_run_nil t fin ms dt t' : l_run t [] fin = (ms, dt, Val t') -> t' = t.
Proof. destruct fin as [[ms0 [|e]] dt0]; cbn; intros H; injection H; intros; subst; [reflexivity | discriminate]. Qed.

Lemma l_run_prepend tb m p :
  l_run tb (fst (prepend_first m p)) (snd (prepend_first m p)) =
    let '(ms, dt, r) := l_run tb (fst p) (snd p) in (m :: ms, dt, r).
Proof.
  destruct p as [[|[[x ms] dt] tr] [[ms0 e] dt0]]; cbn [prepend_first fst snd l_run];
    [destruct e; reflexivity|].
  destruct (insert_into "users" tb users_cols (values x)) as [t1|]; [|reflexivity].
  destruct (l_run t1 tr (ms0, e, dt0)) as [[? ?] ?]. reflexivity.
Qed.

(** A run of the loop that commits has appended rows to the table,
    and kept its columns. *)
Lemma l_run_appends tb tr fin ms dt tb' :
  l_run tb tr fin = (ms, dt, Val tb') ->
  tbl_cols tb' = tbl_cols tb /\ exists new, tbl_rows tb' = tbl_rows tb ++ new.
Proof.
  revert tb ms dt. induction tr as [|[[x m] d] tr IH]; intros tb ms dt H.
  - apply l_run_nil in H as ->. split; [reflexivity | exists []; symmetry; apply app_nil_r].
  - cbn [l_run] in H. destruct (insert_into "users" tb users_cols (values x)) as [t1|e] eqn:E;
      [|discriminate].
    destruct (l_run t1 tr fin) as [[ms' dt'] r] eqn:El. injection H as _ _ ->.
    destruct (IH _ _ _ El) as [Hc [new Hn]]. apply insert_into_appends in E as [row ->].
    cbn [tbl_cols tbl_rows] in *. split; [exact Hc|]. exists (row :: new). rewrite Hn, <- app_assoc. reflexivity.
Qed.

Section LoadTrace.
Context {G : Type} `{Generator G dict}.

Lemma load_rows_yields f clock (g : G) t tr fin p db tb tx out fuel :
  yields f clock g t tr fin -> List.length tr < fuel -> db_table db "users" = Some tb ->
  load_rows fuel g (mkConn p (Some db) tx) (mkWorld f out t clock) =
    let '(ms, dt, r) := l_run tb tr fin in
    match r with
    | Val tb' => (Ok (mkConn p (Some (db_after db (items tr) tb')) (match tr with [] => tx | _ => true end)),
                  mkWorld f (out ++ ms) (t + dt) clock)
    | Err e => (Exc e, mkWorld f (out ++ ms) (t + dt) clock)
    end.
Proof.
  intros Y. revert fuel db tb tx out.
  induction Y as [g t ms dt Hs | g t e ms dt Hs | g t x g' ms dt rest fin Hs Y IH];
    intros [|fuel] db tb tx out Hf Ht; cbn [List.length] in Hf; try lia;
    cbn [load_rows l_run]; unfold bind at 1; rewrite Hs.
  - reflexivity.
  - reflexivity.
  - cbn iota. unfold bind at 1. rewrite print_run. unfold bind at 1. unfold query.
    rewrite (execute_insert _ db _ tb) by (reflexivity || exact Ht).
    cbn [c_path w_fs w_out w_tick w_clock].
    destruct (insert_into "users" tb users_cols (values x)) as [tb1|e] eqn:E1;
      [|rewrite <- app_assoc; reflexivity].
    rewrite (IH fuel _ tb1) by (lia || apply db_table_set_eq).
    destruct (l_run tb1 rest fin) as [[ms' dt'] [tb'|e]] eqn:El;
      rewrite <- !app_assoc, <- Nat.add_assoc; [|reflexivity].
    do 3 f_equal; [|destruct rest; reflexivity]. destruct rest as [|[[y m] d] rest].
    + apply l_run_nil in El. subst. reflexivity.
    + cbn [items map db_after]. rewrite set_table_twice. reflexivity.
Qed.

(** [load_data] over any upstream whose trace is known, with a database
    file holding a [users] table: the exact result. *)
Lemma load_data_yields f clock (g : G) t tr fin p db tb out fuel :
  fs_lookup f p = Some (NDb db) -> db_table db "users" = Some tb ->
  yields f clock g t tr fin -> List.length tr < fuel ->
  load_data fuel g p (mkWorld f out t clock) =
    let '(ms, dt, r) := l_run tb tr fin in
    match r with
    | Val tb' => (Ok tt, mkWorld (fs_after f p db (items tr) tb')
                                 (out ++ MsgLStart :: ms ++ [MsgLFinished]) (t + dt) clock)
    | Err e => (Ok tt, mkWorld f (out ++ MsgLStart :: ms ++ [error_msg e]) (t + dt) clock)
    end.
Proof.
  intros Hp Ht Y Hf. unfold load_data, connect, bind at 1 2. cbn [read_fs w_fs]. rewrite Hp.
  cbn [ret]. unfold try_finally, try_except, with_conn, bind at 1 2 3.
  rewrite print_run. cbn [w_fs w_out w_tick w_clock].
  rewrite (load_rows_yields _ _ _ _ _ _ _ _ _ _ _ _ Y Hf Ht).
  destruct (l_run tb tr fin) as [[ms dt] [tb'|e]]; [|cbn; rewrite <- !app_assoc; reflexivity].
  destruct tr as [|[[x m0] d0] tr]; cbn; rewrite <- !app_assoc; reflexivity.
Qed.
End LoadTrace.

(** ** Termination *)

Lemma execute_query_pres c params : fs_pres (execute c query params) /\ fuel_free (execute c query params).
Proof.
  unfold execute, query. destruct (c_db c) as [db|]; [|split; pres_auto].
  destruct (db_table db "users") as [t|]; split; pres_auto.
Qed.

Section Termination.
Context {G : Type} `{GeneratorBound G dict}.

Lemma load_rows_total fuel (g : G) c w w' :
  gen_measure g (w_fs w) < fuel -> load_rows fuel g c w <> (OutOfFuel, w').
Proof.
  revert g c w w'. induction fuel as [|f IH]; intros g c w w' Hf; [lia|].
  cbn [load_rows]. unfold bind at 1.
  destruct (gen_next g w) as [[[[row g']|]|e|] w1] eqn:E; try discriminate.
  - pose proof (gen_next_decr _ _ _ _ _ E) as Hd.
    unfold bind. rewrite print_app.
    destruct (execute c query (values row) (w_app w1 [MsgLInsert row])) as [[c'|e|] w2] eqn:E2;
      try discriminate.
    + apply IH. apply (proj1 (execute_query_pres c (values row))) in E2.
      rewrite E2. simpl. lia.
    + apply (proj2 (execute_query_pres c (values row))) in E2 as [].
  - apply gen_next_no_fuel in E as [].
Qed.

Lemma load_data_no_fuel fuel (g : G) p w w' :
  (forall c w1, connect p w = (Ok c, w1) -> gen_measure g (w_fs w1) < fuel) ->
  load_data fuel g p w <> (OutOfFuel, w').
Proof.
  intros Hm. unfold load_data, bind at 1.
  destruct (connect p w) as [[c|e|] w1] eqn:Ec; try discriminate.
  - specialize (Hm c w1 eq_refl). unfold try_finally, try_except, with_conn, bind.
    rewrite print_app.
    destruct (load_rows fuel g c (w_app w1 [MsgLStart])) as [[c'|e|] w2] eqn:El.
    + destruct (commit c' w2) as [[c''|e|] w3] eqn:Ecm;
        destruct c'; destruct c_in_tx0; cbn in Ecm; try discriminate;
        try (destruct c_db0; discriminate); cbn; discriminate.
    + cbn. discriminate.
    + apply load_rows_total in El as []. exact Hm.
  - unfold connect, bind in Ec. cbn in Ec.
    destruct (fs_lookup (w_fs w) p) as [[[|? ?]|?|]|]; discriminate.
Qed.
End Termination.

(** ** Witnesses *)

Definition ex_db_path : string := "/tmp/users.db".

Definition ex_db : database := [("users"%string, mkTable users_schema [])].

Definition ex_load_world : world :=
  mkWorld [(ex_db_path, NDb ex_db)] [] 0 (fun n => Z.of_nat n + 1700000000000000)%Z.

Definition ex_trow (id : Z) (name email desc : string) (t : Z) : dict :=
  [(KStr "id", VInt id); (KStr "name", VStr name); (KStr "email", VStr email);
   (KStr "description", VStr desc); (KStr "processed_at", VDatetime t)].

Definition ex_good : list dict :=
  [ex_trow 0 "Ann" "a@x.com" "ab12" 1700000000000000; ex_trow 1 "Bo" "b@y.com" "cd34" 1700000000000001].

(** A second row whose surplus fields ([None] key) make six bindings. *)
Definition ex_bad : list dict :=
  [ex_trow 0 "Ann" "a@x.com" "ab12" 1700000000000000;
   ex_trow 1 "Bo" "b@y.com" "cd34" 1700000000000001 ++ [(KNone, VList ["z"%string])]].

Lemma load_data_all_or_nothing_witness :
  load_data 5 (ListGen ex_bad) ex_db_path ex_load_world =
    match insert_all (mkTable users_schema []) ex_bad with
    | Val t' => (Ok tt, mkWorld (fs_after (w_fs ex_load_world) ex_db_path ex_db ex_bad t')
                           (w_out ex_load_world ++ MsgLStart :: map MsgLInsert ex_bad ++ [MsgLFinished])
                           (w_tick ex_load_world) (w_clock ex_load_world))
    | Err (k, e) => (Ok tt, w_app ex_load_world
                              (MsgLStart :: map MsgLInsert (firstn (S k) ex_bad) ++ [error_msg e]))
    end.
Proof. apply load_data_all_or_nothing; [simpl; lia | reflexivity | reflexivity]. Defined.

Lemma load_data_connect_error_witness :
  load_data 3 (ListGen ex_good) "/tmp" (mkWorld [("/tmp"%string, NDir)] [] 0 (fun n => Z.of_nat n))
  = (Exc (SqliteError OperationalError UnableToOpen),
     mkWorld [("/tmp"%string, NDir)] [] 0 (fun n => Z.of_nat n)).
Proof. apply load_data_connect_error. reflexivity. Defined.

End Load.
