(* ===== verification/Csv.v ===== *)
(** * The CSV file: [csv.DictWriter] in [generate_csv], [csv.DictReader] in [extract_users]

    Both use the default [excel] dialect: delimiter [','], quote character
    U+0022 (the double quote), doubled inside quoted fields, QUOTE_MINIMAL, line terminator
    ["\r\n"], no escape character, [skipinitialspace] and [strict] off.

    Writer (CPython [_csv.c], [join_append_data] and [writerow]): a field
    is quoted when it contains the delimiter, the quote character or a
    character of the line terminator; a quote character is doubled; a
    record of one empty field is written as two quote characters.  [DictWriter] writes the
    values of its field names in that order ([restval] [""] for a missing
    key) and raises [ValueError] for a key that is not a field name.

    The file is written in text mode with no newline translation (POSIX)
    and read back with universal newlines: ["\r\n"] and a lone ["\r"]
    become ["\n"], and iteration yields lines that end with ["\n"].

    Reader ([parse_process_char], [Reader_iternext]): the state machine
    over the characters of each line followed by an end-of-line marker,
    with the field size limit (131072 characters).  [DictReader] reads the
    header from the first record, skips empty records, and builds each row
    with [dict(zip(fieldnames, row))], storing surplus fields as a list
    under the key [None] ([restkey]) and [None] ([restval]) for missing
    ones.

    The round trip is proved through [feed_rec], the state machine run
    over the character stream (the end-of-line marker after each line
    feed), which [read_record_feed] relates to the reader over lines;
    the writer's fields are then read back one by one.  Fields holding
    a carriage return are read back translated (CsvNewlines).

    The errors of the reader are found by an invariant over the states a
    DictReader reaches from a file ([reader_reachable]): its lines never
    hold a carriage return, and a line feed only ends a line. *)

From Stdlib Require Import List String Ascii Bool ZArith Lia.
From S2P Require Import Prelude PyStr PyObj Datetime.
Import ListNotations.
Local Open Scope etl_scope.

Module Csv.
Import PyObj.

Definition delimiter : ascii := ","%char.
Definition quotechar : ascii := ascii_of_nat 34.
Definition cr : ascii := ascii_of_nat 13.
Definition lf : ascii := ascii_of_nat 10.

(** ** Writer *)

Definition special (c : ascii) : bool :=
  Ascii.eqb c delimiter || Ascii.eqb c quotechar || Ascii.eqb c cr || Ascii.eqb c lf.

Fixpoint needs_quotes (s : string) : bool :=
  match s with
  | EmptyString => false
  | String c r => special c || needs_quotes r
  end.

Fixpoint double_quotes (s : string) : string :=
  match s with
  | EmptyString => EmptyString
  | String c r =>
      if Ascii.eqb c quotechar then String c (String c (double_quotes r))
      else String c (double_quotes r)
  end.

Definition quote_field (s : string) : string :=
  if needs_quotes s then String quotechar (double_quotes s ++ String quotechar EmptyString)
  else s.

Fixpoint join_sep (sep : string) (l : list string) : string :=
  match l with
  | [] => EmptyString
  | [x] => x
  | x :: r => x ++ sep ++ join_sep sep r
  end.

(** [writer.writerow(fields)] for fields already converted to [str]. *)
Definition write_record (fields : list string) : string :=
  let body := match fields with
              | [EmptyString] => String quotechar (String quotechar EmptyString)
              | _ => join_sep (String delimiter EmptyString) (map quote_field fields)
              end in
  body ++ String cr (String lf EmptyString).

(** [str(list)] for a list of strings, as [repr] renders it when the
    strings hold no quote, backslash or control character. *)
Definition list_repr (l : list string) : string :=
  ("[" ++ join_sep ", " (map (fun s => "'" ++ s ++ "'") l) ++ "]")%string.

(** The text the writer stores for one value: [None] is empty, a [str]
    itself, anything else [str(value)]. *)
Definition field_text (v : value) : res exn string :=
  match v with
  | VNone => Val EmptyString
  | VStr s => Val s
  | VInt z => rmap_err ValueErrorStr (PyStr.str_of_int z)
  | VDatetime t => Val (Datetime.isoformat_utc t)
  | VList l => Val (list_repr l)
  end.

Fixpoint map_res {A B} (f : A -> res exn B) (l : list A) : res exn (list B) :=
  match l with
  | [] => Val []
  | x :: r => y <-? f x ;; ys <-? map_res f r ;; Val (y :: ys)
  end.

(** [DictWriter._dict_to_list]: extra keys raise; missing keys give
    [restval = ""]. *)
Definition dict_to_list (fieldnames : list string) (row : dict) : res exn (list value) :=
  let wrong := filter (fun k => negb (existsb (key_eqb k) (map KStr fieldnames))) (keys row) in
  match wrong with
  | [] => Val (map (fun f => get row (KStr f) (VStr EmptyString)) fieldnames)
  | _ => Err (ValueErrorFields wrong)
  end.

(** [DictWriter.writerow(row)]: the text appended to the file. *)
Definition dict_writerow (fieldnames : list string) (row : dict) : res exn string :=
  vs <-? dict_to_list fieldnames row ;;
  fs <-? map_res field_text vs ;;
  Val (write_record fs).

(** [DictWriter.writeheader()]. *)
Definition writeheader (fieldnames : list string) : res exn string :=
  dict_writerow fieldnames (dict_of_pairs (map (fun f => (KStr f, VStr f)) fieldnames)).

(** ** Reading the file: universal newlines and lines *)

Fixpoint translate_newlines (s : string) : string :=
  match s with
  | EmptyString => EmptyString
  | String c r =>
      if Ascii.eqb c cr then
        match r with
        | String c' r' => if Ascii.eqb c' lf then String lf (translate_newlines r')
                          else String lf (translate_newlines r)
        | EmptyString => String lf EmptyString
        end
      else String c (translate_newlines r)
  end.

Fixpoint rev_string (acc : string) (l : list ascii) : string :=
  match l with
  | [] => acc
  | c :: r => rev_string (String c acc) r
  end.

(** Iterating over a text file: lines ending with ["\n"], and a last
    line without it when the text does not end with one.  [cur] holds the
    characters of the current line, last first. *)
Fixpoint lines_from (s : string) (cur : list ascii) : list string :=
  match s with
  | EmptyString => match cur with [] => [] | _ => [rev_string EmptyString cur] end
  | String c r =>
      if Ascii.eqb c lf then rev_string EmptyString (c :: cur) :: lines_from r []
      else lines_from r (c :: cur)
  end.

Definition file_lines (contents : string) : list string :=
  lines_from (translate_newlines contents) [].

(** ** Reader state machine *)

Inductive pstate : Type :=
| START_RECORD | START_FIELD | IN_FIELD | IN_QUOTED_FIELD | QUOTE_IN_QUOTED_FIELD | EAT_CRNL.

Inductive input : Type := Ch (c : ascii) | EOL.

Record parser : Type := mkParser {
  p_state : pstate;
  p_field : list ascii;       (** the current field, last character first *)
  p_field_len : nat;
  p_fields : list string      (** the fields saved so far, in order *)
}.

Definition field_limit : nat := 131072.

Definition parser_reset : parser := mkParser START_RECORD [] 0 [].

Definition set_state (p : parser) (s : pstate) : parser :=
  mkParser s (p_field p) (p_field_len p) (p_fields p).

(** [parse_add_char] *)
Definition add_char (p : parser) (c : ascii) : res exn parser :=
  if field_limit <=? p_field_len p then Err (CsvError (FieldLimit field_limit))
  else Val (mkParser (p_state p) (c :: p_field p) (S (p_field_len p)) (p_fields p)).

(** [parse_save_field] *)
Definition save_field (p : parser) : parser :=
  mkParser (p_state p) [] 0 (p_fields p ++ [rev_string EmptyString (p_field p)]).

Definition is_newline (i : input) : bool :=
  match i with Ch c => Ascii.eqb c lf || Ascii.eqb c cr | EOL => false end.

Definition is_char (i : input) (c : ascii) : bool :=
  match i with Ch c' => Ascii.eqb c' c | EOL => false end.

Definition is_eol (i : input) : bool := match i with EOL => true | _ => false end.

(** The state after the end of a record: [START_RECORD] at the
    end-of-line marker, [EAT_CRNL] at a newline character. *)
Definition end_state (i : input) : pstate := if is_eol i then START_RECORD else EAT_CRNL.

Definition start_field (p : parser) (i : input) : res exn parser :=
  if is_newline i || is_eol i then Val (set_state (save_field p) (end_state i))
  else if is_char i quotechar then Val (set_state p IN_QUOTED_FIELD)
  else if is_char i delimiter then Val (set_state (save_field p) START_FIELD)
  else match i with
       | Ch c => add_char (set_state p IN_FIELD) c
       | EOL => Val p
       end.

(** [parse_process_char] *)
Definition process (p : parser) (i : input) : res exn parser :=
  match p_state p with
  | START_RECORD =>
      if is_eol i then Val p
      else if is_newline i then Val (set_state p EAT_CRNL)
      else start_field (set_state p START_FIELD) i
  | START_FIELD => start_field p i
  | IN_FIELD =>
      if is_newline i || is_eol i then Val (set_state (save_field p) (end_state i))
      else if is_char i delimiter then Val (set_state (save_field p) START_FIELD)
      else match i with Ch c => add_char p c | EOL => Val p end
  | IN_QUOTED_FIELD =>
      if is_eol i then Val p
      else if is_char i quotechar then Val (set_state p QUOTE_IN_QUOTED_FIELD)
      else match i with Ch c => add_char p c | EOL => Val p end
  | QUOTE_IN_QUOTED_FIELD =>
      match i with
      | Ch c =>
          if Ascii.eqb c quotechar then add_char (set_state p IN_QUOTED_FIELD) c
          else if Ascii.eqb c delimiter then Val (set_state (save_field p) START_FIELD)
          else if is_newline i then Val (set_state (save_field p) EAT_CRNL)
          else add_char (set_state p IN_FIELD) c
      | EOL => Val (set_state (save_field p) START_RECORD)
      end
  | EAT_CRNL =>
      if is_newline i then Val p
      else if is_eol i then Val (set_state p START_RECORD)
      else Err (CsvError NewlineInUnquoted)
  end.

Fixpoint process_chars (p : parser) (s : string) : res exn parser :=
  match s with
  | EmptyString => Val p
  | String c r => p' <-? process p (Ch c) ;; process_chars p' r
  end.

(** One line of [Reader_iternext]: its characters, then the marker. *)
Definition process_line (p : parser) (l : string) : res exn parser :=
  p' <-? process_chars p l ;; process p' EOL.

(** [next(reader)]: [None] is StopIteration; otherwise the record and the
    lines left.  At the end of the file a pending field (or an open
    quoted field) is saved and returned. *)
Fixpoint read_record (p : parser) (lines : list string)
  : res exn (option (list string * list string)) :=
  match lines with
  | [] =>
      if (0 <? p_field_len p) || match p_state p with IN_QUOTED_FIELD => true | _ => false end
      then Val (Some (p_fields (save_field p), []))
      else Val None
  | l :: rest =>
      p' <-? process_line p l ;;
      match p_state p' with
      | START_RECORD => Val (Some (p_fields p', rest))
      | _ => read_record p' rest
      end
  end.

Definition reader_next (lines : list string) : res exn (option (list string * list string)) :=
  read_record parser_reset lines.

(** ** DictReader *)

Inductive dict_reader : Type :=
| DRFresh (lines : list string)                        (** header not read yet *)
| DRReady (fieldnames : list string) (lines : list string).

(** [while row == []: row = next(self.reader)], with fuel; the caller
    gives one more than the number of lines, which is enough (each
    record consumes a line). *)
Fixpoint next_nonempty (fuel : nat) (lines : list string)
  : res exn (option (list string * list string)) :=
  match fuel with
  | 0 => Val None
  | S f =>
      r <-? reader_next lines ;;
      match r with
      | Some ([], rest) => next_nonempty f rest
      | _ => Val r
      end
  end.

(** [dict(zip(fieldnames, row))] with [restkey] and [restval]. *)
Definition make_row (fieldnames row : list string) : dict :=
  let d := dict_of_pairs (combine (map KStr fieldnames) (map VStr row)) in
  let lf := List.length fieldnames in
  let lr := List.length row in
  if lf <? lr then setitem d KNone (VList (skipn lf row))
  else if lr <? lf then fold_left (fun d k => setitem d (KStr k) VNone) (skipn lr fieldnames) d
  else d.

Definition rows_next (fieldnames : list string) (lines : list string)
  : res exn (option (dict * dict_reader)) :=
  r <-? next_nonempty (S (List.length lines)) lines ;;
  match r with
  | None => Val None
  | Some (row, rest) => Val (Some (make_row fieldnames row, DRReady fieldnames rest))
  end.

(** [DictReader.__next__] *)
Definition dict_reader_next (dr : dict_reader) : res exn (option (dict * dict_reader)) :=
  match dr with
  | DRReady fns lines => rows_next fns lines
  | DRFresh lines =>
      h <-? reader_next lines ;;
      match h with
      | None => Val None
      | Some (fns, rest) => rows_next fns rest
      end
  end.

(** The text of several [writerow] calls. *)
Definition records_text (rs : list (list string)) : string := PyStr.join (map write_record rs).

(** The lines a DictReader has left to read: what bounds its run. *)
Definition dr_measure (dr : dict_reader) : nat :=
  match dr with DRFresh lines | DRReady _ lines => List.length lines end.

(** ** Round trip of the writer and the reader *)

(** The reader run over a character stream instead of lines: the
    end-of-line marker follows each line feed, and the record ends at the
    first line end reached in state [START_RECORD].  [read_record_feed]
    relates it to [read_record] over the lines of the stream. *)
Fixpoint feed_rec (p : parser) (s : string) : res exn (option (list string * string)) :=
  match s with
  | EmptyString => Val None
  | String c r =>
      p1 <-? process p (Ch c) ;;
      if Ascii.eqb c lf then
        p2 <-? process p1 EOL ;;
        match p_state p2 with
        | START_RECORD => Val (Some (p_fields p2, r))
        | _ => feed_rec p2 r
        end
      else feed_rec p1 r
  end.

Definition no_cr (s : string) : bool := PyStr.all_chars (fun c => negb (Ascii.eqb c cr)) s.

(** A field the reader gives back as written: no carriage return (the
    file is read with universal newlines) and within the field limit. *)
Definition field_ok (f : string) : bool := no_cr f && (String.length f <=? field_limit).

(** A record the DictReader yields as written: not empty (an empty record
    is a blank line, which it skips) and of fields it reads back. *)
Definition record_ok (r : list string) : bool :=
  match r with [] => false | _ => forallb field_ok r end.

(** A parser in state [st] holding the reversed characters [cur] of the
    current field and the saved fields [acc]. *)
Definition pat (st : pstate) (cur : list ascii) (acc : list string) : parser :=
  mkParser st cur (List.length cur) acc.

(** The parser after the text [quote_field f] of a field, started in
    state [st] ([START_RECORD] or [START_FIELD]): in a quoted field after
    its closing quote, in an unquoted field, or unchanged for an empty
    unquoted field. *)
Definition after_field (st : pstate) (f : string) (acc : list string) : parser :=
  if needs_quotes f then pat QUOTE_IN_QUOTED_FIELD (rev (list_ascii_of_string f)) acc
  else match f with
       | EmptyString => pat st [] acc
       | String _ _ => pat IN_FIELD (rev (list_ascii_of_string f)) acc
       end.

Lemma string_of_list_ascii_app (a b : list ascii) :
  string_of_list_ascii (a ++ b) = (string_of_list_ascii a ++ string_of_list_ascii b)%string.
Proof. induction a as [|c a IH]; simpl; [reflexivity|]. rewrite IH. reflexivity. Qed.

Lemma rev_string_spec acc l : rev_string acc l = (string_of_list_ascii (rev l) ++ acc)%string.
Proof.
  revert acc. induction l as [|c l IH]; intros acc; simpl; [reflexivity|].
  rewrite IH, string_of_list_ascii_app, PyStr.str_app_assoc. reflexivity.
Qed.

Lemma rev_string_field (f : string) :
  rev_string EmptyString (rev (list_ascii_of_string f)) = f.
Proof.
  rewrite rev_string_spec, rev_involutive, PyStr.str_app_nil_r.
  apply string_of_list_ascii_of_string.
Qed.

Lemma process_chars_app p a b :
  process_chars p (a ++ b) = (p' <-? process_chars p a ;; process_chars p' b).
Proof.
  revert p. induction a as [|c a IH]; intros p; simpl; [reflexivity|].
  destruct (process p (Ch c)); simpl; [apply IH | reflexivity].
Qed.

(** Reading lines is reading the stream: a record that [feed_rec] finds
    at a line feed is the record [read_record] returns, with the lines of
    the rest left over.  [cur] is the part of the current line already
    fed to the parser. *)
Lemma read_record_feed s cur p0 p fs r :
  process_chars p0 (string_of_list_ascii (rev cur)) = Val p ->
  feed_rec p s = Val (Some (fs, r)) ->
  read_record p0 (lines_from s cur) = Val (Some (fs, lines_from r [])).
Proof.
  revert cur p0 p. induction s as [|c s IH]; intros cur p0 p Hp Hf; simpl in Hf; [discriminate|].
  destruct (process p (Ch c)) as [p1|e] eqn:E; [|discriminate]. simpl in Hf. cbn [lines_from].
  assert (Hp1 : process_chars p0 (string_of_list_ascii (rev (c :: cur))) = Val p1).
  { simpl. rewrite string_of_list_ascii_app, process_chars_app, Hp. simpl. rewrite E. reflexivity. }
  destruct (Ascii.eqb c lf); [|exact (IH _ _ _ Hp1 Hf)].
  cbn [read_record]. unfold process_line. rewrite rev_string_spec, PyStr.str_app_nil_r, Hp1.
  simpl.
  destruct (process p1 EOL) as [p2|e]; [|discriminate]. simpl in Hf |- *.
  destruct (p_state p2); try (injection Hf as <- <-; reflexivity);
    apply (IH [] p2 p2 eq_refl Hf).
Qed.

Lemma translate_no_cr a s :
  no_cr a = true -> translate_newlines (a ++ s) = (a ++ translate_newlines s)%string.
Proof.
  induction a as [|c a IH]; intros H; simpl; [reflexivity|].
  unfold no_cr in H. simpl in H. apply andb_prop in H as [Hc Ha].
  apply negb_true_iff in Hc. rewrite Hc, IH by exact Ha. reflexivity.
Qed.

Lemma field_limit_pos : 0 < field_limit.
Proof. apply Nat.ltb_lt. vm_compute. reflexivity. Qed.

Lemma special_false c :
  special c = false ->
  Ascii.eqb c delimiter = false /\ Ascii.eqb c quotechar = false /\
  Ascii.eqb c cr = false /\ Ascii.eqb c lf = false.
Proof. unfold special. rewrite !orb_false_iff. tauto. Qed.

Lemma add_char_pat st cur acc c :
  List.length cur < field_limit -> add_char (pat st cur acc) c = Val (pat st (c :: cur) acc).
Proof.
  intros H. unfold add_char. cbn [pat p_field_len p_state p_field p_fields].
  destruct (field_limit <=? List.length cur) eqn:E; [apply Nat.leb_le in E; lia | reflexivity].
Qed.

Lemma process_plain_in_field cur acc c :
  special c = false -> List.length cur < field_limit ->
  process (pat IN_FIELD cur acc) (Ch c) = Val (pat IN_FIELD (c :: cur) acc).
Proof.
  intros Hs Hl. destruct (special_false c Hs) as (H1 & _ & H3 & H4).
  unfold process, is_newline, is_eol, is_char. cbn [p_state pat]. rewrite H1, H3, H4.
  apply add_char_pat, Hl.
Qed.

Lemma process_plain_start st acc c :
  st = START_RECORD \/ st = START_FIELD -> special c = false ->
  process (pat st [] acc) (Ch c) = Val (pat IN_FIELD [c] acc).
Proof.
  intros Hst Hs. destruct (special_false c Hs) as (H1 & H2 & H3 & H4).
  assert (Hl : List.length (@nil ascii) < field_limit) by exact field_limit_pos.
  destruct Hst as [-> | ->]; unfold process, start_field, is_newline, is_eol, is_char;
    cbn [p_state pat set_state]; rewrite H1, H2, H3, H4; apply (add_char_pat IN_FIELD [] acc c Hl).
Qed.

Lemma process_plain_in_quoted cur acc c :
  Ascii.eqb c quotechar = false -> List.length cur < field_limit ->
  process (pat IN_QUOTED_FIELD cur acc) (Ch c) = Val (pat IN_QUOTED_FIELD (c :: cur) acc).
Proof.
  intros Hq Hl. unfold process, is_eol, is_char. cbn [p_state pat]. rewrite Hq.
  apply add_char_pat, Hl.
Qed.

Lemma process_quote_in_quoted cur acc :
  process (pat IN_QUOTED_FIELD cur acc) (Ch quotechar) = Val (pat QUOTE_IN_QUOTED_FIELD cur acc).
Proof. reflexivity. Qed.

Lemma process_quote_quote cur acc :
  process (pat QUOTE_IN_QUOTED_FIELD cur acc) (Ch quotechar) =
    add_char (pat IN_QUOTED_FIELD cur acc) quotechar.
Proof. reflexivity. Qed.

Lemma rev_string_cons c s cur :
  (rev (list_ascii_of_string s) ++ c :: cur) = rev (list_ascii_of_string (String c s)) ++ cur.
Proof. simpl. rewrite <- app_assoc. reflexivity. Qed.

(** The characters of an unquoted field. *)
Lemma feed_unquoted s cur acc k :
  needs_quotes s = false -> List.length cur + String.length s <= field_limit ->
  feed_rec (pat IN_FIELD cur acc) (s ++ k) =
    feed_rec (pat IN_FIELD (rev (list_ascii_of_string s) ++ cur) acc) k.
Proof.
  revert cur. induction s as [|c s IH]; intros cur Hq Hl; [reflexivity|].
  cbn [needs_quotes] in Hq. apply orb_false_iff in Hq as [Hc Hq].
  cbn [append feed_rec]. rewrite process_plain_in_field by (exact Hc || (simpl in Hl; lia)).
  destruct (special_false c Hc) as (_ & _ & _ & ->). cbn [rbind].
  rewrite IH, rev_string_cons by (exact Hq || (simpl in Hl |- *; lia)). reflexivity.
Qed.

(** The characters of a quoted field, quotes doubled; a line feed in
    it ends a line without ending the record. *)
Lemma feed_quoted s cur acc k :
  no_cr s = true -> List.length cur + String.length s <= field_limit ->
  feed_rec (pat IN_QUOTED_FIELD cur acc) (double_quotes s ++ k) =
    feed_rec (pat IN_QUOTED_FIELD (rev (list_ascii_of_string s) ++ cur) acc) k.
Proof.
  revert cur. induction s as [|c s IH]; intros cur Hcr Hl; [reflexivity|].
  unfold no_cr in Hcr. cbn [PyStr.all_chars] in Hcr. apply andb_prop in Hcr as [Hc Hcr].
  cbn [String.length] in Hl. rewrite <- rev_string_cons.
  cbn [double_quotes]. destruct (Ascii.eqb c quotechar) eqn:Hq.
  - apply Ascii.eqb_eq in Hq. subst c. cbn [append feed_rec].
    rewrite process_quote_in_quoted. cbn [rbind]. change (Ascii.eqb quotechar lf) with false.
    cbn iota. cbn [feed_rec]. rewrite process_quote_quote, add_char_pat by lia. cbn [rbind].
    change (Ascii.eqb quotechar lf) with false. cbn iota. apply IH; [exact Hcr | simpl; lia].
  - cbn [append feed_rec]. rewrite process_plain_in_quoted by (exact Hq || lia). cbn [rbind].
    destruct (Ascii.eqb c lf); [cbn [process rbind p_state pat is_eol] |];
      (apply IH; [exact Hcr | simpl; lia]).
Qed.

Lemma join_sep_cons2 sep x y l : join_sep sep (x :: y :: l) = (x ++ sep ++ join_sep sep (y :: l))%string.
Proof. reflexivity. Qed.

Lemma process_open_quote st acc :
  st = START_RECORD \/ st = START_FIELD ->
  process (pat st [] acc) (Ch quotechar) = Val (pat IN_QUOTED_FIELD [] acc).
Proof. intros [-> | ->]; reflexivity. Qed.

(** One field, quoted as the writer quotes it. *)
Lemma feed_field st f acc k :
  st = START_RECORD \/ st = START_FIELD -> field_ok f = true ->
  feed_rec (pat st [] acc) (quote_field f ++ k) = feed_rec (after_field st f acc) k.
Proof.
  intros Hst Hok. unfold field_ok in Hok. apply andb_prop in Hok as [Hcr Hlen].
  apply Nat.leb_le in Hlen. unfold quote_field, after_field. destruct (needs_quotes f) eqn:Hq.
  - cbn [append feed_rec]. rewrite process_open_quote by exact Hst. cbn [rbind].
    change (Ascii.eqb quotechar lf) with false. cbn iota.
    rewrite PyStr.str_app_assoc, feed_quoted, app_nil_r by (exact Hcr || (simpl; lia)).
    cbn [append feed_rec]. rewrite process_quote_in_quoted. reflexivity.
  - destruct f as [|c f']; [reflexivity|]. cbn [needs_quotes] in Hq.
    apply orb_false_iff in Hq as [Hc Hq]. cbn [append feed_rec].
    rewrite process_plain_start by assumption. cbn [rbind].
    destruct (special_false c Hc) as (_ & _ & _ & ->). cbn iota.
    rewrite feed_unquoted by (exact Hq || (simpl in Hlen |- *; lia)).
    rewrite rev_string_cons, app_nil_r. reflexivity.
Qed.

(** The delimiter after a field saves it. *)
Lemma feed_sep st f acc k :
  st = START_RECORD \/ st = START_FIELD ->
  feed_rec (after_field st f acc) (String delimiter k) = feed_rec (pat START_FIELD [] (acc ++ [f])) k.
Proof.
  intros Hst.
  assert (E : forall st' cur, st' = IN_FIELD \/ st' = QUOTE_IN_QUOTED_FIELD ->
            feed_rec (pat st' cur acc) (String delimiter k) =
            feed_rec (pat START_FIELD [] (acc ++ [rev_string EmptyString cur])) k)
    by (intros st' cur [-> | ->]; reflexivity).
  unfold after_field. destruct (needs_quotes f).
  - rewrite (E _ _ (or_intror eq_refl)), rev_string_field. reflexivity.
  - destruct f as [|c f']; [destruct Hst as [-> | ->]; reflexivity|].
    rewrite (E _ _ (or_introl eq_refl)), rev_string_field. reflexivity.
Qed.

(** The line feed after the last field saves it and ends the record. *)
Lemma feed_end st f acc k :
  st = START_FIELD \/ (st = START_RECORD /\ f <> EmptyString) ->
  feed_rec (after_field st f acc) (String lf k) = Val (Some (acc ++ [f], k)).
Proof.
  intros Hst.
  assert (E : forall st' cur, st' = IN_FIELD \/ st' = QUOTE_IN_QUOTED_FIELD ->
            feed_rec (pat st' cur acc) (String lf k) =
            Val (Some (acc ++ [rev_string EmptyString cur], k)))
    by (intros st' cur [-> | ->]; reflexivity).
  unfold after_field. destruct (needs_quotes f).
  - rewrite (E _ _ (or_intror eq_refl)), rev_string_field. reflexivity.
  - destruct f as [|c f'].
    + destruct Hst as [-> | [_ []]]; reflexivity.
    + rewrite (E _ _ (or_introl eq_refl)), rev_string_field. reflexivity.
Qed.

(** The fields of a record, separated by the delimiter and ended by a
    line feed, are read back in order. *)
Lemma feed_fields fs f st acc k :
  Forall (fun x => field_ok x = true) (f :: fs) ->
  st = START_FIELD \/ (st = START_RECORD /\ (f <> EmptyString \/ fs <> [])) ->
  feed_rec (pat st [] acc)
    (join_sep (String delimiter EmptyString) (map quote_field (f :: fs)) ++ String lf k) =
  Val (Some (acc ++ f :: fs, k)).
Proof.
  revert f st acc. induction fs as [|g fs IH]; intros f st acc Hok Hst; inv Hok.
  - cbn [map join_sep]. rewrite feed_field, feed_end by (assumption || tauto).
    reflexivity.
  - cbn [map]. rewrite join_sep_cons2, PyStr.str_app_assoc. cbn [append].
    rewrite feed_field, feed_sep by (assumption || tauto).
    replace (acc ++ f :: g :: fs) with ((acc ++ [f]) ++ g :: fs) by (rewrite <- app_assoc; reflexivity).
    apply IH; [assumption | tauto].
Qed.

Lemma no_cr_app a b : no_cr (a ++ b) = no_cr a && no_cr b.
Proof.
  induction a as [|c a IH]; [reflexivity|]. unfold no_cr in *. cbn [append PyStr.all_chars].
  rewrite IH, andb_assoc. reflexivity.
Qed.

Lemma no_cr_double_quotes s : no_cr (double_quotes s) = no_cr s.
Proof.
  induction s as [|c s IH]; [reflexivity|]. cbn [double_quotes].
  destruct (Ascii.eqb c quotechar) eqn:E; unfold no_cr in *; cbn [PyStr.all_chars]; rewrite IH;
    [apply Ascii.eqb_eq in E; subst c|]; reflexivity.
Qed.

Lemma no_cr_quote_field s : no_cr (quote_field s) = no_cr s.
Proof.
  unfold quote_field. destruct (needs_quotes s); [|reflexivity].
  change (no_cr (String quotechar (double_quotes s ++ String quotechar EmptyString)))
    with (no_cr (double_quotes s ++ String quotechar EmptyString)).
  rewrite no_cr_app, no_cr_double_quotes, andb_true_r. reflexivity.
Qed.

Lemma no_cr_join fs :
  forallb no_cr fs = true -> no_cr (join_sep (String delimiter EmptyString) (map quote_field fs)) = true.
Proof.
  induction fs as [|f fs IH]; intros H; [reflexivity|]. cbn [forallb] in H.
  apply andb_prop in H as [Hf H]. destruct fs as [|g fs].
  - cbn [map join_sep]. rewrite no_cr_quote_field. exact Hf.
  - cbn [map]. rewrite join_sep_cons2, no_cr_app, no_cr_quote_field, Hf. exact (IH H).
Qed.

Lemma reader_next_feed body rest fs :
  no_cr body = true ->
  feed_rec parser_reset (body ++ String lf (translate_newlines rest)) =
    Val (Some (fs, translate_newlines rest)) ->
  reader_next (file_lines ((body ++ String cr (String lf EmptyString)) ++ rest)) =
    Val (Some (fs, file_lines rest)).
Proof.
  intros Hb Hf. unfold reader_next, file_lines.
  rewrite PyStr.str_app_assoc, translate_no_cr by exact Hb.
  change (translate_newlines (String cr (String lf EmptyString) ++ rest))
    with (String lf (translate_newlines rest)).
  exact (read_record_feed _ [] parser_reset parser_reset _ _ eq_refl Hf).
Qed.

Lemma field_ok_Forall fs : forallb field_ok fs = true -> Forall (fun x => field_ok x = true) fs.
Proof. intros H. apply Forall_forall. intros x Hx. exact (proj1 (forallb_forall _ _) H x Hx). Qed.

Lemma field_ok_no_cr fs : forallb field_ok fs = true -> forallb no_cr fs = true.
Proof.
  induction fs as [|f fs IH]; intros H; [reflexivity|]. cbn [forallb] in H |- *.
  unfold field_ok in H. apply andb_prop in H as [H1 H2]. apply andb_prop in H1 as [-> _].
  exact (IH H2).
Qed.

(** C2: the reader gives back what the writer wrote: the text of one
    [writerow] call, followed by anything, is read as the same list of
    fields, leaving the lines of what follows -- for fields without a
    carriage return and within the field size limit (including the
    empty record and the record of one empty field). *)
Theorem read_write_record fs rest :
  forallb field_ok fs = true ->
  reader_next (file_lines (write_record fs ++ rest)) = Val (Some (fs, file_lines rest)).
Proof.
  intros Hok. unfold write_record. apply reader_next_feed.
  - destruct fs as [|[|c f] [|g fs]]; try reflexivity; apply no_cr_join, field_ok_no_cr, Hok.
  - apply field_ok_Forall in Hok.
    destruct fs as [|[|c f] [|g fs]]; try reflexivity;
      apply (feed_fields _ _ START_RECORD []).
    all: first [assumption | right; split; [reflexivity | first [left; discriminate | right; discriminate]]].
Qed.

Lemma rows_next_end fns : rows_next fns (file_lines (records_text [])) = Val None.
Proof. reflexivity. Qed.

(** The header is the first record. *)
Lemma dict_reader_fresh fns rest :
  forallb field_ok fns = true ->
  dict_reader_next (DRFresh (file_lines (write_record fns ++ rest))) = rows_next fns (file_lines rest).
Proof. intros H. cbn [dict_reader_next]. rewrite read_write_record by exact H. reflexivity. Qed.

(** ** Each record consumes a line *)

Lemma read_record_len p lines r rest :
  read_record p lines = Val (Some (r, rest)) -> List.length rest <= List.length lines.
Proof.
  revert p. induction lines as [|l ls IH]; intros p H; cbn [read_record] in H.
  - destruct (_ || _)%bool; [injection H as _ <-; reflexivity | discriminate].
  - destruct (process_line p l) as [p'|e]; cbn [rbind] in H; [|discriminate].
    destruct (p_state p'); try (injection H as _ <-; cbn; lia); apply IH in H; cbn; lia.
Qed.

Lemma reader_next_len lines r rest :
  reader_next lines = Val (Some (r, rest)) -> List.length rest < List.length lines.
Proof.
  unfold reader_next. destruct lines as [|l ls]; [discriminate|]. cbn [read_record].
  destruct (process_line parser_reset l) as [p'|e]; cbn [rbind]; [|discriminate].
  destruct (p_state p'); intros H; try (injection H as _ <-; cbn; lia);
    apply read_record_len in H; cbn; lia.
Qed.

Lemma next_nonempty_len fuel lines r rest :
  next_nonempty fuel lines = Val (Some (r, rest)) -> List.length rest < List.length lines.
Proof.
  revert lines. induction fuel as [|f IH]; intros lines H; cbn [next_nonempty] in H; [discriminate|].
  destruct (reader_next lines) as [[[r0 rest0]|]|e] eqn:E; cbn [rbind] in H; try discriminate.
  apply reader_next_len in E. destruct r0; [apply IH in H; lia | injection H as _ <-; exact E].
Qed.

Lemma rows_next_decr fns lines d dr' :
  rows_next fns lines = Val (Some (d, dr')) -> dr_measure dr' < List.length lines.
Proof.
  unfold rows_next. destruct (next_nonempty _ lines) as [[[row rest]|]|e] eqn:E; cbn [rbind];
    try discriminate.
  intros H. injection H as _ <-. apply next_nonempty_len in E. exact E.
Qed.

(** A DictReader that yields a row has fewer lines left. *)
Lemma dict_reader_next_decr dr d dr' :
  dict_reader_next dr = Val (Some (d, dr')) -> dr_measure dr' < dr_measure dr.
Proof.
  destruct dr as [lines | fns lines]; cbn [dict_reader_next dr_measure]; [|apply rows_next_decr].
  destruct (reader_next lines) as [[[fns rest]|]|e] eqn:E; cbn [rbind]; try discriminate.
  intros H. apply rows_next_decr in H. apply reader_next_len in E. lia.
Qed.

(** ** The errors of the reader on a file

    A file is read in text mode: [file_lines] cuts its translated text
    into lines that hold no carriage return and end with at most one line
    feed.  On such lines the reader never reaches the ["new-line
    character seen in unquoted field"] error (a line feed is always the
    last character of its line), and the DictReader never checks the
    number of fields: the one error it can raise is the field size
    limit. *)

Definition plain_char (c : ascii) : bool := negb (Ascii.eqb c lf) && negb (Ascii.eqb c cr).

Definition line_ok (l : string) : Prop :=
  exists b, PyStr.all_chars plain_char b = true /\ (l = b \/ l = (b ++ String lf EmptyString)%string).

Definition dr_lines (dr : dict_reader) : list string :=
  match dr with DRFresh lines | DRReady _ lines => lines end.

(** The states a DictReader over the file holding [s] goes through. *)
Inductive reader_reachable (s : string) : dict_reader -> Prop :=
| rr_init : reader_reachable s (DRFresh (file_lines s))
| rr_step dr row dr' :
    reader_reachable s dr -> dict_reader_next dr = Val (Some (row, dr')) -> reader_reachable s dr'.

Definition field_limit_error : exn := CsvError (FieldLimit field_limit).

Lemma translate_newlines_no_cr n s : String.length s <= n -> no_cr (translate_newlines s) = true.
Proof.
  revert s. induction n as [|n IH]; intros [|c r] Hl; cbn in Hl; try lia; [reflexivity|reflexivity|].
  cbn [translate_newlines]. destruct (Ascii.eqb c cr) eqn:Ec.
  - destruct r as [|c' r']; [reflexivity|]. cbn in Hl.
    destruct (Ascii.eqb c' lf); unfold no_cr; cbn [PyStr.all_chars]; [apply IH; lia|].
    apply IH. cbn. lia.
  - unfold no_cr. cbn [PyStr.all_chars]. rewrite Ec. apply IH. lia.
Qed.

Lemma plain_rev l :
  PyStr.all_chars plain_char (string_of_list_ascii (rev l)) = forallb plain_char l.
Proof.
  assert (H : forall l, PyStr.all_chars plain_char (string_of_list_ascii l) = forallb plain_char l)
    by (induction l0 as [|c l0 IH]; cbn; [reflexivity | rewrite IH; reflexivity]).
  rewrite H. induction l as [|c l IH]; [reflexivity|]. cbn [rev forallb].
  rewrite forallb_app, IH. cbn. rewrite andb_true_r, andb_comm. reflexivity.
Qed.

Lemma lines_from_ok t cur :
  no_cr t = true -> forallb plain_char cur = true -> Forall line_ok (lines_from t cur).
Proof.
  revert cur. induction t as [|c r IH]; intros cur Ht Hc; cbn [lines_from].
  - destruct cur; constructor; [|constructor].
    exists (rev_string EmptyString (a :: cur)). split; [|left; reflexivity].
    rewrite rev_string_spec, PyStr.str_app_nil_r, plain_rev. exact Hc.
  - unfold no_cr in Ht. cbn [PyStr.all_chars] in Ht. apply andb_prop in Ht as [Hcr Ht].
    destruct (Ascii.eqb c lf) eqn:El.
    + apply Ascii.eqb_eq in El as ->. constructor; [|apply IH; [exact Ht | reflexivity]].
      exists (string_of_list_ascii (rev cur)). rewrite plain_rev. split; [exact Hc|]. right.
      rewrite rev_string_spec, PyStr.str_app_nil_r. cbn [rev]. rewrite string_of_list_ascii_app. reflexivity.
    + apply IH; [exact Ht|]. cbn. unfold plain_char. rewrite El, Hcr. exact Hc.
Qed.

Lemma file_lines_ok s : Forall line_ok (file_lines s).
Proof. apply lines_from_ok; [apply (translate_newlines_no_cr (String.length s)); lia | reflexivity]. Qed.

(** Outside [EAT_CRNL], a character gives no error but the field limit,
    and a character other than a newline does not lead to [EAT_CRNL]. *)
Lemma process_char_ok p c :
  p_state p <> EAT_CRNL ->
  match process p (Ch c) with
  | Val p' => plain_char c = true -> p_state p' <> EAT_CRNL
  | Err e => e = field_limit_error
  end.
Proof.
  intros Hs.
  unfold process, start_field, add_char, plain_char, is_newline, is_char, is_eol, end_state, field_limit_error.
  generalize field_limit as L. intros L.
  destruct (p_state p); [| | | | |contradiction];
    repeat match goal with
           | |- context [Ascii.eqb c ?d] => destruct (Ascii.eqb c d)
           | |- context [L <=? ?n] => destruct (L <=? n)
           end; cbn; try reflexivity; try (intros H; discriminate H); intros _; discriminate.
Qed.

Lemma process_eol_ok p : exists p', process p EOL = Val p' /\ p_state p' <> EAT_CRNL.
Proof.
  unfold process, start_field, is_newline, is_char, is_eol, end_state.
  destruct (p_state p) eqn:Hs; eexists; (split; [reflexivity|]); cbn; try discriminate;
    rewrite Hs; discriminate.
Qed.

Lemma process_chars_ok p b :
  PyStr.all_chars plain_char b = true -> p_state p <> EAT_CRNL ->
  match process_chars p b with
  | Val p' => p_state p' <> EAT_CRNL
  | Err e => e = field_limit_error
  end.
Proof.
  revert p. induction b as [|c b IH]; intros p Hb Hs; cbn [process_chars]; [exact Hs|].
  cbn [PyStr.all_chars] in Hb. apply andb_prop in Hb as [Hc Hb].
  pose proof (process_char_ok p c Hs) as H. destruct (process p (Ch c)) as [p'|e]; cbn [rbind];
    [exact (IH p' Hb (H Hc)) | exact H].
Qed.

Lemma process_line_ok p l :
  line_ok l -> p_state p <> EAT_CRNL ->
  match process_line p l with
  | Val p' => p_state p' <> EAT_CRNL
  | Err e => e = field_limit_error
  end.
Proof.
  intros (b & Hb & [-> | ->]) Hs; unfold process_line; [|rewrite process_chars_app];
    pose proof (process_chars_ok p b Hb Hs) as H; destruct (process_chars p b) as [p1|e]; cbn [rbind];
    try exact H.
  - destruct (process_eol_ok p1) as (p2 & -> & H2). exact H2.
  - cbn [process_chars]. pose proof (process_char_ok p1 lf H) as H1.
    destruct (process p1 (Ch lf)) as [p2|e]; cbn [rbind]; [|exact H1].
    destruct (process_eol_ok p2) as (p3 & -> & H3). exact H3.
Qed.

Lemma read_record_ok p lines :
  Forall line_ok lines -> p_state p <> EAT_CRNL ->
  match read_record p lines with
  | Val (Some (_, rest)) => Forall line_ok rest
  | Val None => True
  | Err e => e = field_limit_error
  end.
Proof.
  revert p. induction lines as [|l ls IH]; intros p Hl Hs; cbn [read_record].
  - destruct (_ || _)%bool; constructor.
  - inversion Hl as [|? ? Hl1 Hls]; subst. pose proof (process_line_ok p l Hl1 Hs) as H.
    destruct (process_line p l) as [p'|e]; cbn [rbind]; [|exact H].
    destruct (p_state p') eqn:Hp'; try exact Hls; apply (IH p' Hls); congruence.
Qed.

Lemma next_nonempty_ok fuel lines :
  Forall line_ok lines ->
  match next_nonempty fuel lines with
  | Val (Some (_, rest)) => Forall line_ok rest
  | Val None => True
  | Err e => e = field_limit_error
  end.
Proof.
  revert lines. induction fuel as [|f IH]; intros lines Hl; cbn [next_nonempty]; [exact I|].
  pose proof (read_record_ok parser_reset lines Hl ltac:(discriminate)) as H. unfold reader_next.
  destruct (read_record parser_reset lines) as [[[r rest]|]|e]; cbn [rbind]; try exact H.
  destruct r; [apply IH, H | exact H].
Qed.

Lemma dict_reader_next_ok dr :
  Forall line_ok (dr_lines dr) ->
  match dict_reader_next dr with
  | Val (Some (_, dr')) => Forall line_ok (dr_lines dr')
  | Val None => True
  | Err e => e = field_limit_error
  end.
Proof.
  assert (Hrows : forall fns lines, Forall line_ok lines ->
            match rows_next fns lines with
            | Val (Some (_, dr')) => Forall line_ok (dr_lines dr')
            | Val None => True
            | Err e => e = field_limit_error
            end).
  { intros fns lines Hl. unfold rows_next. pose proof (next_nonempty_ok (S (List.length lines)) lines Hl) as H.
    destruct (next_nonempty _ lines) as [[[r rest]|]|e]; cbn [rbind]; exact H. }
  destruct dr as [lines | fns lines]; cbn [dict_reader_next dr_lines]; intros Hl; [|apply Hrows, Hl].
  pose proof (read_record_ok parser_reset lines Hl ltac:(discriminate)) as H. unfold reader_next.
  destruct (read_record parser_reset lines) as [[[fns rest]|]|e]; cbn [rbind]; [apply Hrows, H | exact I | exact H].
Qed.

Lemma reachable_lines_ok s dr : reader_reachable s dr -> Forall line_ok (dr_lines dr).
Proof.
  induction 1 as [|dr row dr' _ IH E]; [apply file_lines_ok|].
  pose proof (dict_reader_next_ok dr IH) as H. rewrite E in H. exact H.
Qed.

(** C17: [csv.DictReader] over any file raises one error only, the field
    size limit: in every state it reaches, [next] yields a row, stops, or
    raises [csv.Error("field larger than field limit (131072)")].  It
    never raises for a record whose number of fields differs from the
    header, and never sees a newline in an unquoted field. *)
Theorem reader_only_field_limit s dr :
  reader_reachable s dr ->
  match dict_reader_next dr with
  | Err e => e = CsvError (FieldLimit field_limit)
  | Val _ => True
  end.
Proof.
  intros Hr. pose proof (dict_reader_next_ok dr (reachable_lines_ok s dr Hr)) as H.
  destruct (dict_reader_next dr) as [[[]|]|]; [exact I | exact I | exact H].
Qed.

(** ** Witnesses *)

(** A field with the delimiter, one with a quote character, one with a
    line feed, and an empty one. *)
Definition ex_fields : list string :=
  ["a,b"; String quotechar "q"; "l1" ++ String lf "l2"; ""]%string.

Lemma read_write_record_witness :
  forallb field_ok ex_fields = true /\
  reader_next (file_lines (write_record ex_fields ++ "rest")) =
    Val (Some (ex_fields, file_lines "rest"%string)).
Proof. split; [vm_compute; reflexivity | apply read_write_record; vm_compute; reflexivity]. Defined.

Definition ex_text : string :=
  ("id,name" ++ String lf ("1,x" ++ String lf EmptyString))%string.

Lemma reader_only_field_limit_witness :
  reader_reachable ex_text (DRReady ["id"; "name"]%string []) /\
  match dict_reader_next (DRReady ["id"; "name"]%string []) with
  | Err e => e = CsvError (FieldLimit field_limit)
  | Val _ => True
  end.
Proof.
  assert (H : reader_reachable ex_text (DRReady ["id"; "name"]%string [])).
  { apply (rr_step _ (DRFresh (file_lines ex_text)) (make_row ["id"; "name"] ["1"; "x"])%string);
      [apply rr_init | vm_compute; reflexivity]. }
  split; [exact H | exact (reader_only_field_limit _ _ H)].
Defined.

End Csv.
