(* ===== verification/CsvNewlines.v ===== *)
(** * Carriage returns in CSV fields

    [generate_csv] (line 42) and [extract_users] (line 84) open the CSV
    file in text mode without [newline=''].  Writing on Linux leaves the
    text as it is; reading translates every CR LF and every lone CR into
    LF ([Csv.translate_newlines]).  The writer quotes a field holding a
    CR, so the record's lines are cut correctly, but the CR inside the
    quotes reaches the reader as a LF.  This file shows that the reader
    gives back exactly [translate_newlines] of each field the writer
    wrote, for any fields within the field size limit: the read-back
    theorem [Csv.read_write_record] is the case of fields without CR.
    The translation commutes with [lower], [upper] and the writer's
    quote doubling ([translate_flat_map]), so a draw is read back as the
    translated draw. *)

From Stdlib Require Import List String Ascii Bool ZArith Lia.
From S2P Require Import Prelude PyStr PyObj Datetime Csv.
Import ListNotations.
Local Open Scope etl_scope.

Module CsvNewlines.
Import Csv.

(** [s] ends with a carriage return. *)
Fixpoint last_cr (s : string) : bool :=
  match s with
  | EmptyString => false
  | String c EmptyString => Ascii.eqb c cr
  | String _ r => last_cr r
  end.

(** [s] starts with a line feed. *)
Definition lf_head (s : string) : bool :=
  match s with String c _ => Ascii.eqb c lf | EmptyString => false end.

(** ** The translation, piece by piece *)

(** The translation of a concatenation is the concatenation of the
    translations, unless a CR LF is cut between the two. *)
Lemma translate_app_n n a b :
  String.length a <= n -> last_cr a = false \/ lf_head b = false ->
  translate_newlines (a ++ b)%string = (translate_newlines a ++ translate_newlines b)%string.
Proof.
  revert a. induction n as [|n IH]; intros [|c r] Hl Hcut; cbn in Hl; try lia; [reflexivity|reflexivity|].
  cbn [append translate_newlines]. destruct (Ascii.eqb c cr) eqn:Ec.
  - destruct r as [|c' r'].
    + destruct Hcut as [Hc|Hb]; [cbn [last_cr] in Hc; rewrite Ec in Hc; discriminate|].
      destruct b as [|c' b']; [reflexivity|]. cbn [lf_head] in Hb. cbn [append]. rewrite Hb.
      reflexivity.
    + cbn in Hl. cbn [append]. destruct (Ascii.eqb c' lf) eqn:E'.
      * destruct r' as [|c'' r'']; [reflexivity|]. rewrite IH by (cbn in *; lia || tauto). reflexivity.
      * change (String c' (r' ++ b))%string with (String c' r' ++ b)%string.
        rewrite IH by (cbn in *; lia || tauto). reflexivity.
  - destruct r as [|c' r']; [reflexivity|]. rewrite IH by (cbn in *; lia || tauto). reflexivity.
Qed.

Lemma translate_app a b :
  last_cr a = false \/ lf_head b = false -> translate_newlines (a ++ b)%string = (translate_newlines a ++ translate_newlines b)%string.
Proof. apply (translate_app_n (String.length a)). lia. Qed.

Lemma translate_length_n n s : String.length s <= n -> String.length (translate_newlines s) <= String.length s.
Proof.
  revert s. induction n as [|n IH]; intros [|c r] Hl; cbn in Hl; try (cbn; lia).
  cbn [translate_newlines]. destruct (Ascii.eqb c cr).
  - destruct r as [|c' r']; [cbn; lia|]. cbn in Hl.
    destruct (Ascii.eqb c' lf); cbn; [specialize (IH r'); lia|].
    specialize (IH (String c' r')). cbn in IH. lia.
  - cbn. specialize (IH r). lia.
Qed.

Lemma translate_no_cr_id s : no_cr s = true -> translate_newlines s = s.
Proof. intros H. pose proof (translate_no_cr s EmptyString H) as E. rewrite !PyStr.str_app_nil_r in E. exact E. Qed.

Lemma translate_cons c r :
  Ascii.eqb c cr = false -> translate_newlines (String c r) = String c (translate_newlines r).
Proof. intros H. cbn [translate_newlines]. rewrite H. reflexivity. Qed.

Lemma translate_idem s : translate_newlines (translate_newlines s) = translate_newlines s.
Proof. apply translate_no_cr_id, (translate_newlines_no_cr (String.length s)). lia. Qed.

Lemma translate_nonempty c r : exists c' r', translate_newlines (String c r) = String c' r'.
Proof.
  cbn [translate_newlines]. destruct (Ascii.eqb c cr); [|eauto].
  destruct r as [|c' r']; [eauto|]. destruct (Ascii.eqb c' lf); eauto.
Qed.

(** ** The writer's pieces *)

Lemma no_special_no_cr s : needs_quotes s = false -> no_cr s = true.
Proof.
  induction s as [|c r IH]; [reflexivity|]. cbn [needs_quotes]. intros H.
  apply orb_false_iff in H as [Hc Hr]. unfold special in Hc. rewrite !orb_false_iff in Hc.
  destruct Hc as [[[_ _] Hcr] _]. unfold no_cr. cbn [PyStr.all_chars]. rewrite Hcr. exact (IH Hr).
Qed.

Lemma double_quotes_head c r : exists t, double_quotes (String c r) = String c t.
Proof. cbn [double_quotes]. destruct (Ascii.eqb c quotechar); eauto. Qed.

Lemma translate_cr_cons c r :
  translate_newlines (String cr (String c r)) =
    if Ascii.eqb c lf then String lf (translate_newlines r) else String lf (translate_newlines (String c r)).
Proof. reflexivity. Qed.

Lemma double_quotes_plain c r :
  Ascii.eqb c quotechar = false -> double_quotes (String c r) = String c (double_quotes r).
Proof. intros H. cbn [double_quotes]. rewrite H. reflexivity. Qed.

(** ** String maps character by character

    [lower], [upper] and the writer's [double_quotes] replace each
    character by a string of its own.  The translation commutes with
    such a map when the map keeps CR and LF, puts no CR in the image of
    another character and starts the image of a character other than
    LF with a character other than LF. *)
Fixpoint str_flat_map (hc : ascii -> string) (s : string) : string :=
  match s with
  | EmptyString => EmptyString
  | String c r => (hc c ++ str_flat_map hc r)%string
  end.

Definition head_not_lf (s : string) : bool :=
  match s with String d _ => negb (Ascii.eqb d lf) | EmptyString => false end.

(** The conditions on [hc], checked on the 256 characters. *)
Definition keeps_newlines (hc : ascii -> string) : bool :=
  String.eqb (hc cr) (String cr EmptyString) && String.eqb (hc lf) (String lf EmptyString) &&
  forallb (fun n => let c := ascii_of_nat n in
                    (Ascii.eqb c cr || no_cr (hc c)) && (Ascii.eqb c lf || head_not_lf (hc c)))
          (seq 0 256).

Lemma forall_ascii (P : ascii -> bool) :
  forallb (fun n => P (ascii_of_nat n)) (seq 0 256) = true -> forall c, P c = true.
Proof.
  intros H c. rewrite <- (ascii_nat_embedding c).
  apply (proj1 (forallb_forall _ _) H). apply in_seq. pose proof (nat_ascii_bounded c). lia.
Qed.

Section FlatMap.
Variable hc : ascii -> string.
Hypothesis Hhc : keeps_newlines hc = true.

Lemma hc_cr : hc cr = String cr EmptyString.
Proof. unfold keeps_newlines in Hhc. rewrite !andb_true_iff in Hhc. apply String.eqb_eq. tauto. Qed.

Lemma hc_lf : hc lf = String lf EmptyString.
Proof. unfold keeps_newlines in Hhc. rewrite !andb_true_iff in Hhc. apply String.eqb_eq. tauto. Qed.

Lemma hc_chars c :
  (Ascii.eqb c cr || no_cr (hc c)) && (Ascii.eqb c lf || head_not_lf (hc c)) = true.
Proof.
  unfold keeps_newlines in Hhc. rewrite !andb_true_iff in Hhc.
  exact (forall_ascii (fun c => (Ascii.eqb c cr || no_cr (hc c)) && (Ascii.eqb c lf || head_not_lf (hc c)))
           (proj2 Hhc) c).
Qed.

Lemma translate_flat_map_n n s :
  String.length s <= n ->
  translate_newlines (str_flat_map hc s) = str_flat_map hc (translate_newlines s).
Proof.
  revert s. induction n as [|n IH]; intros [|c r] Hl; cbn in Hl; try lia; [reflexivity..|].
  pose proof (hc_chars c) as Hc. destruct (Ascii.eqb c cr) eqn:Ecr.
  - apply Ascii.eqb_eq in Ecr. subst c. cbn [str_flat_map]. rewrite hc_cr.
    destruct r as [|c' r']; [cbn [str_flat_map translate_newlines append]; rewrite Ascii.eqb_refl; cbn [str_flat_map]; rewrite hc_lf; reflexivity|]. cbn in Hl.
    change (String cr EmptyString ++ str_flat_map hc (String c' r'))%string
      with (String cr (hc c' ++ str_flat_map hc r'))%string.
    rewrite translate_cr_cons. pose proof (hc_chars c') as Hc'.
    destruct (Ascii.eqb c' lf) eqn:Elf.
    + apply Ascii.eqb_eq in Elf. subst c'. rewrite hc_lf. cbn [append].
      rewrite translate_cr_cons, Ascii.eqb_refl, IH by lia. cbn [str_flat_map]. rewrite hc_lf. reflexivity.
    + rewrite orb_false_l in Hc'. apply andb_prop in Hc' as [_ Hh].
      destruct (hc c') as [|d t] eqn:Ed; [discriminate|]. cbn [head_not_lf] in Hh. apply negb_true_iff in Hh.
      cbn [append]. rewrite translate_cr_cons, Hh.
      change (String d (t ++ str_flat_map hc r'))%string with (String d t ++ str_flat_map hc r')%string.
      rewrite <- Ed. change (hc c' ++ str_flat_map hc r')%string with (str_flat_map hc (String c' r')).
      rewrite IH by (cbn; lia). cbn [str_flat_map]. rewrite hc_lf. reflexivity.
  - rewrite orb_false_l in Hc. apply andb_prop in Hc as [Hn _].
    rewrite translate_cons by exact Ecr. cbn [str_flat_map].
    rewrite translate_no_cr by exact Hn. rewrite IH by lia. reflexivity.
Qed.

Lemma translate_flat_map s :
  translate_newlines (str_flat_map hc s) = str_flat_map hc (translate_newlines s).
Proof. apply (translate_flat_map_n (String.length s)). lia. Qed.

End FlatMap.

Lemma double_quotes_flat_map s :
  double_quotes s =
    str_flat_map (fun c => if Ascii.eqb c quotechar then String c (String c EmptyString)
                           else String c EmptyString) s.
Proof. induction s as [|c r IH]; [reflexivity|]. cbn [double_quotes str_flat_map]. rewrite IH. destruct (Ascii.eqb c quotechar); reflexivity. Qed.

Lemma lower_flat_map s : PyStr.lower s = str_flat_map (fun c => String (PyStr.lower_char c) EmptyString) s.
Proof. induction s as [|c r IH]; [reflexivity|]. cbn [PyStr.lower str_flat_map]. rewrite IH. reflexivity. Qed.

Lemma upper_flat_map s :
  PyStr.upper s =
    str_flat_map (fun c => if Ascii.eqb c PyStr.sharp_s then String "S" (String "S" EmptyString)
                           else String (PyStr.upper_char c) EmptyString) s.
Proof. induction s as [|c r IH]; [reflexivity|]. cbn [PyStr.upper str_flat_map]. rewrite IH. destruct (Ascii.eqb c PyStr.sharp_s); reflexivity. Qed.

Lemma translate_double_quotes s :
  translate_newlines (double_quotes s) = double_quotes (translate_newlines s).
Proof. rewrite !double_quotes_flat_map. apply translate_flat_map. vm_compute. reflexivity. Qed.

Lemma translate_lower s : translate_newlines (PyStr.lower s) = PyStr.lower (translate_newlines s).
Proof. rewrite !lower_flat_map. apply translate_flat_map. vm_compute. reflexivity. Qed.

Lemma translate_upper s : translate_newlines (PyStr.upper s) = PyStr.upper (translate_newlines s).
Proof. rewrite !upper_flat_map. apply translate_flat_map. vm_compute. reflexivity. Qed.

Lemma needs_quotes_translate s : needs_quotes (translate_newlines s) = needs_quotes s.
Proof.
  induction s as [|c r IH]; [reflexivity|]. destruct (Ascii.eqb c cr) eqn:Ecr.
  - apply Ascii.eqb_eq in Ecr. subst c. cbn [translate_newlines]. rewrite Ascii.eqb_refl.
    destruct r as [|c' r']; [reflexivity|]. destruct (Ascii.eqb c' lf); reflexivity.
  - rewrite translate_cons by exact Ecr. cbn [needs_quotes]. rewrite IH. reflexivity.
Qed.

Lemma translate_quote_field f : translate_newlines (quote_field f) = quote_field (translate_newlines f).
Proof.
  unfold quote_field. rewrite needs_quotes_translate. destruct (needs_quotes f) eqn:E.
  - rewrite translate_cons by reflexivity. rewrite translate_app by (right; reflexivity).
    rewrite translate_double_quotes. reflexivity.
  - reflexivity.
Qed.

Lemma translate_join fs :
  translate_newlines (join_sep (String delimiter EmptyString) (map quote_field fs)) =
  join_sep (String delimiter EmptyString) (map quote_field (map translate_newlines fs)).
Proof.
  induction fs as [|f [|g fs] IH]; [reflexivity | apply translate_quote_field|].
  cbn [map] in IH |- *. rewrite !join_sep_cons2, translate_app by (right; reflexivity).
  change (translate_newlines (String delimiter EmptyString ++ join_sep (String delimiter EmptyString)
                                (quote_field g :: map quote_field fs)))%string
    with (String delimiter EmptyString ++ translate_newlines (join_sep (String delimiter EmptyString)
                                (quote_field g :: map quote_field fs)))%string.
  rewrite IH, translate_quote_field. reflexivity.
Qed.

Lemma last_cr_crlf x : last_cr (x ++ String cr (String lf EmptyString)) = false.
Proof. induction x as [|c [|c' r] IH]; [reflexivity..|]. exact IH. Qed.

Lemma body_cons2 (f g : string) fs :
  match f :: g :: fs with
  | [EmptyString] => String quotechar (String quotechar EmptyString)
  | _ => join_sep (String delimiter EmptyString) (map quote_field (f :: g :: fs))
  end = join_sep (String delimiter EmptyString) (map quote_field (f :: g :: fs)).
Proof. destruct f; reflexivity. Qed.

(** The translated text of a record is the text of its translated fields. *)
Lemma translate_write_record fs :
  translate_newlines (write_record fs) = translate_newlines (write_record (map translate_newlines fs)).
Proof.
  assert (Hbody : forall b, translate_newlines (b ++ String cr (String lf EmptyString)) =
                            (translate_newlines b ++ String lf EmptyString)%string)
    by (intros b; rewrite translate_app by (right; reflexivity); reflexivity).
  unfold write_record. rewrite !Hbody. f_equal.
  destruct fs as [|f [|g fs]]; [reflexivity| |].
  - destruct f as [|c r]; [reflexivity|].
    destruct (translate_nonempty c r) as (c' & r' & Ht). cbn [map]. rewrite Ht. cbn [map join_sep].
    rewrite !translate_quote_field, <- Ht, translate_idem. reflexivity.
  - change (map translate_newlines (f :: g :: fs))
      with (translate_newlines f :: translate_newlines g :: map translate_newlines fs).
    rewrite !body_cons2, !translate_join. cbn [map].
    rewrite !translate_idem, !map_map.
    rewrite (map_ext (fun x => quote_field (translate_newlines (translate_newlines x)))
                     (fun x => quote_field (translate_newlines x)))
      by (intros x; rewrite translate_idem; reflexivity).
    reflexivity.
Qed.

Lemma last_cr_write_record fs : last_cr (write_record fs) = false.
Proof. apply last_cr_crlf. Qed.

(** The lines the reader sees are those of the translated fields. *)
Lemma file_lines_write_record fs rest :
  file_lines (write_record fs ++ rest) = file_lines (write_record (map translate_newlines fs) ++ rest).
Proof.
  unfold file_lines. rewrite !translate_app by (left; apply last_cr_write_record).
  rewrite translate_write_record. reflexivity.
Qed.

Lemma field_ok_translate f :
  String.length f <= field_limit -> field_ok (translate_newlines f) = true.
Proof.
  intros Hl. unfold field_ok. rewrite (translate_newlines_no_cr (String.length f)) by lia. cbn [andb].
  apply Nat.leb_le. pose proof (translate_length_n (String.length f) f (le_n _)). lia.
Qed.

(** A field within the field size limit, and a record the DictReader
    yields (not empty) of such fields: the reader reads them back
    whatever characters they hold. *)
Definition field_fits (f : string) : bool := String.length f <=? field_limit.

Definition record_fits (r : list string) : bool :=
  match r with [] => false | _ => forallb field_fits r end.

Lemma fields_ok_translate fs : forallb field_fits fs = true -> forallb field_ok (map translate_newlines fs) = true.
Proof.
  intros H. apply forallb_forall. intros f' Hf'. apply in_map_iff in Hf' as (f & <- & Hf).
  apply field_ok_translate, Nat.leb_le. exact (proj1 (forallb_forall _ _) H f Hf).
Qed.

Lemma record_ok_fits r : record_ok r = true -> record_fits r = true.
Proof.
  destruct r as [|f r]; [discriminate|]. unfold record_ok, record_fits. intros H.
  apply forallb_forall. intros x Hx. unfold field_ok in *. pose proof (proj1 (forallb_forall _ _) H x Hx).
  apply andb_prop in H0. tauto.
Qed.

Lemma record_ok_translate r : record_ok r = true -> map translate_newlines r = r.
Proof.
  destruct r as [|f r]; [reflexivity|]. unfold record_ok. intros H. rewrite <- map_id.
  apply map_ext_in. intros x Hx. apply translate_no_cr_id.
  pose proof (proj1 (forallb_forall _ _) H x Hx). unfold field_ok in H0. apply andb_prop in H0. tauto.
Qed.

(** The DictReader's step over the text of records: the first record,
    translated, as a row. *)
Lemma rows_next_records_tr fns r rs :
  record_fits r = true ->
  rows_next fns (file_lines (records_text (r :: rs))) =
    Val (Some (make_row fns (map translate_newlines r), DRReady fns (file_lines (records_text rs)))).
Proof.
  intros Hr. unfold rows_next. cbn [records_text map PyStr.join].
  fold (records_text rs). rewrite file_lines_write_record. cbn [next_nonempty].
  rewrite read_write_record by (apply fields_ok_translate; destruct r; [discriminate | exact Hr]).
  destruct r; [discriminate | reflexivity].
Qed.

(** C21: the reader gives back [translate_newlines] of what the writer
    wrote: for fields of any characters within the field size limit, the
    text of one [writerow] call, followed by anything, is read as the
    fields with every CR LF and every lone carriage return turned into a
    line feed (the file is opened without [newline='']), leaving the
    lines of what follows.  A field without a carriage return is read
    back as written. *)
Theorem read_write_record_cr fs rest :
  forallb field_fits fs = true ->
  reader_next (file_lines (write_record fs ++ rest)) =
    Val (Some (map translate_newlines fs, file_lines rest)).
Proof. intros H. rewrite file_lines_write_record. apply read_write_record, fields_ok_translate, H. Qed.

Lemma read_write_record_cr_witness :
  forallb field_fits [String cr "x"; "a" ++ String cr (String lf "b")]%string = true /\
  reader_next (file_lines (write_record [String cr "x"; "a" ++ String cr (String lf "b")]%string ++ "rest")) =
    Val (Some ([String lf "x"; "a" ++ String lf "b"]%string, file_lines "rest"%string)).
Proof. split; [vm_compute; reflexivity | apply read_write_record_cr; vm_compute; reflexivity]. Defined.

End CsvNewlines.
