(* ===== verification/Extract.v ===== *)
(** * The extract stage: [extract_users] (src/pipeline.py, lines 83-90)

    The generator object is created without running its body
    ([EInit path]).  Its first [next] opens the file -- so a missing file
    raises there, inside the consumer's loop -- creates the
    [csv.DictReader], prints the start line, reads the text (a file that
    does not decode raises here, after the start line) and continues as the loop
    [for i, row in enumerate(reader)] ([EIter i reader]): each turn reads
    one row, prints its line and yields the row; at the end of the file it
    prints the final line and stops.  The file's contents are read at the
    first [next]; nothing writes the CSV file while the pipeline runs, so
    reading it then or line by line gives the same rows. *)

From Stdlib Require Import List String Ascii ZArith Lia.
From S2P Require Import Prelude PyStr PyObj Datetime Store Runtime Csv CsvNewlines.
Import ListNotations.
Local Open Scope etl_scope.

Module Extract.
Import PyObj Store Runtime Csv CsvNewlines.

Inductive egen : Type :=
| EInit (path : string)
| EIter (i : nat) (reader : dict_reader).

(** [extract_users(path)] *)
Definition extract_users (path : string) : egen := EInit path.

(** [path.open("r", encoding="utf-8")]: a missing file or a directory
    fails at [open]; otherwise the text is decoded when it is first read,
    so a file that is not text (a database file) yields its
    [UnicodeDecodeError] as the result of that read. *)
Definition open_text (path : string) : PyM (res exn string) :=
  f <- read_fs ;;
  match fs_lookup f path with
  | None => raise (FileNotFoundError path)
  | Some NDir => raise (IsADirectoryError path)
  | Some (NDb _) => ret (Err (UnicodeDecodeError path))
  | Some (NText s) => ret (Val s)
  end.

(** One turn of the [for] loop (lines 87-90). *)
Definition extract_step (i : nat) (r : dict_reader) : PyM (option (dict * egen)) :=
  x <- lift (dict_reader_next r) ;;
  match x with
  | None => print MsgEFinished ;;; ret None
  | Some (row, r') => print (MsgERow i) ;;; ret (Some (row, EIter (S i) r'))
  end.

Definition extract_users_next (g : egen) : PyM (option (dict * egen)) :=
  match g with
  | EInit path =>
      src <- open_text path ;;
      print MsgEStart ;;;
      text <- lift src ;;
      extract_step 0 (DRFresh (file_lines text))
  | EIter i r => extract_step i r
  end.

#[export] Instance extract_gen : Generator egen dict := extract_users_next.

(** The bound of the generator's run: the lines its reader has left, or,
    before the file is opened, one more than the lines of the text the
    file holds. *)
Definition egen_measure (g : egen) (f : fs) : nat :=
  match g with
  | EInit path => match fs_lookup f path with Some (NText s) => S (List.length (file_lines s)) | _ => 1 end
  | EIter _ dr => dr_measure dr
  end.

(** ** Termination *)

Lemma open_text_pres path : fs_pres (open_text path) /\ fuel_free (open_text path).
Proof. unfold open_text. split; apply (fs_pres_bind read_fs) || apply (fuel_free_bind read_fs);
  try (intros w r w' H; injection H; intros; subst; reflexivity);
  try (intros w w'; discriminate); intros f; pres_auto.
Qed.

(** The first [next]: open, print the start line, read the text, and
    take the first turn of the loop. *)
Lemma extract_init_step path w :
  gen_next (EInit path) w =
    match fs_lookup (w_fs w) path with
    | Some (NText s) => extract_step 0 (DRFresh (file_lines s)) (w_app w [MsgEStart])
    | Some (NDb _) => (Exc (UnicodeDecodeError path), w_app w [MsgEStart])
    | Some NDir => (Exc (IsADirectoryError path), w)
    | None => (Exc (FileNotFoundError path), w)
    end.
Proof.
  destruct w as [f o t c]. cbv [gen_next extract_gen extract_users_next]. unfold open_text, bind.
  cbn [read_fs w_fs]. destruct (fs_lookup f path) as [[s|db|]|]; reflexivity.
Qed.

Lemma extract_step_pres i dr : fs_pres (extract_step i dr) /\ fuel_free (extract_step i dr).
Proof. unfold extract_step. split; pres_auto. Qed.

Lemma extract_step_decr i dr w row g' w' :
  extract_step i dr w = (Ok (Some (row, g')), w') -> egen_measure g' (w_fs w') < dr_measure dr.
Proof.
  unfold extract_step, bind at 1. destruct (dict_reader_next dr) as [[[d dr']|]|e] eqn:E;
    cbn; intros H; try discriminate. injection H as _ <- _. apply (dict_reader_next_decr _ _ _ E).
Qed.

#[export] Instance extract_bound : GeneratorBound egen dict.
Proof.
  refine {| gen_measure := egen_measure |}.
  - intros [path|i dr]; [|apply extract_step_pres].
    apply fs_pres_bind; [apply open_text_pres|]. intros src. pres_auto. apply extract_step_pres.
  - intros [path|i dr]; [|apply extract_step_pres].
    apply fuel_free_bind; [apply open_text_pres|]. intros src. pres_auto. apply extract_step_pres.
  - intros [path|i dr] w row g' w' Hn; [|exact (extract_step_decr _ _ _ _ _ _ Hn)].
    rewrite extract_init_step in Hn. cbn [egen_measure].
    destruct (fs_lookup (w_fs w) path) as [[s|db|]|]; try discriminate.
    apply extract_step_decr in Hn. cbn in Hn |- *. lia.
Defined.

(** The extractor's effects do not depend on the console. *)
Lemma extract_next_local (g : egen) : local (gen_next g).
Proof.
  destruct g as [path|i dr]; cbv [gen_next extract_gen extract_users_next];
    unfold open_text, extract_step; local_auto.
Qed.

(** ** What the generator yields from a file the writer wrote *)

(** The rows of records [rs] from position [i], each with its line. *)
Fixpoint e_trace (fns : list string) (i : nat) (rs : list (list string)) : list (dict * list msg) :=
  match rs with
  | [] => []
  | r :: rs' => (make_row fns r, [MsgERow i]) :: e_trace fns (S i) rs'
  end.

Lemma extract_iter_trace f fns rs i dr :
  Forall (fun r => record_fits r = true) rs ->
  dict_reader_next dr = rows_next fns (file_lines (records_text rs)) ->
  yields0 f (EIter i dr) (e_trace fns i (map (map translate_newlines) rs)) ([MsgEFinished], GStop).
Proof.
  revert i dr. induction rs as [|r rs IH]; intros i dr Hok Hdr; cbn [e_trace map].
  - apply yields0_stop. intros clock t out.
    change (gen_next (EIter i dr)) with (extract_step i dr). unfold extract_step, bind at 1.
    rewrite Hdr, rows_next_end, Nat.add_0_r. reflexivity.
  - inv Hok. eapply yields0_item.
    + intros clock t out.
      change (gen_next (EIter i dr)) with (extract_step i dr). unfold extract_step, bind at 1.
      rewrite Hdr, rows_next_records_tr, Nat.add_0_r by assumption. reflexivity.
    + apply IH; [assumption | reflexivity].
Qed.

(** [extract_users(path)] over a file holding a header and records as
    [csv.DictWriter] writes them: the start line, then one row per record
    -- its fields as the reader reads them back -- with its line, then
    the final line. *)
Lemma extract_users_trace_tr f path fns rs :
  fs_lookup f path = Some (NText (write_record fns ++ records_text rs)) ->
  forallb field_ok fns = true -> Forall (fun r => record_fits r = true) rs ->
  yields0 f (extract_users path)
    (fst (prepend0 MsgEStart (e_trace fns 0 (map (map translate_newlines) rs), ([MsgEFinished], GStop))))
    (snd (prepend0 MsgEStart (e_trace fns 0 (map (map translate_newlines) rs), ([MsgEFinished], GStop)))).
Proof.
  intros Hp Hh Hr.
  apply (yields0_prepend _ _ (EIter 0 (DRFresh (file_lines (write_record fns ++ records_text rs))))).
  - intros clock t out. cbv [gen_next extract_gen extract_users_next extract_users].
    unfold open_text, bind at 1 2. cbn [read_fs w_fs]. rewrite Hp. reflexivity.
  - apply extract_iter_trace; [exact Hr | apply dict_reader_fresh, Hh].
Qed.

(** The records of fields without carriage return are read back as
    written. *)
Lemma extract_users_trace f path fns rs :
  fs_lookup f path = Some (NText (write_record fns ++ records_text rs)) ->
  forallb field_ok fns = true -> Forall (fun r => record_ok r = true) rs ->
  yields0 f (extract_users path)
    (fst (prepend0 MsgEStart (e_trace fns 0 rs, ([MsgEFinished], GStop))))
    (snd (prepend0 MsgEStart (e_trace fns 0 rs, ([MsgEFinished], GStop)))).
Proof.
  intros Hp Hh Hr.
  assert (E : map (map translate_newlines) rs = rs).
  { rewrite <- (map_id rs) at 2. apply map_ext_in. intros r Hin.
    apply record_ok_translate. exact (proj1 (Forall_forall _ _) Hr r Hin). }
  rewrite <- E. apply extract_users_trace_tr; [exact Hp | exact Hh |].
  eapply Forall_impl; [|exact Hr]. intros r. apply record_ok_fits.
Qed.

End Extract.
