(* ===== verification/Main.v ===== *)
(** * Record generation, table creation and the entry point
    (src/pipeline.py, lines 12-81 and 138-153)

    [get_user] draws its data from Faker and [random]; the model takes
    those draws as an argument ([faker i] is what record [i] draws: a
    first name, the two e-mails of the [random.choice] list -- both are
    generated before the choice --, the choice, the password and the
    20-character description).  Its generator is consumed at once by
    [generate_csv]'s loop with no effect in between, so it is modelled by
    the list of records it yields.

    [generate_csv] opens the file for writing (truncating it), writes the
    header and one row per record with [csv.DictWriter]; what was written
    before an exception stays in the file.  [init_db] removes an existing
    database file, connects (outside its [try]), creates the table in a
    [with conn] block, and prints the outcome.  [main] runs the five
    steps of the [__main__] block in order; its last step pulls rows
    through [transform_users(extract_users(csv_file))] into [load_data].
    The file ends with the run of these steps when the CSV file is
    missing. *)

From Stdlib Require Import List String Ascii ZArith Lia.
From S2P Require Import Prelude PyStr PyObj Datetime Store Runtime Transform Sqlite Load Csv Extract.
Import ListNotations.
Local Open Scope etl_scope.

Module Main.
Import PyObj Store Runtime Sqlite Csv Transform Extract.

(** ** get_user *)

Record draw : Type := mkDraw {
  first_name : string;       (** fake.first_name() *)
  email_a : string;          (** fake.email(), upper-cased in the list *)
  email_b : string;          (** fake.email(), lower-cased in the list *)
  choose_a : bool;           (** random.choice picks the first element *)
  password : string;         (** fake.password() *)
  description : string       (** fake.password(length=20) *)
}.

(** The [UserData] dict of record [i] (lines 26-34). *)
Definition user (i : nat) (d : draw) : dict :=
  [(KStr "id", VInt (Z.of_nat i));
   (KStr "name", VStr (first_name d));
   (KStr "email", VStr (if choose_a d then PyStr.upper (email_a d) else PyStr.lower (email_b d)));
   (KStr "password", VStr (password d));
   (KStr "description", VStr (description d))]%string.

(** [get_user(size)] (lines 20-35): the records it yields, in order. *)
Definition get_user (size : nat) (faker : nat -> draw) : list dict :=
  map (fun i => user i (faker i)) (seq 0 size).

(** ** generate_csv *)

(** The text [DictWriter] writes for the header and the rows, and the
    exception that stopped it, if any. *)
Fixpoint write_rows (fieldnames : list string) (rows : list dict) : string * option exn :=
  match rows with
  | [] => (EmptyString, None)
  | r :: rs =>
      match dict_writerow fieldnames r with
      | Err e => (EmptyString, Some e)
      | Val line => let '(rest, e) := write_rows fieldnames rs in ((line ++ rest)%string, e)
      end
  end.

Definition csv_text (fieldnames : list string) (rows : list dict) : string * option exn :=
  match writeheader fieldnames with
  | Err e => (EmptyString, Some e)
  | Val h => let '(body, e) := write_rows fieldnames rows in ((h ++ body)%string, e)
  end.

(** [generate_csv(path, fieldnames, size)] (lines 38-47). *)
Definition generate_csv (path : string) (fieldnames : list string) (size : nat)
    (faker : nat -> draw) : PyM unit :=
  f <- read_fs ;;
  match fs_lookup f path with
  | Some NDir => raise (IsADirectoryError path)
  | _ =>
      let '(text, err) := csv_text fieldnames (get_user size faker) in
      write_fs (fs_write f path (NText text)) ;;;
      match err with
      | Some e => raise e
      | None => print (MsgRecordsWritten size path)
      end
  end.

(** ** init_db *)

Definition create_users : stmt := CreateTable "users"%string Load.users_schema.

(** [init_db(path)] (lines 50-80). *)
Definition init_db (path : string) : PyM unit :=
  f <- read_fs ;;
  match fs_lookup f path with
  | Some (NText _) | Some (NDb _) => write_fs (fs_unlink f path)
  | _ => ret tt
  end ;;;
  c <- connect path ;;
  try_finally
    (try_except
       (_ <- with_conn c (c' <- execute c create_users [] ;; ret (tt, c')) ;;
        print MsgTableCreated)
       (fun e => if is_sqlite_error e then print (MsgSqliteError e) else print (MsgUnexpected e)))
    (close c).

(** ** The entry point *)

Definition csv_file : string := "/tmp/users.csv".
Definition csv_file_fieldnames : list string :=
  ["id"; "name"; "email"; "password"; "description"]%string.
Definition db_path : string := "/tmp/users.db".
Definition num_records : nat := 20.

(** Steps 3-5 (lines 149-153): the pipeline pulled by [load_data]. *)
Definition run_etl (fuel : nat) (csv_path db : string) : PyM unit :=
  Load.load_data fuel (Transform.transform_users (Extract.extract_users csv_path)) db.

(** The [__main__] block (lines 143-153). *)
Definition main (fuel : nat) (faker : nat -> draw) : PyM unit :=
  generate_csv csv_file csv_file_fieldnames num_records faker ;;;
  init_db db_path ;;;
  run_etl fuel csv_file db_path.

(** ** Error paths of steps 3-5 *)

(** C15: a missing CSV file is reported, not raised: the extract
    generator opens the file at its first [next], inside [load_data]'s
    [try], so [FileNotFoundError] is printed by [except Exception]; the
    file system is left as it was and the clock is not read.  This holds
    for any database file at the other path and any positive fuel. *)
Theorem etl_missing_csv fuel csv db dbv f out t clock :
  0 < fuel -> fs_lookup f csv = None -> fs_lookup f db = Some (NDb dbv) ->
  run_etl fuel csv db (mkWorld f out t clock) =
  (Ok tt, mkWorld f (out ++ [MsgLStart; MsgTStart; MsgUnexpected (FileNotFoundError csv)]) t clock).
Proof.
  intros Hf Hcsv Hdb. destruct fuel as [|fuel]; [lia|].
  unfold run_etl, Load.load_data, connect, bind. cbn [read_fs w_fs]. rewrite Hdb.
  unfold try_finally, try_except, with_conn, bind. cbn [ret print modify w_fs w_out w_tick w_clock Load.load_rows].
  unfold bind. cbv [gen_next transform_gen transform_users_next transform_users transform_step].
  unfold bind, print, modify. cbv [gen_next extract_gen extract_users_next extract_users open_text].
  unfold bind. cbn [read_fs w_fs]. rewrite Hcsv. cbn. rewrite <- !app_assoc. reflexivity.
Qed.

Lemma etl_missing_csv_witness :
  0 < 1 /\ fs_lookup [(db_path, NDb [])] csv_file = None /\
  fs_lookup [(db_path, NDb [])] db_path = Some (NDb []) /\
  run_etl 1 csv_file db_path (mkWorld [(db_path, NDb [])] [] 0 (fun _ => 0%Z)) =
  (Ok tt, mkWorld [(db_path, NDb [])]
     ([] ++ [MsgLStart; MsgTStart; MsgUnexpected (FileNotFoundError csv_file)]) 0 (fun _ => 0%Z)).
Proof.
  split; [lia|]. split; [reflexivity|]. split; [reflexivity|].
  apply (etl_missing_csv 1 csv_file db_path []); [lia | reflexivity | reflexivity].
Defined.

End Main.
