(* ===== verification/Records.v ===== *)
(** * CSV records under any header, through the three stages

    [extract_users] reads each record of the CSV file into a dict keyed
    by the header's field names, in the header's order
    ([csv.DictReader]); [transform_users] updates that dict in place, so
    its keys keep the header's order, [password] removed and
    [processed_at] appended; [load_data] binds [tuple(row.values())]
    positionally to the columns [(id, name, email, description,
    processed_at)] of its [INSERT] (src/pipeline.py, lines 97-103 and
    128).  This file states, for a header [h] that is any permutation of
    the five field names and a record [r] read under it, the dict the
    loop body leaves ([hrec_trow]) and the row SQLite stores for it
    ([stored_row]: the values in header order, each under the affinity
    of the column it lands in), and proves the stage lemmas the
    whole-run theorems of [EndToEnd] and [HeaderOrder] compose. *)

From Stdlib Require Import List String Ascii ZArith Lia Permutation.
From S2P Require Import Prelude PyStr PyObj Datetime Store Affinity Runtime Transform Sqlite Load Csv Extract Main.
Import ListNotations.
Local Open Scope etl_scope.

Module Records.
Import PyObj Store Affinity Runtime Sqlite Csv Transform Extract Main.

(** ** Records and what the stages make of them *)

(** [int(s)] where it succeeds. *)
Definition rec_id (i : string) : Z := match PyStr.int_of_str i with Val v => v | Err _ => 0%Z end.

(** The field named [n] of record [r] read under header [h]. *)
Definition field (h r : list string) (n : string) : string :=
  match find (fun p => String.eqb (fst p) n) (combine h r) with
  | Some (_, s) => s
  | None => EmptyString
  end.

(** The (name, text) pairs of a record but its password, in header order. *)
Definition rec_fields (h r : list string) : list (string * string) :=
  filter (fun p => negb (String.eqb (fst p) "password")) (combine h r).

(** The value the loop body leaves under field [n] holding [s]. *)
Definition rec_value (n s : string) : value :=
  if String.eqb n "id" then VInt (rec_id s)
  else if String.eqb n "email" then VStr (PyStr.lower s)
  else if String.eqb n "description" then VStr (PyStr.filter_chars PyStr.isalnum_char s)
  else VStr s.

(** The parameter Python's adapter binds for it. *)
Definition cell (n s : string) : param :=
  if String.eqb n "id" then PInt (rec_id s)
  else if String.eqb n "email" then PText (PyStr.lower s)
  else if String.eqb n "description" then PText (PyStr.filter_chars PyStr.isalnum_char s)
  else PText s.

(** A record the stages take through: one field per header name, an id
    [int()] accepts within the 64-bit range, fields the reader reads
    back. *)
Definition hrec_ok (h r : list string) : bool :=
  Nat.eqb (List.length r) (List.length h) &&
  match PyStr.int_of_str (field h r "id") with
  | Val v => (int64_min <=? v)%Z && (v <=? int64_max)%Z
  | Err _ => false
  end && forallb field_ok r.

(** The row [transform_users] yields for the record, stamped [z]. *)
Definition hrec_trow (h r : list string) (z : Z) : dict :=
  map (fun p => (KStr (fst p), rec_value (fst p) (snd p))) (rec_fields h r) ++
  [(k_processed_at, VDatetime z)].

(** Each column of a row with the parameter bound to it, under the
    column's affinity. *)
Fixpoint zip_cols (cs : list column) (ps : list param) : list sqlval :=
  match cs, ps with
  | c :: cs', p :: ps' => column_value c p :: zip_cols cs' ps'
  | _, _ => []
  end.

(** The row SQLite stores for the record: the values in header order,
    bound to the columns in the [INSERT]'s order. *)
Definition stored_row (h r : list string) (z : Z) : list sqlval :=
  zip_cols Load.users_schema
    (map (fun p => cell (fst p) (snd p)) (rec_fields h r) ++ [PText (Datetime.isoformat_utc z)]).

(** The transform stage's trace over records from position [i], the
    clock read [t] for the first. *)
Fixpoint t_items (h : list string) (clock : nat -> Z) (i t : nat) (rs : list (list string))
  : list (dict * list msg * nat) :=
  match rs with
  | [] => []
  | r :: rs' => (hrec_trow h r (clock t), [MsgERow i; MsgTRow i], 1) :: t_items h clock (S i) (S t) rs'
  end.

(** The console lines of the rows, interleaved stage by stage. *)
Fixpoint l_lines (h : list string) (clock : nat -> Z) (i t : nat) (rs : list (list string)) : list msg :=
  match rs with
  | [] => []
  | r :: rs' =>
      MsgERow i :: MsgTRow i :: MsgLInsert (hrec_trow h r (clock t)) :: l_lines h clock (S i) (S t) rs'
  end.

Fixpoint db_rows (h : list string) (clock : nat -> Z) (t : nat) (rs : list (list string))
  : list (list sqlval) :=
  match rs with
  | [] => []
  | r :: rs' => stored_row h r (clock t) :: db_rows h clock (S t) rs'
  end.

(** ** Lemmas on dicts and association lists *)

Lemma combine_map {A B C D} (f : A -> C) (g : B -> D) l1 l2 :
  combine (map f l1) (map g l2) = map (fun p => (f (fst p), g (snd p))) (combine l1 l2).
Proof.
  revert l2. induction l1 as [|a l1 IH]; intros [|b l2]; cbn; [reflexivity..|]. rewrite IH. reflexivity.
Qed.

Lemma map_fst_combine {A B} (l1 : list A) (l2 : list B) :
  List.length l1 = List.length l2 -> map fst (combine l1 l2) = l1.
Proof.
  revert l2. induction l1 as [|a l1 IH]; intros [|b l2] H; cbn in *; try lia; [reflexivity|].
  rewrite IH by lia. reflexivity.
Qed.

Lemma remove_key_filter d k :
  wf d -> remove_key d k = filter (fun kv => negb (key_eqb k (fst kv))) d.
Proof.
  unfold wf, keys. induction d as [|[k' v'] d IH]; cbn; intros Hnd; [reflexivity|].
  inversion Hnd as [|? ? Hk' Hnd']; subst. destruct_key_eqb; cbn; [|rewrite IH by assumption; reflexivity].
  symmetry. rewrite <- (filter_true d) at 2. apply filter_ext_in. intros [k1 v1] Hin1. cbn.
  rewrite key_eqb_neq; [reflexivity|]. intros ->. apply Hk', (in_map fst _ _ Hin1).
Qed.

Lemma Permutation_filter {A} (f : A -> bool) l l' :
  Permutation l l' -> Permutation (filter f l) (filter f l').
Proof.
  induction 1 as [|x l l' _ IH|x y l|l l' l'' _ IH1 _ IH2]; cbn.
  - constructor.
  - destruct (f x); [constructor|]; exact IH.
  - destruct (f x), (f y); try constructor; apply Permutation_refl.
  - exact (Permutation_trans IH1 IH2).
Qed.

Lemma length_filter_combine {A B} (f : A -> bool) (l1 : list A) (l2 : list B) :
  List.length l1 = List.length l2 ->
  List.length (filter (fun p => f (fst p)) (combine l1 l2)) = List.length (filter f l1).
Proof.
  revert l2. induction l1 as [|a l1 IH]; intros [|b l2] H; cbn in *; try lia.
  destruct (f a); cbn; rewrite IH by lia; reflexivity.
Qed.

Lemma key_eqb_kstr a b : key_eqb (KStr a) (KStr b) = String.eqb a b.
Proof.
  destruct (String.eqb_spec a b) as [->|Hne]; [apply key_eqb_refl|].
  apply key_eqb_neq. congruence.
Qed.

(** The dict of a record read as text. *)
Definition str_dict (l : list (string * string)) : dict := map (fun p => (KStr (fst p), VStr (snd p))) l.

Lemma lookup_str_dict l n :
  lookup (str_dict l) (KStr n) =
    match find (fun p => String.eqb (fst p) n) l with Some (_, s) => Some (VStr s) | None => None end.
Proof.
  induction l as [|[n' s'] l IH]; cbn; [reflexivity|]. rewrite key_eqb_kstr, String.eqb_sym.
  destruct (String.eqb n' n); [reflexivity | exact IH].
Qed.

Lemma find_combine_in (h r : list string) n s :
  NoDup h -> In (n, s) (combine h r) -> find (fun p => String.eqb (fst p) n) (combine h r) = Some (n, s).
Proof.
  revert r. induction h as [|n' h IH]; intros [|s' r] Hnd Hin; cbn in *; try contradiction.
  inversion Hnd as [|? ? Hn' Hnd']; subst.
  destruct Hin as [[= -> ->]|Hin]; [rewrite String.eqb_refl; reflexivity|].
  destruct (String.eqb_spec n' n) as [->|_]; [|apply IH; assumption].
  exfalso. apply Hn'. exact (in_combine_l _ _ _ _ Hin).
Qed.

Lemma field_in h r n s : NoDup h -> In (n, s) (combine h r) -> field h r n = s.
Proof. intros Hnd Hin. unfold field. rewrite (find_combine_in h r n s Hnd Hin). reflexivity. Qed.

Lemma find_combine_name (h r : list string) n :
  List.length r = List.length h -> In n h ->
  find (fun p => String.eqb (fst p) n) (combine h r) = Some (n, field h r n).
Proof.
  unfold field. revert r. induction h as [|n' h IH]; intros [|s' r] Hl Hin; cbn in *; try lia; try contradiction.
  destruct (String.eqb_spec n' n) as [->|Hne]; [reflexivity|].
  destruct Hin as [->|Hin]; [congruence|]. apply IH; [lia | exact Hin].
Qed.

(** Setting a present key of a dict of distinct string keys. *)
Lemma setitem_kmap (F : list (string * string)) (f : string * string -> value) n v :
  NoDup (map fst F) -> In n (map fst F) ->
  setitem (map (fun p => (KStr (fst p), f p)) F) (KStr n) v =
    map (fun p => (KStr (fst p), if String.eqb (fst p) n then v else f p)) F.
Proof.
  induction F as [|[n' s'] F IH]; cbn; intros Hnd Hin; [contradiction|].
  inversion Hnd as [|? ? Hn' Hnd']; subst. rewrite key_eqb_kstr, (String.eqb_sym n n').
  destruct (String.eqb_spec n' n) as [->|Hne].
  - f_equal. apply map_ext_in. intros [n1 s1] Hin1. cbn.
    destruct (String.eqb_spec n1 n) as [->|]; [|reflexivity].
    exfalso. apply Hn', (in_map fst _ _ Hin1).
  - destruct Hin as [->|Hin]; [congruence|]. rewrite IH by assumption. reflexivity.
Qed.

(** ** Lemmas on binding and storing *)

Lemma real_value_not_null m e : real_value m e <> SNull.
Proof. unfold real_value. destruct (norm m e). repeat case_match_goal; discriminate. Qed.

Lemma numeric_text_not_null s : numeric_text s <> SNull.
Proof.
  unfold numeric_text. destruct (atof s) as [[z|m e]|]; [case_match_goal| |]; try discriminate;
    apply real_value_not_null.
Qed.

Lemma apply_affinity_not_null a p : p <> PNull -> apply_affinity a p <> SNull.
Proof.
  intros Hp. destruct a, p as [|z|s]; cbn; try congruence; try apply numeric_text_not_null;
    repeat case_match_goal; try discriminate; exfalso; exact (numeric_text_not_null _ E).
Qed.

Lemma zip_cols_not_null cs ps :
  (forall p, In p ps -> p <> PNull) -> not_null_violation cs (zip_cols cs ps) = None.
Proof.
  revert ps. induction cs as [|c cs IH]; intros [|p ps] Hps; cbn; [reflexivity..|].
  destruct (column_value c p) eqn:E.
  - exfalso. exact (apply_affinity_not_null _ p (Hps p (or_introl eq_refl)) E).
  - rewrite Bool.andb_false_r. apply IH. intros q Hq. apply Hps. right. exact Hq.
  - rewrite Bool.andb_false_r. apply IH. intros q Hq. apply Hps. right. exact Hq.
  - rewrite Bool.andb_false_r. apply IH. intros q Hq. apply Hps. right. exact Hq.
Qed.

(** The [INSERT] binds the five parameters to the columns in order. *)
Lemma row_of_users ps :
  List.length ps = 5 -> row_of Load.users_schema Load.users_cols ps = zip_cols Load.users_schema ps.
Proof.
  intros H. destruct ps as [|p1 [|p2 [|p3 [|p4 [|p5 [|]]]]]]; cbn in H; try lia. reflexivity.
Qed.

Lemma cell_not_null n s : cell n s <> PNull.
Proof. unfold cell. repeat case_match_goal; discriminate. Qed.

(** ** Headers that permute the field names *)

Section Header.
Variables (h : list string).
Hypothesis Hh : Permutation h csv_file_fieldnames.

Lemma header_nodup : NoDup h.
Proof.
  apply (Permutation_NoDup (Permutation_sym Hh)).
  repeat constructor; cbn; intuition discriminate.
Qed.

Lemma header_in n : In n csv_file_fieldnames -> In n h.
Proof. intros Hn. exact (Permutation_in _ (Permutation_sym Hh) Hn). Qed.

Lemma header_length : List.length h = 5.
Proof. exact (Permutation_length Hh). Qed.

Lemma header_fields_ok : forallb field_ok h = true.
Proof.
  apply forallb_forall. intros n Hn. apply (Permutation_in _ Hh) in Hn.
  assert (Hall : forallb field_ok csv_file_fieldnames = true) by (vm_compute; reflexivity).
  exact (proj1 (forallb_forall _ _) Hall n Hn).
Qed.

Lemma rec_fields_perm r :
  List.length r = List.length h ->
  Permutation (map fst (rec_fields h r)) ["id"; "name"; "email"; "description"]%string.
Proof.
  intros Hl. unfold rec_fields.
  pose proof (filter_map_swap (fun n => negb (String.eqb n "password")) fst (combine h r)) as E.
  cbn beta in E. rewrite map_fst_combine in E by lia. rewrite <- E.
  exact (Permutation_filter _ _ _ Hh).
Qed.

Variable r : list string.
Hypothesis Hr : hrec_ok h r = true.

Lemma hrec_length : List.length r = List.length h.
Proof. unfold hrec_ok in Hr. apply Nat.eqb_eq. destruct (Nat.eqb _ _); [reflexivity | discriminate]. Qed.

Lemma hrec_id : exists v, PyStr.int_of_str (field h r "id") = Val v /\ (int64_min <= v <= int64_max)%Z.
Proof.
  unfold hrec_ok in Hr. destruct (PyStr.int_of_str _) as [v|]; [|rewrite Bool.andb_false_r in Hr; discriminate].
  exists v. split; [reflexivity|]. rewrite !Bool.andb_true_iff, !Z.leb_le in Hr. tauto.
Qed.

Lemma make_row_hrec : make_row h r = str_dict (combine h r).
Proof.
  unfold make_row, str_dict. rewrite hrec_length, Nat.ltb_irrefl. cbn.
  rewrite combine_map. apply dict_of_pairs_nodup. rewrite map_map. cbn.
  rewrite <- (map_map fst KStr), map_fst_combine by (symmetry; exact hrec_length).
  apply Finite.Injective_map_NoDup; [intros a b [= ->]; reflexivity | exact header_nodup].
Qed.

Lemma str_dict_keys (l : list (string * string)) : keys (str_dict l) = map KStr (map fst l).
Proof. unfold keys, str_dict. rewrite !map_map. reflexivity. Qed.

Lemma make_row_wf : wf (make_row h r).
Proof.
  unfold wf. rewrite make_row_hrec, str_dict_keys, map_fst_combine by (symmetry; exact hrec_length).
  apply Finite.Injective_map_NoDup; [intros a b [= ->]; reflexivity | exact header_nodup].
Qed.

Lemma hrec_lookup n : In n csv_file_fieldnames -> lookup (make_row h r) (KStr n) = Some (VStr (field h r n)).
Proof.
  intros Hn. rewrite make_row_hrec, lookup_str_dict, find_combine_name by (exact hrec_length || exact (header_in n Hn)).
  reflexivity.
Qed.

Lemma remove_password_hrec : remove_key (make_row h r) k_password = str_dict (rec_fields h r).
Proof.
  rewrite remove_key_filter by exact make_row_wf. rewrite make_row_hrec.
  unfold str_dict, rec_fields. rewrite filter_map_swap. f_equal. apply filter_ext. intros [n s]. cbn.
  unfold k_password. rewrite key_eqb_kstr, String.eqb_sym. reflexivity.
Qed.

Lemma rec_fields_field p : In p (rec_fields h r) -> field h r (fst p) = snd p.
Proof.
  intros Hp. apply filter_In in Hp as [Hp _]. destruct p as [n s]. exact (field_in h r n s header_nodup Hp).
Qed.

(** The loop body of [transform_users] on the record: the values of the
    record in header order, [password] gone, each transformed. *)
Lemma transform_fields_hrec :
  transform_fields (make_row h r) =
    Val (map (fun p => (KStr (fst p), rec_value (fst p) (snd p))) (rec_fields h r)).
Proof.
  destruct hrec_id as (v & Hv & _).
  assert (Hin : forall n, In n ["id"; "email"; "description"]%string -> In n (map fst (rec_fields h r)))
    by (intros n Hn; apply (Permutation_in _ (Permutation_sym (rec_fields_perm r hrec_length)));
        cbn in Hn |- *; tauto).
  assert (Hnd : NoDup (map fst (rec_fields h r)))
    by (apply (Permutation_NoDup (Permutation_sym (rec_fields_perm r hrec_length)));
        repeat constructor; cbn; intuition discriminate).
  rewrite (transform_fields_ok (make_row h r) (field h r "id") (field h r "email") (field h r "description") v)
    by first [exact Hv | apply hrec_lookup; cbn; tauto
             | apply lookup_in_keys; unfold k_password; rewrite hrec_lookup by (cbn; tauto); discriminate].
  unfold fields_result, k_id, k_email, k_description. rewrite remove_password_hrec. unfold str_dict.
  rewrite !setitem_kmap by (exact Hnd || apply Hin; cbn; auto 6). f_equal. apply map_ext_in.
  intros [n s] Hp. pose proof (rec_fields_field _ Hp) as Hf. cbn in Hf |- *. subst s. f_equal.
  unfold rec_value, rec_id.
  destruct (String.eqb_spec n "description"), (String.eqb_spec n "email"), (String.eqb_spec n "id");
    subst; cbn; try congruence.
  rewrite Hv. reflexivity.
Qed.

Lemma adapt_rec_value j p :
  In p (rec_fields h r) -> adapt j (rec_value (fst p) (snd p)) = Val (cell (fst p) (snd p)).
Proof.
  intros Hp. pose proof (rec_fields_field _ Hp) as Hf. destruct p as [n s]. cbn in Hf |- *.
  unfold rec_value, cell. destruct (String.eqb_spec n "id") as [->|_]; [|repeat case_match_goal; reflexivity].
  destruct hrec_id as (v & Hv & Hb). subst s. unfold rec_id. rewrite Hv. cbn -[int64_min int64_max].
  rewrite (proj2 (Z.leb_le _ _) (proj1 Hb)), (proj2 (Z.leb_le _ _) (proj2 Hb)). reflexivity.
Qed.

Lemma bind_params_hrec j z F :
  incl F (rec_fields h r) ->
  bind_params j (map (fun p => rec_value (fst p) (snd p)) F ++ [VDatetime z]) =
    Val (map (fun p => cell (fst p) (snd p)) F ++ [PText (Datetime.isoformat_utc z)]).
Proof.
  revert j. induction F as [|p F IH]; intros j Hi; [reflexivity|].
  cbn [map app bind_params]. rewrite adapt_rec_value by (apply Hi; left; reflexivity).
  rewrite IH by (intros q Hq; apply Hi; right; exact Hq). reflexivity.
Qed.

Lemma rec_fields_length : List.length (rec_fields h r) = 4.
Proof. rewrite <- length_map with (f := fst). exact (Permutation_length (rec_fields_perm r hrec_length)). Qed.

Lemma values_hrec_trow z :
  values (hrec_trow h r z) = map (fun p => rec_value (fst p) (snd p)) (rec_fields h r) ++ [VDatetime z].
Proof. unfold hrec_trow. rewrite values_app. unfold values. rewrite map_map. reflexivity. Qed.

(** [load_data]'s [INSERT] of the row: one row appended, [stored_row]. *)
Lemma insert_hrec tb z :
  tbl_cols tb = Load.users_schema ->
  insert_into "users" tb Load.users_cols (values (hrec_trow h r z)) =
    Val (mkTable (tbl_cols tb) (tbl_rows tb ++ [stored_row h r z])).
Proof.
  intros Hc. unfold insert_into. rewrite values_hrec_trow, bind_params_hrec by (intros p Hp; exact Hp).
  rewrite !length_app, !length_map, rec_fields_length. cbn [negb Nat.eqb rbind List.length Load.users_cols].
  rewrite Hc, row_of_users by (rewrite length_app, length_map, rec_fields_length; reflexivity).
  rewrite zip_cols_not_null; [reflexivity|].
  intros p Hp. apply in_app_or in Hp as [Hp|[<-|[]]]; [|discriminate].
  apply in_map_iff in Hp as (q & <- & _). apply cell_not_null.
Qed.

(** The clock stamp is appended after the record's fields. *)
Lemma hrec_stamp z :
  setitem (map (fun p => (KStr (fst p), rec_value (fst p) (snd p))) (rec_fields h r)) k_processed_at
          (VDatetime z) = hrec_trow h r z.
Proof.
  rewrite setitem_absent; [reflexivity|]. unfold keys. rewrite map_map. cbn.
  rewrite <- (map_map fst KStr). unfold k_processed_at. intros Hin.
  apply in_map_iff in Hin as (n & [= ->] & Hn).
  apply (Permutation_in _ (rec_fields_perm r hrec_length)) in Hn. cbn in Hn. intuition discriminate.
Qed.

End Header.

(** ** The stages over the records of a file *)

Section Stages.
Variable h : list string.
Hypothesis Hh : Permutation h csv_file_fieldnames.

Lemma t_trace_hrecs clock i t rs :
  forallb (hrec_ok h) rs = true ->
  t_trace clock i t (e_trace h i rs) ([MsgEFinished], GStop) =
    (t_items h clock i t rs, ([MsgEFinished; MsgTFinished], GStop, 0)).
Proof.
  revert i t. induction rs as [|r rs IH]; intros i t H; [reflexivity|].
  cbn [forallb e_trace t_trace t_items] in H |- *. apply andb_prop in H as [Hr H].
  rewrite (transform_fields_hrec h Hh r Hr), IH, hrec_stamp by assumption. reflexivity.
Qed.

(** The loader over the transformed good records, whatever ends the
    upstream. *)
Lemma l_run_hrecs_fin tb clock i t rs ms0 g dt0 :
  tbl_cols tb = Load.users_schema -> forallb (hrec_ok h) rs = true ->
  Load.l_run tb (t_items h clock i t rs) (ms0, g, dt0) =
    (l_lines h clock i t rs ++ ms0, List.length rs + dt0,
     match g with
     | GStop => Val (mkTable (tbl_cols tb) (tbl_rows tb ++ db_rows h clock t rs))
     | GRaise e => Err e
     end).
Proof.
  revert i t tb. induction rs as [|r rs IH]; intros i t tb Hc H;
    [destruct g; [rewrite app_nil_r; destruct tb|]; reflexivity|].
  cbn [forallb t_items l_lines db_rows Load.l_run List.length] in H |- *. apply andb_prop in H as [Hr H].
  rewrite (insert_hrec h Hh r Hr), IH by (assumption || reflexivity). cbn [tbl_cols tbl_rows].
  rewrite <- app_assoc. reflexivity.
Qed.

Lemma l_run_hrecs tb clock i t rs :
  tbl_cols tb = Load.users_schema -> forallb (hrec_ok h) rs = true ->
  Load.l_run tb (t_items h clock i t rs) ([MsgEFinished; MsgTFinished], GStop, 0) =
    (l_lines h clock i t rs ++ [MsgEFinished; MsgTFinished], List.length rs,
     Val (mkTable (tbl_cols tb) (tbl_rows tb ++ db_rows h clock t rs))).
Proof. intros Hc H. rewrite l_run_hrecs_fin, Nat.add_0_r by assumption. reflexivity. Qed.

(** The transform stage over good records, then one it rejects. *)
Lemma t_trace_hrecs_raise clock i t good r rest e fin :
  forallb (hrec_ok h) good = true -> transform_fields (make_row h r) = Err e ->
  t_trace clock i t (e_trace h i (good ++ r :: rest)) fin =
    (t_items h clock i t good, ([MsgERow (i + List.length good); MsgTRow (i + List.length good)], GRaise e, 0)).
Proof.
  revert i t. induction good as [|g good IH]; intros i t H He.
  - cbn [app e_trace t_trace]. rewrite He, Nat.add_0_r. reflexivity.
  - cbn [forallb app e_trace t_trace t_items List.length] in H |- *. apply andb_prop in H as [Hg H].
    rewrite (transform_fields_hrec h Hh g Hg), IH, hrec_stamp, Nat.add_succ_r by assumption.
    reflexivity.
Qed.

Lemma hrecs_record_ok rs : forallb (hrec_ok h) rs = true -> Forall (fun r => record_ok r = true) rs.
Proof.
  intros H. apply Forall_forall. intros r Hr. apply (proj1 (forallb_forall _ _) H) in Hr.
  unfold hrec_ok in Hr. rewrite !Bool.andb_true_iff in Hr. destruct Hr as [[Hl _] Hf].
  apply Nat.eqb_eq in Hl. rewrite (header_length h Hh) in Hl. unfold record_ok.
  destruct r; [discriminate | exact Hf].
Qed.
End Stages.

Lemma length_prepend_first {A} m (p : list (A * list msg * nat) * gfin) :
  List.length (fst (prepend_first m p)) = List.length (fst p).
Proof. destruct p as [[|[[x ms] dt] r] [[ms0 e] dt0]]; reflexivity. Qed.

Lemma length_t_items h clock i t rs : List.length (t_items h clock i t rs) = List.length rs.
Proof. revert i t. induction rs; intros; cbn; [reflexivity | f_equal; apply IHrs]. Qed.

End Records.
