(* ===== verification/EndToEnd.v ===== *)
(** * Whole runs of the program

    Theorems about runs of [run_etl] (steps 3-5 of [__main__]) and of
    [main] as a whole, stated on the file system and the console.  The
    theorems over any draws of
    Faker and over any CSV file written by [csv.DictWriter] compose the
    traces of the three stages ([Extract.extract_users_trace],
    [Transform.transform_users_trace], [Load.load_data_yields]) with the
    writer and reader lemmas of [Csv], [generate_csv] and [init_db]. *)

From Stdlib Require Import List String Ascii ZArith Lia Permutation.
From S2P Require Import Prelude PyStr PyObj Datetime Store Affinity Runtime Transform Sqlite Load Csv CsvNewlines Extract Main Records.
Import ListNotations.
Local Open Scope etl_scope.

Module EndToEnd.
Import PyObj Store Runtime Sqlite Csv CsvNewlines Transform Extract Main Records.

(** ** Whole runs over any draws

    The records of [get_user] as text: [id_text i] is [str(i)], and the
    e-mail is the one [random.choice] picked. *)
Definition chosen_email (d : draw) : string :=
  if choose_a d then PyStr.upper (email_a d) else PyStr.lower (email_b d).

Definition id_text (i : nat) : string :=
  match PyStr.str_of_int (Z.of_nat i) with Val s => s | Err _ => EmptyString end.

Definition record (i : nat) (d : draw) : list string :=
  [id_text i; first_name d; chosen_email d; password d; description d].

(** An index whose [str] succeeds, is read back by the CSV reader, and
    fits SQLite's INTEGER. *)
Definition id_ok (i : nat) : bool :=
  match PyStr.str_of_int (Z.of_nat i) with
  | Val s => field_ok s && (Z.of_nat i <=? int64_max)%Z
  | Err _ => false
  end.

(** The drawn strings the CSV reader reads back. *)
Definition draw_ok (d : draw) : bool :=
  field_ok (first_name d) && field_ok (chosen_email d) && field_ok (password d) &&
  field_ok (description d).

(** The drawn strings within the field size limit: the reader reads
    them back, translated ([CsvNewlines]). *)
Definition draw_fits (d : draw) : bool :=
  forallb field_fits [first_name d; chosen_email d; password d; description d].

(** The draw as the reader gives it back: each string with its CR LF
    and lone CR turned into LF. *)
Definition read_draw (d : draw) : draw :=
  mkDraw (translate_newlines (first_name d)) (translate_newlines (email_a d))
         (translate_newlines (email_b d)) (choose_a d) (translate_newlines (password d))
         (translate_newlines (description d)).

(** The row [transform_users] yields for record [i], stamped [z], and
    the row stored for it. *)
Definition trow (i : nat) (d : draw) (z : Z) : dict :=
  [(k_id, VInt (Z.of_nat i)); (k_name, VStr (first_name d));
   (k_email, VStr (PyStr.lower (chosen_email d)));
   (k_description, VStr (PyStr.filter_chars PyStr.isalnum_char (description d)));
   (k_processed_at, VDatetime z)].

Definition db_row (i : nat) (d : draw) (z : Z) : list sqlval :=
  [SInt (Z.of_nat i); SText (first_name d); SText (PyStr.lower (chosen_email d));
   SText (PyStr.filter_chars PyStr.isalnum_char (description d));
   SText (Datetime.isoformat_utc z)].

(** The database file [init_db] leaves. *)
Definition users_db : database := [("users"%string, mkTable Load.users_schema [])].

(** ** End-to-end runs *)

(** The rows of table [users] in the database file at [p]. *)
Definition users_rows (f : fs) (p : string) : option (list (list sqlval)) :=
  match fs_lookup f p with
  | Some (NDb db) => option_map tbl_rows (db_table db "users"%string)
  | _ => None
  end.

Definition crlf : string := String cr (String lf EmptyString).

(** A CSV file as [generate_csv] writes it: each line ends with CRLF. *)
Definition csv_of_lines (ls : list string) : string := PyStr.join (map (fun l => l ++ crlf)%string ls).

(** The file system before steps 3-5: the CSV file, and the database
    file [init_db] leaves (an empty [users] table). *)
Definition fs_with_csv (lines : list string) : fs :=
  [(csv_file, NText (csv_of_lines lines));
   (db_path, NDb users_db)].

(** The number of lines the reader sees in the file at [p]: none when
    the file is missing or not text. *)
Definition csv_lines (f : fs) (p : string) : nat :=
  match fs_lookup f p with
  | Some (NText s) => List.length (file_lines s)
  | _ => 0
  end.

(** The type of a TransformedRecord in the specification's data model:
    exactly the keys [id], [name], [email], [description],
    [processed_at], in this order, holding an [int], three [str] and a
    [datetime]. *)
Definition record_typed (r : dict) : bool :=
  match r with
  | [(KStr "id", VInt _); (KStr "name", VStr _); (KStr "email", VStr _);
     (KStr "description", VStr _); (KStr "processed_at", VDatetime _)] => true
  | _ => false
  end%string.

Definition spec_lines : list string :=
  ["id,name,email,password,description"; "0,Ann,A@X.COM,p,ab-12!"; "1,Bo,b@y.com,q,**cd34";
   "2,x,C@Z.COM,r,5!6@"]%string.

Lemma id_ok_str i : id_ok i = true -> PyStr.str_of_int (Z.of_nat i) = Val (id_text i).
Proof. unfold id_ok, id_text. destruct (PyStr.str_of_int (Z.of_nat i)); [reflexivity | discriminate]. Qed.

Lemma writeheader_fields : writeheader csv_file_fieldnames = Val (write_record csv_file_fieldnames).
Proof. reflexivity. Qed.

Lemma writerow_user i d :
  id_ok i = true -> dict_writerow csv_file_fieldnames (user i d) = Val (write_record (record i d)).
Proof.
  intros H. unfold dict_writerow, dict_to_list, user. cbn -[PyStr.str_of_int write_record].
  rewrite (id_ok_str i H). reflexivity.
Qed.

Lemma forallb_seq_in (p : nat -> bool) i n k :
  forallb p (seq i n) = true -> i <= k < i + n -> p k = true.
Proof. intros H Hk. apply (proj1 (forallb_forall _ _) H). apply in_seq. lia. Qed.

Lemma write_rows_users faker i n :
  forallb id_ok (seq i n) = true ->
  write_rows csv_file_fieldnames (map (fun k => user k (faker k)) (seq i n)) =
    (records_text (map (fun k => record k (faker k)) (seq i n)), None).
Proof.
  revert i. induction n as [|n IH]; intros i H; [reflexivity|].
  cbn [seq map write_rows] in H |- *. apply andb_prop in H as [Hi H].
  rewrite writerow_user, IH by assumption. reflexivity.
Qed.

(** [generate_csv] writes the header, then one record per user. *)
Lemma csv_text_users faker n :
  forallb id_ok (seq 0 n) = true ->
  csv_text csv_file_fieldnames (get_user n faker) =
    ((write_record csv_file_fieldnames ++ records_text (map (fun k => record k (faker k)) (seq 0 n)))%string,
     None).
Proof.
  intros H. unfold csv_text, get_user. rewrite writeheader_fields, write_rows_users by exact H.
  reflexivity.
Qed.

(** A record whose id [int()] rejects: the loop body raises [ValueError]. *)
Lemma transform_fields_bad_id i n e p d err :
  PyStr.int_of_str i = Err err ->
  transform_fields (make_row csv_file_fieldnames [i; n; e; p; d]) = Err (ValueErrorInt i err).
Proof. intros H. unfold transform_fields. cbn -[PyStr.int_of_str]. rewrite H. reflexivity. Qed.

(** The records of [get_user] are such records. *)
Lemma rec_ok_record i d :
  id_ok i = true -> draw_ok d = true -> hrec_ok csv_file_fieldnames (record i d) = true.
Proof.
  unfold id_ok, draw_ok, hrec_ok. intros Hi Hd.
  change (field csv_file_fieldnames (record i d) "id") with (id_text i).
  rewrite (PyStr.int_of_str_of_int_ok _ (id_text i) (id_ok_str i Hi)). unfold record, id_text in *.
  destruct (PyStr.str_of_int (Z.of_nat i)) as [s|]; [|discriminate].
  assert (Hmin : (int64_min <=? Z.of_nat i)%Z = true) by (apply Z.leb_le; unfold int64_min; lia).
  rewrite Hmin. cbn [forallb List.length Nat.eqb csv_file_fieldnames].
  repeat rewrite Bool.andb_true_iff in *. intuition.
Qed.

Lemma chosen_email_read d : chosen_email (read_draw d) = translate_newlines (chosen_email d).
Proof. unfold chosen_email, read_draw. cbn. destruct (choose_a d); symmetry; [apply translate_upper | apply translate_lower]. Qed.

Lemma id_text_no_cr i : id_ok i = true -> no_cr (id_text i) = true.
Proof.
  unfold id_ok, id_text. destruct (PyStr.str_of_int (Z.of_nat i)); [|discriminate].
  unfold field_ok. intros H. apply andb_prop in H as [H _]. apply andb_prop in H. tauto.
Qed.

(** The reader gives back the record of the translated draw. *)
Lemma record_read_draw i d :
  id_ok i = true -> map translate_newlines (record i d) = record i (read_draw d).
Proof.
  intros H. unfold record. cbn [map]. rewrite chosen_email_read, (translate_no_cr_id _ (id_text_no_cr i H)).
  reflexivity.
Qed.

Lemma draw_ok_read d : draw_fits d = true -> draw_ok (read_draw d) = true.
Proof.
  unfold draw_fits, draw_ok. cbn [forallb]. rewrite chosen_email_read. intros H.
  repeat rewrite Bool.andb_true_iff in H. destruct H as (H1 & H2 & H3 & H4 & _). unfold field_fits in *.
  apply Nat.leb_le in H1, H2, H3, H4. cbn [read_draw first_name password description].
  rewrite !field_ok_translate by assumption. reflexivity.
Qed.

Lemma record_fits_record i d : id_ok i = true -> draw_fits d = true -> record_fits (record i d) = true.
Proof.
  unfold id_ok, draw_fits, record, id_text. destruct (PyStr.str_of_int (Z.of_nat i)); [|discriminate].
  unfold field_ok. intros H1 H2. apply andb_prop in H1 as [H1 _]. apply andb_prop in H1 as [_ H1].
  cbn [record_fits forallb] in *. unfold field_fits at 1. rewrite H1. exact H2.
Qed.

Lemma rec_id_record i : id_ok i = true -> rec_id (id_text i) = Z.of_nat i.
Proof. intros H. unfold rec_id. rewrite (PyStr.int_of_str_of_int_ok _ _ (id_ok_str i H)). reflexivity. Qed.

Lemma hrec_trow_record k d z :
  id_ok k = true -> hrec_trow csv_file_fieldnames (record k d) z = trow k d z.
Proof.
  intros H. unfold hrec_trow, rec_fields, record, rec_value.
  cbn -[rec_id PyStr.lower PyStr.filter_chars chosen_email id_text]. rewrite rec_id_record by exact H.
  reflexivity.
Qed.

Lemma stored_row_record k d z :
  id_ok k = true -> stored_row csv_file_fieldnames (record k d) z = db_row k d z.
Proof.
  intros H. unfold stored_row, rec_fields, record, cell.
  cbn -[rec_id PyStr.lower PyStr.filter_chars chosen_email id_text]. rewrite rec_id_record by exact H.
  reflexivity.
Qed.

Lemma t_items_records clock faker t0 i n :
  forallb id_ok (seq i n) = true ->
  t_items csv_file_fieldnames clock i (t0 + i) (map (fun k => record k (faker k)) (seq i n)) =
    map (fun k => (trow k (faker k) (clock (t0 + k)), [MsgERow k; MsgTRow k], 1)) (seq i n).
Proof.
  revert i. induction n as [|n IH]; intros i H; [reflexivity|].
  cbn [seq map t_items forallb] in H |- *. apply andb_prop in H as [Hi H].
  rewrite <- Nat.add_succ_r, IH by exact H. rewrite hrec_trow_record by exact Hi.
  reflexivity.
Qed.

Lemma l_lines_records clock faker t0 i n :
  forallb id_ok (seq i n) = true ->
  l_lines csv_file_fieldnames clock i (t0 + i) (map (fun k => record k (faker k)) (seq i n)) =
    flat_map (fun k => [MsgERow k; MsgTRow k; MsgLInsert (trow k (faker k) (clock (t0 + k)))]) (seq i n).
Proof.
  revert i. induction n as [|n IH]; intros i H; [reflexivity|].
  cbn [seq map l_lines flat_map forallb] in H |- *. apply andb_prop in H as [Hi H].
  rewrite <- Nat.add_succ_r, IH by exact H. rewrite hrec_trow_record by exact Hi.
  reflexivity.
Qed.

Lemma db_rows_records clock faker t0 i n :
  forallb id_ok (seq i n) = true ->
  db_rows csv_file_fieldnames clock (t0 + i) (map (fun k => record k (faker k)) (seq i n)) =
    map (fun k => db_row k (faker k) (clock (t0 + k))) (seq i n).
Proof.
  revert i. induction n as [|n IH]; intros i H; [reflexivity|].
  cbn [seq map db_rows forallb] in H |- *. apply andb_prop in H as [Hi H].
  rewrite <- Nat.add_succ_r, IH by exact H. rewrite stored_row_record by exact Hi.
  reflexivity.
Qed.

Lemma connect_fresh path f out t c :
  fs_lookup f path = None ->
  connect path (mkWorld f out t c) =
    (Ok (mkConn path (Some []) false), mkWorld (fs_write f path (NDb [])) out t c).
Proof. intros H. unfold connect, bind. cbn [read_fs w_fs]. rewrite H. reflexivity. Qed.

(** [init_db(path)] when [path] is not a directory: the file is replaced
    by a database holding an empty [users] table; nothing else changes. *)
Lemma init_db_run path f out t c :
  fs_lookup f path <> Some NDir ->
  exists f', init_db path (mkWorld f out t c) = (Ok tt, mkWorld f' (out ++ [MsgTableCreated]) t c) /\
    fs_lookup f' path = Some (NDb users_db) /\
    forall p, p <> path -> fs_lookup f' p = fs_lookup f p.
Proof.
  intros Hd.
  assert (Hrest : forall f1, fs_lookup f1 path = None ->
            (forall p, p <> path -> fs_lookup f1 p = fs_lookup f p) ->
            exists f', (c0 <- connect path ;;
                        try_finally
                          (try_except
                             (_ <- with_conn c0 (c' <- execute c0 create_users [] ;; ret (tt, c')) ;;
                              print MsgTableCreated)
                             (fun e => if is_sqlite_error e then print (MsgSqliteError e)
                                       else print (MsgUnexpected e)))
                          (close c0)) (mkWorld f1 out t c) =
                       (Ok tt, mkWorld f' (out ++ [MsgTableCreated]) t c) /\
                       fs_lookup f' path = Some (NDb users_db) /\
                       forall p, p <> path -> fs_lookup f' p = fs_lookup f p).
  { intros f1 H1 H2. exists (fs_write (fs_write f1 path (NDb [])) path (NDb users_db)).
    split; [|split].
    - unfold bind at 1. rewrite connect_fresh by exact H1. reflexivity.
    - apply assoc_find_set_eq.
    - intros p Hp. unfold fs_lookup, fs_write. rewrite !assoc_find_set_ne by congruence.
      apply H2, Hp. }
  unfold init_db, bind at 1. cbn [read_fs w_fs].
  destruct (fs_lookup f path) as [[s|db|]|] eqn:E; [| |contradiction|];
    unfold bind at 1; cbn [write_fs modify ret w_fs w_out w_tick w_clock]; apply Hrest; try exact E;
    try reflexivity; try apply assoc_find_remove_eq;
    intros p Hp; apply assoc_find_remove_ne; congruence.
Qed.

(** [generate_csv] when the CSV path is not a directory. *)
Lemma generate_csv_run faker n path f out t c :
  fs_lookup f path <> Some NDir -> forallb id_ok (seq 0 n) = true ->
  generate_csv path csv_file_fieldnames n faker (mkWorld f out t c) =
    (Ok tt, mkWorld (fs_write f path
                       (NText (write_record csv_file_fieldnames ++
                               records_text (map (fun k => record k (faker k)) (seq 0 n)))))
                    (out ++ [MsgRecordsWritten n path]) t c).
Proof.
  intros Hd Hid. unfold generate_csv, bind at 1. cbn [read_fs w_fs].
  rewrite csv_text_users by exact Hid.
  destruct (fs_lookup f path) as [[s|db|]|]; [| |contradiction|]; reflexivity.
Qed.

Lemma users_rows_after f p db rows tb :
  rows <> [] -> users_rows (Load.fs_after f p db rows tb) p = Some (tbl_rows tb).
Proof.
  destruct rows; [congruence|]. intros _. unfold users_rows, Load.fs_after, fs_lookup, fs_write.
  rewrite assoc_find_set_eq, db_table_set_eq. reflexivity.
Qed.

(** The records of draws within the field limit: the reader takes them
    through, and reads back the records of the translated draws. *)
Lemma draws_records faker :
  forallb id_ok (seq 0 num_records) = true ->
  (forall i, i < num_records -> draw_fits (faker i) = true) ->
  Forall (fun r => record_fits r = true) (map (fun k => record k (faker k)) (seq 0 num_records)) /\
  map (map translate_newlines) (map (fun k => record k (faker k)) (seq 0 num_records)) =
    map (fun k => record k (read_draw (faker k))) (seq 0 num_records) /\
  forallb (hrec_ok csv_file_fieldnames) (map (fun k => record k (read_draw (faker k))) (seq 0 num_records)) = true.
Proof.
  intros Hid Hdraw.
  assert (Hk : forall k, In k (seq 0 num_records) -> id_ok k = true /\ draw_fits (faker k) = true)
    by (intros k Hk; apply in_seq in Hk; split; [apply (forallb_seq_in _ 0 num_records) | apply Hdraw]; (exact Hid || lia)).
  split; [|split].
  - apply Forall_forall. intros r Hr. apply in_map_iff in Hr as (k & <- & Hin).
    apply record_fits_record; apply Hk, Hin.
  - rewrite map_map. apply map_ext_in. intros k Hin. apply record_read_draw, Hk, Hin.
  - apply forallb_forall. intros r Hr. apply in_map_iff in Hr as (k & <- & Hin).
    apply rec_ok_record; [apply Hk, Hin | apply draw_ok_read, Hk, Hin].
Qed.

(** C1: the whole program, for any data Faker draws whose strings fit
    the CSV reader's field size limit (131072 characters) and whatever
    the clock: [main] ends normally; the table [users] holds exactly one
    row per generated record, in order, with the id, the name, the
    lower-cased chosen e-mail, the alphanumeric characters of the
    description and the instant of the [k]-th clock read -- the strings
    as the reader reads them back ([read_draw]: each CR LF and lone CR
    becomes LF; Faker's own strings hold none, and are stored as drawn);
    the console shows the generation and table lines, then the three
    stages interleaved row by row, as the generators run lazily; the
    clock was read once per row. *)
Theorem main_end_to_end fuel faker w0 :
  num_records < fuel ->
  (forall i, i < num_records -> draw_fits (faker i) = true) ->
  fs_lookup (w_fs w0) csv_file <> Some NDir -> fs_lookup (w_fs w0) db_path <> Some NDir ->
  exists w', main fuel faker w0 = (Ok tt, w') /\
    users_rows (w_fs w') db_path =
      Some (map (fun k => db_row k (read_draw (faker k)) (w_clock w0 (w_tick w0 + k))) (seq 0 num_records)) /\
    w_out w' = w_out w0 ++
      [MsgRecordsWritten num_records csv_file; MsgTableCreated; MsgLStart; MsgTStart; MsgEStart] ++
      flat_map (fun k => [MsgERow k; MsgTRow k;
                          MsgLInsert (trow k (read_draw (faker k)) (w_clock w0 (w_tick w0 + k)))])
               (seq 0 num_records) ++
      [MsgEFinished; MsgTFinished; MsgLFinished] /\
    w_tick w' = w_tick w0 + num_records.
Proof.
  intros Hfuel Hdraw Hcsv Hdb. destruct w0 as [f0 out0 t0 clock]. cbn [w_fs w_out w_tick w_clock] in *.
  assert (Hid : forallb id_ok (seq 0 num_records) = true) by (vm_compute; reflexivity).
  assert (Hne : csv_file <> db_path) by discriminate.
  destruct (draws_records faker Hid Hdraw) as (Hfits & Hread & Hok).
  set (rs := map (fun k => record k (faker k)) (seq 0 num_records)) in *.
  set (rs' := map (fun k => record k (read_draw (faker k))) (seq 0 num_records)) in *.
  set (text := (write_record csv_file_fieldnames ++ records_text rs)%string).
  set (f1 := fs_write f0 csv_file (NText text)).
  assert (Hdb1 : fs_lookup f1 db_path <> Some NDir)
    by (unfold f1, fs_lookup, fs_write; rewrite assoc_find_set_ne by congruence; exact Hdb).
  destruct (init_db_run db_path f1 (out0 ++ [MsgRecordsWritten num_records csv_file]) t0 clock Hdb1)
    as (f2 & Hinit & Hf2db & Hf2).
  assert (Hf2csv : fs_lookup f2 csv_file = Some (NText text))
    by (rewrite Hf2 by exact Hne; apply assoc_find_set_eq).
  pose proof (transform_users_trace f2 clock _ _ _ t0
                (extract_users_trace_tr f2 csv_file csv_file_fieldnames rs Hf2csv eq_refl Hfits)) as Y.
  rewrite Hread, t_trace_prepend0 in Y. cbn [fst snd] in Y.
  rewrite (t_trace_hrecs _ (Permutation_refl _) clock 0 t0 rs' Hok) in Y.
  unfold main, bind at 1. rewrite (generate_csv_run faker num_records csv_file f0 out0 t0 clock Hcsv Hid).
  fold rs text f1. unfold bind at 1. rewrite Hinit. unfold run_etl.
  rewrite (Load.load_data_yields _ _ _ _ _ _ _ users_db (mkTable Load.users_schema []) _ fuel Hf2db eq_refl Y)
    by (rewrite !length_prepend_first; cbn [fst]; rewrite length_t_items; unfold rs';
        rewrite length_map, length_seq; exact Hfuel).
  rewrite !Load.l_run_prepend. cbn [fst snd].
  rewrite (l_run_hrecs _ (Permutation_refl _) (mkTable Load.users_schema []) clock 0 t0 rs' eq_refl Hok).
  pose proof (db_rows_records clock (fun k => read_draw (faker k)) t0 0 num_records Hid) as Erows.
  pose proof (l_lines_records clock (fun k => read_draw (faker k)) t0 0 num_records Hid) as Elines.
  rewrite Nat.add_0_r in Erows, Elines. fold rs' in Erows, Elines.
  eexists. split; [reflexivity|]. split; [|split].
  - cbn [w_fs]. rewrite users_rows_after by (unfold rs', num_records; cbn; discriminate).
    cbn [tbl_rows app]. exact (f_equal Some Erows).
  - cbn [w_out]. rewrite Elines, <- !app_assoc. reflexivity.
  - cbn [w_tick]. unfold rs'. rewrite length_map, length_seq. reflexivity.
Qed.

(** C12: the pipeline terminates on every input: whatever the CSV file
    holds (any text, or a missing, unreadable or non-text file), with
    more fuel than two plus its number of lines, [load_data] pulling rows
    through [transform_users(extract_users(csv))] returns or raises and
    never runs out of fuel. *)
Theorem run_etl_total fuel csv db w :
  csv <> db ->
  S (S (csv_lines (w_fs w) csv)) < fuel ->
  fst (run_etl fuel csv db w) <> OutOfFuel.
Proof.
  intros Hne Hs Hf. unfold csv_lines in Hs. unfold run_etl in Hf.
  destruct (Load.load_data fuel _ db w) as [r w'] eqn:E. cbn [fst] in Hf. subst r.
  refine (Load.load_data_no_fuel fuel _ db w w' _ E). intros c w1 Hc.
  cbn [gen_measure transform_bound tgen_measure extract_bound egen_measure transform_users extract_users].
  rewrite (connect_other _ _ _ _ _ Hc Hne).
  destruct (fs_lookup (w_fs w) csv) as [[s| |]|]; lia.
Qed.

(** Steps 3-5 on any input, with a database file holding a [users]
    table: the upstream chain has a trace, and [load_data] runs over it. *)
Lemma run_etl_traced fuel csv db f out t clock dbv tb :
  fs_lookup f db = Some (NDb dbv) -> db_table dbv "users" = Some tb ->
  S (S (csv_lines f csv)) < fuel ->
  exists tr fin, run_etl fuel csv db (mkWorld f out t clock) =
    let '(ms, dt, r) := Load.l_run tb tr fin in
    match r with
    | Val tb' => (Ok tt, mkWorld (Load.fs_after f db dbv (items tr) tb')
                                 (out ++ MsgLStart :: ms ++ [MsgLFinished]) (t + dt) clock)
    | Err e => (Ok tt, mkWorld f (out ++ MsgLStart :: ms ++ [Load.error_msg e]) (t + dt) clock)
    end.
Proof.
  intros Hdb Htb Hf. unfold run_etl.
  set (g := transform_users (extract_users csv)).
  destruct (yields_exists (transform_next_local extract_next_local) f clock _ g t (le_n _))
    as (tr & fin & Y & Hl).
  assert (Hm : gen_measure g f <= S (S (csv_lines f csv))).
  { cbn [gen_measure transform_bound tgen_measure extract_bound egen_measure g transform_users extract_users].
    unfold csv_lines. destruct (fs_lookup f csv) as [[s| |]|]; lia. }
  exists tr, fin. exact (Load.load_data_yields f clock g t tr fin db dbv tb out fuel Hdb Htb Y ltac:(lia)).
Qed.

(** C9: steps 3-5 are all-or-nothing on any input: whatever the CSV
    path holds (any text, however malformed, a missing file, a directory
    or a database file), with a database file holding a [users] table
    and fuel above two plus the file's number of lines, [load_data]
    pulling rows through [transform_users(extract_users(csv))] ends
    normally -- every exception of the three stages is caught -- and
    leaves the file system either exactly as it was (no row, or the
    transaction rolled back) or with rows appended to [users] and
    nothing else changed. *)
Theorem run_etl_all_or_nothing fuel csv db w dbv tb :
  fs_lookup (w_fs w) db = Some (NDb dbv) -> db_table dbv "users" = Some tb ->
  S (S (csv_lines (w_fs w) csv)) < fuel ->
  exists w', run_etl fuel csv db w = (Ok tt, w') /\
    (w_fs w' = w_fs w \/
     exists new, w_fs w' = fs_write (w_fs w) db
                   (NDb (set_table dbv "users" (mkTable (tbl_cols tb) (tbl_rows tb ++ new))))).
Proof.
  destruct w as [f out t clock]. cbn [w_fs]. intros Hdb Htb Hf.
  destruct (run_etl_traced fuel csv db f out t clock dbv tb Hdb Htb Hf) as (tr & fin & ->).
  destruct (Load.l_run tb tr fin) as [[ms dt] [tb'|e]] eqn:El; eexists; (split; [reflexivity|]); cbn [w_fs];
    [|left; reflexivity].
  destruct (Load.l_run_appends _ _ _ _ _ _ El) as [Hc [new Hn]].
  unfold Load.fs_after. destruct (items tr); [left; reflexivity|]. right. exists new.
  destruct tb' as [c r]. cbn in Hc, Hn. subst. reflexivity.
Qed.

(** C10: steps 3-5 always come to a verdict the user sees: on any content
    of the CSV path the console ends with ["L: load
    finished."] or with the message of the exception that stopped the
    run ("Database error: ..." or "An unexpected error occurred: ...");
    after the error message the file system is exactly as before. *)
Theorem run_etl_verdict fuel csv db w dbv tb :
  fs_lookup (w_fs w) db = Some (NDb dbv) -> db_table dbv "users" = Some tb ->
  S (S (csv_lines (w_fs w) csv)) < fuel ->
  exists w' ms, run_etl fuel csv db w = (Ok tt, w') /\
    (w_out w' = w_out w ++ MsgLStart :: ms ++ [MsgLFinished] \/
     exists e, w_out w' = w_out w ++ MsgLStart :: ms ++ [Load.error_msg e] /\ w_fs w' = w_fs w).
Proof.
  destruct w as [f out t clock]. cbn [w_fs w_out]. intros Hdb Htb Hf.
  destruct (run_etl_traced fuel csv db f out t clock dbv tb Hdb Htb Hf) as (tr & fin & ->).
  destruct (Load.l_run tb tr fin) as [[ms dt] [tb'|e]]; eexists; exists ms; (split; [reflexivity|]);
    [left; reflexivity | right; exists e; split; reflexivity].
Qed.

(** C11: order preservation, for any CSV file [csv.DictWriter] wrote
    under any order of the five field names: over records whose id is an
    [int] literal within the 64-bit range and whose fields the reader
    reads back, steps 3-5 append one row per record to the [users]
    table, in file order; each row is the record's values in header
    order ([int(id)], the name, the lower-cased e-mail, the alphanumeric
    characters of the description, without the password) followed by
    the [k]-th clock read, each stored under the affinity of the column
    it is bound to ([stored_row]); the console shows the stages
    interleaved row by row; the clock is read once per row; no other
    file changes. *)
Theorem etl_order_preservation fuel h rs f out t clock db tb :
  Permutation h csv_file_fieldnames ->
  forallb (hrec_ok h) rs = true -> List.length rs < fuel ->
  fs_lookup f csv_file = Some (NText (write_record h ++ records_text rs)) ->
  fs_lookup f db_path = Some (NDb db) -> db_table db "users" = Some tb ->
  tbl_cols tb = Load.users_schema ->
  exists w', run_etl fuel csv_file db_path (mkWorld f out t clock) = (Ok tt, w') /\
    users_rows (w_fs w') db_path = Some (tbl_rows tb ++ db_rows h clock t rs) /\
    w_out w' = out ++ MsgLStart :: MsgTStart :: MsgEStart :: l_lines h clock 0 t rs ++
                [MsgEFinished; MsgTFinished; MsgLFinished] /\
    w_tick w' = t + List.length rs /\
    (forall p, p <> db_path -> fs_lookup (w_fs w') p = fs_lookup f p).
Proof.
  intros Hh Hok Hf Hcsv Hdb Ht Hc.
  pose proof (transform_users_trace f clock _ _ _ t
                (extract_users_trace f csv_file h rs Hcsv (header_fields_ok h Hh)
                   (hrecs_record_ok h Hh rs Hok))) as Y.
  rewrite t_trace_prepend0 in Y. cbn [fst snd] in Y. rewrite (t_trace_hrecs h Hh clock 0 t rs Hok) in Y.
  unfold run_etl. rewrite (Load.load_data_yields _ _ _ _ _ _ _ db tb out fuel Hdb Ht Y)
    by (rewrite !length_prepend_first; cbn [fst]; rewrite length_t_items; exact Hf).
  rewrite !Load.l_run_prepend. cbn [fst snd]. rewrite (l_run_hrecs h Hh tb clock 0 t rs Hc Hok).
  eexists. split; [reflexivity|]. cbn [w_fs w_out w_tick]. split; [|split; [|split]].
  - destruct rs as [|r rs'].
    + unfold users_rows. cbn [Load.fs_after items prepend_first fst t_items map]. rewrite Hdb, Ht. cbn. rewrite app_nil_r. reflexivity.
    + rewrite users_rows_after by (cbn; discriminate). reflexivity.
  - cbn [app]. rewrite <- ?app_assoc. reflexivity.
  - reflexivity.
  - intros p Hp. destruct rs as [|r rs']; [reflexivity|]. cbn.
    unfold fs_lookup, fs_write. apply assoc_find_set_ne. congruence.
Qed.

(** The rows steps 3-5 store for such a file. *)
Lemma run_etl_hrecs_rows fuel h rs f out t clock db tb :
  Permutation h csv_file_fieldnames ->
  forallb (hrec_ok h) rs = true -> List.length rs < fuel ->
  fs_lookup f csv_file = Some (NText (write_record h ++ records_text rs)) ->
  fs_lookup f db_path = Some (NDb db) -> db_table db "users" = Some tb ->
  tbl_cols tb = Load.users_schema ->
  users_rows (w_fs (snd (run_etl fuel csv_file db_path (mkWorld f out t clock)))) db_path =
    Some (tbl_rows tb ++ db_rows h clock t rs).
Proof.
  intros Hh Hok Hf Hcsv Hdb Ht Hc.
  pose proof (transform_users_trace f clock _ _ _ t
                (extract_users_trace f csv_file h rs Hcsv (header_fields_ok h Hh)
                   (hrecs_record_ok h Hh rs Hok))) as Y.
  rewrite t_trace_prepend0 in Y. cbn [fst snd] in Y. rewrite (t_trace_hrecs h Hh clock 0 t rs Hok) in Y.
  unfold run_etl. rewrite (Load.load_data_yields _ _ _ _ _ _ _ db tb out fuel Hdb Ht Y)
    by (rewrite !length_prepend_first; cbn [fst]; rewrite length_t_items; exact Hf).
  rewrite !Load.l_run_prepend. cbn [fst snd]. rewrite (l_run_hrecs h Hh tb clock 0 t rs Hc Hok).
  cbn [snd w_fs]. destruct rs as [|r rs'].
  - unfold users_rows. cbn [Load.fs_after items prepend_first fst t_items map]. rewrite Hdb, Ht.
    cbn. rewrite app_nil_r. reflexivity.
  - rewrite users_rows_after by (cbn; discriminate). reflexivity.
Qed.

(** C14: an id that [int()] rejects does not abort the run with an
    exception, wherever it occurs: for any CSV file [csv.DictWriter]
    wrote whose records before it are good (as in the order-preservation
    claim), [load_data]'s [except Exception] catches the [ValueError]
    raised in the transform stage, the transaction that held the earlier
    rows is rolled back -- the file system is exactly as before, the
    table holding its old rows only -- and the error is the last line
    printed, after the lines of the earlier rows and of the bad one. *)
Theorem etl_bad_id_rolled_back fuel good i n e p d err rest f out t clock db tb :
  forallb (hrec_ok csv_file_fieldnames) good = true -> PyStr.int_of_str i = Err err ->
  forallb field_ok [i; n; e; p; d] = true -> Forall (fun r => record_ok r = true) rest ->
  List.length good < fuel ->
  fs_lookup f csv_file =
    Some (NText (write_record csv_file_fieldnames ++ records_text (good ++ [i; n; e; p; d] :: rest))) ->
  fs_lookup f db_path = Some (NDb db) -> db_table db "users" = Some tb ->
  tbl_cols tb = Load.users_schema ->
  exists w', run_etl fuel csv_file db_path (mkWorld f out t clock) = (Ok tt, w') /\
    w_fs w' = f /\ users_rows (w_fs w') db_path = Some (tbl_rows tb) /\
    w_out w' = out ++ MsgLStart :: MsgTStart :: MsgEStart :: l_lines csv_file_fieldnames clock 0 t good ++
                 [MsgERow (List.length good); MsgTRow (List.length good);
                  MsgUnexpected (ValueErrorInt i err)] /\
    w_tick w' = t + List.length good.
Proof.
  intros Hok Hi Hb Hrest Hf Hcsv Hdb Ht Hc.
  assert (Hrec : Forall (fun r => record_ok r = true) (good ++ [i; n; e; p; d] :: rest))
    by (apply Forall_app; split; [apply (hrecs_record_ok _ (Permutation_refl _)), Hok | constructor; [exact Hb | exact Hrest]]).
  pose proof (transform_users_trace f clock _ _ _ t
                (extract_users_trace f csv_file csv_file_fieldnames _ Hcsv eq_refl Hrec)) as Y.
  rewrite t_trace_prepend0 in Y. cbn [fst snd] in Y.
  rewrite (t_trace_hrecs_raise _ (Permutation_refl _) clock 0 t good _ rest _ _ Hok
             (transform_fields_bad_id i n e p d err Hi)) in Y.
  unfold run_etl. rewrite (Load.load_data_yields _ _ _ _ _ _ _ db tb out fuel Hdb Ht Y)
    by (rewrite !length_prepend_first; cbn [fst]; rewrite length_t_items; exact Hf).
  rewrite !Load.l_run_prepend. cbn [fst snd]. rewrite (l_run_hrecs_fin _ (Permutation_refl _) tb clock 0 t good _ _ _ Hc Hok).
  eexists. split; [reflexivity|]. cbn [w_fs w_out w_tick]. split; [reflexivity|].
  split; [unfold users_rows; rewrite Hdb, Ht; reflexivity|]. split; [|lia].
  cbn [app Nat.add]. rewrite <- ?app_assoc. reflexivity.
Qed.

(** C13: every row the transform stage makes of a CSV record read under
    the header [generate_csv] writes, with at most as many fields as the
    header, has the type of a TransformedRecord: [id] an [int], [name],
    [email] and [description] strings, [processed_at] a [datetime], and
    no other key.  (A shorter record cannot get through the loop body;
    a longer one keeps its surplus fields under the key [None].) *)
Theorem transform_record_type fields w row' w' :
  List.length fields <= 5 ->
  transform_row (make_row csv_file_fieldnames fields) w = (Ok row', w') ->
  record_typed row' = true.
Proof.
  intros Hl. unfold transform_row, transform_fields, bind, lift.
  destruct fields as [|i [|n [|e [|p [|d [|x r]]]]]]; cbn in Hl |- *; try lia;
    repeat (match goal with
            | |- context [PyStr.int_of_str ?s] => destruct (PyStr.int_of_str s)
            end; cbn); try discriminate.
  intros [= <- _]. reflexivity.
Qed.

(** C16: when the database path is a directory, the program crashes:
    [init_db] calls [sqlite3.connect] before its [try], so the
    [OperationalError] ("unable to open database file") is not caught
    and escapes [main]; the CSV file has been written in full, nothing is
    printed after its line, and steps 3-5 never run. *)
Theorem main_db_directory fuel faker w0 :
  fs_lookup (w_fs w0) csv_file <> Some NDir -> fs_lookup (w_fs w0) db_path = Some NDir ->
  exists f', main fuel faker w0 =
    (Exc (SqliteError OperationalError UnableToOpen),
     mkWorld f' (w_out w0 ++ [MsgRecordsWritten num_records csv_file]) (w_tick w0) (w_clock w0)) /\
    fs_lookup f' db_path = Some NDir /\
    fs_lookup f' csv_file = Some (NText (write_record csv_file_fieldnames ++
                                        records_text (map (fun k => record k (faker k)) (seq 0 num_records)))).
Proof.
  destruct w0 as [f out t c]. cbn [w_fs w_out w_tick w_clock]. intros Hcsv Hdb.
  set (text := (write_record csv_file_fieldnames ++
                records_text (map (fun k => record k (faker k)) (seq 0 num_records)))%string).
  set (f' := fs_write f csv_file (NText text)).
  assert (Hdb' : fs_lookup f' db_path = Some NDir)
    by (unfold f', fs_lookup, fs_write; rewrite assoc_find_set_ne by discriminate; exact Hdb).
  exists f'. split; [|split; [exact Hdb' | apply assoc_find_set_eq]].
  unfold main, bind at 1.
  rewrite (generate_csv_run faker num_records csv_file f out t c Hcsv ltac:(vm_compute; reflexivity)).
  fold text f'. unfold init_db, bind. cbn [read_fs w_fs]. rewrite Hdb'.
  unfold connect, bind. cbn [read_fs w_fs ret]. rewrite Hdb'. reflexivity.
Qed.

(** C18: [init_db] resets the store: whatever the database path held
    (nothing, a text file, a database with rows) but a directory, it
    ends normally with the file holding exactly an empty [users] table,
    leaves every other path alone and prints its success line; running
    it again changes nothing more. *)
Theorem init_db_reset path w :
  fs_lookup (w_fs w) path <> Some NDir ->
  exists w', init_db path w = (Ok tt, w') /\
    users_rows (w_fs w') path = Some [] /\
    fs_lookup (w_fs w') path = Some (NDb users_db) /\
    (forall p, p <> path -> fs_lookup (w_fs w') p = fs_lookup (w_fs w) p) /\
    w_out w' = w_out w ++ [MsgTableCreated] /\
    exists w'', init_db path w' = (Ok tt, w'') /\ forall p, fs_lookup (w_fs w'') p = fs_lookup (w_fs w') p.
Proof.
  destruct w as [f o t c]. cbn [w_fs w_out]. intros Hd.
  destruct (init_db_run path f o t c Hd) as (f' & H1 & H2 & H3).
  exists (mkWorld f' (o ++ [MsgTableCreated]) t c). cbn [w_fs w_out].
  split; [exact H1|]. split; [unfold users_rows; rewrite H2; reflexivity|].
  split; [exact H2|]. split; [exact H3|]. split; [reflexivity|].
  destruct (init_db_run path f' (o ++ [MsgTableCreated]) t c ltac:(rewrite H2; discriminate))
    as (f'' & G1 & G2 & G3).
  eexists. split; [exact G1|]. intros p. cbn [w_fs].
  destruct (String.eqb_spec p path) as [->|Hp]; [rewrite G2, H2; reflexivity | apply G3, Hp].
Qed.

(** ** Witnesses *)

(** Draws whose description holds a CR LF, and a name a lone CR. *)
Definition ex_faker (i : nat) : draw :=
  mkDraw (String cr "Ann") "Ann@X.com" "bo@Y.org" (Nat.even i) "p4ss" ("ab" ++ crlf ++ "-12!").

Definition ex_main_world : world := mkWorld [] [] 0 (fun n => Z.of_nat n + 1700000000000000)%Z.

Lemma main_end_to_end_witness :
  exists w', main 21 ex_faker ex_main_world = (Ok tt, w') /\
    users_rows (w_fs w') db_path =
      Some (map (fun k => db_row k (read_draw (ex_faker k)) (w_clock ex_main_world (w_tick ex_main_world + k)))
                (seq 0 num_records)) /\
    w_out w' = w_out ex_main_world ++
      [MsgRecordsWritten num_records csv_file; MsgTableCreated; MsgLStart; MsgTStart; MsgEStart] ++
      flat_map (fun k => [MsgERow k; MsgTRow k;
                          MsgLInsert (trow k (read_draw (ex_faker k))
                                        (w_clock ex_main_world (w_tick ex_main_world + k)))])
               (seq 0 num_records) ++
      [MsgEFinished; MsgTFinished; MsgLFinished] /\
    w_tick w' = w_tick ex_main_world + num_records.
Proof.
  apply main_end_to_end.
  - unfold num_records. lia.
  - intros i _. unfold ex_faker. destruct (Nat.even i); vm_compute; reflexivity.
  - discriminate.
  - discriminate.
Defined.

Definition ex_fields : list string := ["0"; "Ann"; "A@X.COM"; "p"; "ab-12!"]%string.

Lemma transform_record_type_witness :
  match transform_row (make_row csv_file_fieldnames ex_fields) ex_main_world with
  | (Ok row', _) => record_typed row' = true
  | _ => False
  end.
Proof.
  destruct (transform_row (make_row csv_file_fieldnames ex_fields) ex_main_world) as [[row'| |] w'] eqn:E;
    [exact (transform_record_type ex_fields ex_main_world row' w' ltac:(cbn; lia) E)
    | vm_compute in E; discriminate..].
Defined.

Lemma main_db_directory_witness :
  exists f', main 30 ex_faker (mkWorld [(db_path, NDir)] [] 0 (w_clock ex_main_world)) =
    (Exc (SqliteError OperationalError UnableToOpen),
     mkWorld f' ([] ++ [MsgRecordsWritten num_records csv_file]) 0 (w_clock ex_main_world)) /\
    fs_lookup f' db_path = Some NDir /\
    fs_lookup f' csv_file = Some (NText (write_record csv_file_fieldnames ++
                                        records_text (map (fun k => record k (ex_faker k)) (seq 0 num_records)))).
Proof. apply (main_db_directory 30 ex_faker (mkWorld [(db_path, NDir)] [] 0 _)); vm_compute; congruence. Defined.

Definition ex_spec_world : world := mkWorld (fs_with_csv spec_lines) [] 0 (w_clock ex_main_world).
Definition ex_users : table := mkTable Load.users_schema [].

Lemma run_etl_all_or_nothing_witness :
  exists w', run_etl 10 csv_file db_path ex_spec_world = (Ok tt, w') /\
    (w_fs w' = w_fs ex_spec_world \/
     exists new, w_fs w' = fs_write (w_fs ex_spec_world) db_path
                   (NDb (set_table users_db "users" (mkTable (tbl_cols ex_users) (tbl_rows ex_users ++ new))))).
Proof.
  apply (run_etl_all_or_nothing 10 csv_file db_path ex_spec_world users_db ex_users);
    [reflexivity | reflexivity | vm_compute; lia].
Defined.

Lemma run_etl_verdict_witness :
  exists w' ms, run_etl 10 csv_file db_path ex_spec_world = (Ok tt, w') /\
    (w_out w' = w_out ex_spec_world ++ MsgLStart :: ms ++ [MsgLFinished] \/
     exists e, w_out w' = w_out ex_spec_world ++ MsgLStart :: ms ++ [Load.error_msg e] /\
               w_fs w' = w_fs ex_spec_world).
Proof.
  apply (run_etl_verdict 10 csv_file db_path ex_spec_world users_db ex_users);
    [reflexivity | reflexivity | vm_compute; lia].
Defined.

Definition ex_good : list (list string) := [["0"; "Ann"; "a@x.com"; "p"; "d"]]%string.
Definition ex_bad_fs : fs :=
  fs_with_csv ["id,name,email,password,description"; "0,Ann,a@x.com,p,d"; "x1,Bo,b@y.com,q,e"]%string.

Lemma etl_bad_id_rolled_back_witness :
  exists w', run_etl 5 csv_file db_path (mkWorld ex_bad_fs [] 0 (w_clock ex_main_world)) = (Ok tt, w') /\
    w_fs w' = ex_bad_fs /\ users_rows (w_fs w') db_path = Some (tbl_rows (mkTable Load.users_schema [])) /\
    w_out w' = [] ++ MsgLStart :: MsgTStart :: MsgEStart :: l_lines csv_file_fieldnames (w_clock ex_main_world) 0 0 ex_good ++
                 [MsgERow (List.length ex_good); MsgTRow (List.length ex_good);
                  MsgUnexpected (ValueErrorInt "x1" PyStr.InvalidLiteral)] /\
    w_tick w' = 0 + List.length ex_good.
Proof.
  apply (etl_bad_id_rolled_back 5 ex_good "x1" "Bo" "b@y.com" "q" "e" PyStr.InvalidLiteral []
           ex_bad_fs [] 0 (w_clock ex_main_world) users_db (mkTable Load.users_schema [])).
  - vm_compute. reflexivity.
  - vm_compute. reflexivity.
  - vm_compute. reflexivity.
  - constructor.
  - cbn. lia.
  - vm_compute. reflexivity.
  - reflexivity.
  - reflexivity.
  - reflexivity.
Defined.

Lemma run_etl_total_witness :
  fst (run_etl 4 csv_file db_path
         (mkWorld (fs_with_csv ["id,name,email,password,description"]%string) [] 0 ex_main_world.(w_clock)))
    <> OutOfFuel.
Proof.
  apply run_etl_total; [discriminate | vm_compute; lia].
Defined.

(** A header with [name] before [id], and two records under it, one
    with a negative id, a comma in the name and a line feed in the
    description. *)
Definition ex_header : list string := ["name"; "id"; "email"; "password"; "description"]%string.

Definition ex_recs : list (list string) :=
  [["Ann"; "7"; "A@X.COM"; "p"; "ab-12!"]; ["Bo, Jr."; "-3"; "b@y.com"; "q"; "x" ++ String lf "y"]]%string.

Definition ex_written : fs :=
  [(csv_file, NText (write_record ex_header ++ records_text ex_recs)); (db_path, NDb users_db)].

Lemma etl_order_preservation_witness :
  exists w', run_etl 3 csv_file db_path (mkWorld ex_written [] 0 (w_clock ex_main_world)) = (Ok tt, w') /\
    users_rows (w_fs w') db_path = Some ([] ++ db_rows ex_header (w_clock ex_main_world) 0 ex_recs) /\
    w_out w' = [] ++ MsgLStart :: MsgTStart :: MsgEStart ::
                 l_lines ex_header (w_clock ex_main_world) 0 0 ex_recs ++
                [MsgEFinished; MsgTFinished; MsgLFinished] /\
    w_tick w' = 0 + List.length ex_recs /\
    (forall p, p <> db_path -> fs_lookup (w_fs w') p = fs_lookup ex_written p).
Proof.
  apply (etl_order_preservation 3 ex_header ex_recs ex_written [] 0 _ users_db (mkTable Load.users_schema []));
    [apply perm_swap | vm_compute; reflexivity | cbn; lia | reflexivity..].
Defined.

(** A database file whose [users] table holds a row. *)
Definition ex_populated : world :=
  mkWorld [(db_path, NDb [("users"%string, mkTable Load.users_schema
                              [[SInt 1; SText "a"; SText "b"; SText "c"; SText "d"]])])]
          [] 0 (w_clock ex_main_world).

Lemma init_db_reset_witness :
  exists w', init_db db_path ex_populated = (Ok tt, w') /\
    users_rows (w_fs w') db_path = Some [] /\
    fs_lookup (w_fs w') db_path = Some (NDb users_db) /\
    (forall p, p <> db_path -> fs_lookup (w_fs w') p = fs_lookup (w_fs ex_populated) p) /\
    w_out w' = w_out ex_populated ++ [MsgTableCreated] /\
    exists w'', init_db db_path w' = (Ok tt, w'') /\ forall p, fs_lookup (w_fs w'') p = fs_lookup (w_fs w') p.
Proof. apply init_db_reset. discriminate. Defined.

End EndToEnd.
