(* ===== verification/HeaderOrder.v ===== *)
(** * Which CSV headers put each value in its own column

    [load_data] binds [tuple(row.values())] to the columns [(id, name,
    email, description, processed_at)] by position, and the row's keys
    are in the order of the CSV file's header (src/pipeline.py, line
    128).  The specification describes the stored row as the record's
    [id], [name], [email] and [description] in their own columns
    ([intended_row]).  The theorem of this file is about the program's
    steps 3-5 ([Main.run_etl]): over every file [csv.DictWriter] wrote
    with a header that is any order of the five field names, they store
    every record as intended ([run_stores_intended]) if and only if the
    header, with [password] left out wherever it stands, lists [id],
    [name], [email], [description] in this order -- as the program's own
    [csv_file_fieldnames] does.  For any other order the run on a file
    of one record with a distinct value in every field ([sample]) stores
    values in other columns, told apart under both column affinities. *)

From Stdlib Require Import List String ZArith Lia Permutation.
From S2P Require Import Prelude PyStr PyObj Datetime Store Affinity Runtime Transform Sqlite Load Csv Extract Main Records EndToEnd.
Import ListNotations.
Local Open Scope etl_scope.

Module HeaderOrder.
Import PyObj Store Runtime Affinity Csv Main Records EndToEnd.

(** The header's names but [password], in order. *)
Definition rec_names (h : list string) : list string :=
  filter (fun n => negb (String.eqb n "password")) h.

(** The row the specification describes for a record: each value in
    the column of its name. *)
Definition intended_row (h r : list string) (z : Z) : list sqlval :=
  zip_cols Load.users_schema
    (map (fun n => cell n (field h r n)) ["id"; "name"; "email"; "description"]%string ++
     [PText (Datetime.isoformat_utc z)]).

(** The rows the specification describes for records [rs], the [k]-th
    stamped with the [k]-th clock read from [t]. *)
Fixpoint intended_rows (h : list string) (clock : nat -> Z) (t : nat) (rs : list (list string))
  : list (list sqlval) :=
  match rs with
  | [] => []
  | r :: rs' => intended_row h r (clock t) :: intended_rows h clock (S t) rs'
  end.

(** Steps 3-5 of the program ([run_etl]) store the rows the
    specification describes, for every CSV file [csv.DictWriter] wrote
    with header [h] and good records, and every database holding a
    [users] table as [init_db] creates it. *)
Definition run_stores_intended (h : list string) : Prop :=
  forall fuel rs f out t clock db tb,
    forallb (hrec_ok h) rs = true -> List.length rs < fuel ->
    fs_lookup f csv_file = Some (NText (write_record h ++ records_text rs)) ->
    fs_lookup f db_path = Some (NDb db) -> db_table db "users" = Some tb ->
    tbl_cols tb = Load.users_schema ->
    users_rows (w_fs (snd (run_etl fuel csv_file db_path (mkWorld f out t clock)))) db_path =
      Some (tbl_rows tb ++ intended_rows h clock t rs).

(** A record with a distinct value in each field. *)
Definition sample (n : string) : string :=
  if String.eqb n "id" then "0"
  else if String.eqb n "name" then "a"
  else if String.eqb n "email" then "b"
  else if String.eqb n "description" then "c"
  else "p".

Lemma map_fst_rec_fields h r :
  List.length r = List.length h -> map fst (rec_fields h r) = rec_names h.
Proof.
  intros Hl. unfold rec_fields, rec_names.
  pose proof (filter_map_swap (fun n => negb (String.eqb n "password")) fst (combine h r)) as E.
  cbn beta in E. rewrite map_fst_combine in E by lia. exact (eq_sym E).
Qed.

(** The stored row, name by name. *)
Lemma stored_row_names h r z :
  Permutation h csv_file_fieldnames -> List.length r = List.length h ->
  stored_row h r z =
    zip_cols Load.users_schema
      (map (fun n => cell n (field h r n)) (rec_names h) ++ [PText (Datetime.isoformat_utc z)]).
Proof.
  intros Hh Hl. unfold stored_row. rewrite <- (map_fst_rec_fields h r Hl), map_map.
  do 2 f_equal. apply map_ext_in. intros p Hp. rewrite (rec_fields_field h Hh r p Hp). reflexivity.
Qed.

Lemma field_sample h n : NoDup h -> In n h -> field h (map sample h) n = sample n.
Proof.
  intros Hnd Hn. apply field_in; [exact Hnd|].
  induction h as [|n' h IH]; [contradiction|]. inversion Hnd; subst.
  destruct Hn as [->|Hn]; [left; reflexivity | right; apply IH; assumption].
Qed.

Lemma sample_ok h : Permutation h csv_file_fieldnames -> hrec_ok h (map sample h) = true.
Proof.
  intros Hh. unfold hrec_ok.
  rewrite field_sample by (exact (header_nodup h Hh) || apply (header_in h Hh); left; reflexivity).
  rewrite length_map, Nat.eqb_refl. cbn -[forallb].
  apply forallb_forall. intros s Hs. apply in_map_iff in Hs as (n & <- & _).
  unfold sample. repeat case_match_goal; vm_compute; reflexivity.
Qed.

(** Under both affinities of the table's first four columns, the sample
    values of the four names are told apart. *)
Lemma column_sample_inj c m n :
  In c (firstn 4 Load.users_schema) -> In m ["id"; "name"; "email"; "description"]%string ->
  In n ["id"; "name"; "email"; "description"]%string ->
  column_value c (cell n (sample n)) = column_value c (cell m (sample m)) -> n = m.
Proof.
  intros Hc Hm Hn. cbn in Hc, Hm, Hn.
  destruct Hc as [<-|[<-|[<-|[<-|[]]]]];
    destruct Hm as [<-|[<-|[<-|[<-|[]]]]]; destruct Hn as [<-|[<-|[<-|[<-|[]]]]];
    vm_compute; congruence.
Qed.

(** Under the positional binding, the sample record is stored as
    intended only for the program's order of the names. *)
Lemma sample_binding h z :
  Permutation h csv_file_fieldnames ->
  stored_row h (map sample h) z = intended_row h (map sample h) z ->
  rec_names h = ["id"; "name"; "email"; "description"]%string.
Proof.
  intros Hh Hall.
  rewrite stored_row_names in Hall by (exact Hh || apply length_map). unfold intended_row in Hall.
  pose proof (Permutation_filter (fun n => negb (String.eqb n "password")) _ _ Hh) as Hp.
  fold (rec_names h) in Hp. cbn in Hp.
  assert (Hin : forall n, In n (rec_names h) -> In n ["id"; "name"; "email"; "description"]%string)
    by (intros n; apply (Permutation_in _ Hp)).
  assert (Hs : forall n, In n (rec_names h) -> field h (map sample h) n = sample n)
    by (intros n Hn; apply field_sample; [exact (header_nodup h Hh) | apply filter_In in Hn; tauto]).
  assert (Hs' : forall n, In n ["id"; "name"; "email"; "description"]%string ->
                          field h (map sample h) n = sample n)
    by (intros n Hn; apply field_sample; [exact (header_nodup h Hh) | apply (header_in h Hh); cbn in *; tauto]).
  rewrite (map_ext_in _ (fun n => cell n (sample n)) (rec_names h)) in Hall
    by (intros n Hn; rewrite Hs by exact Hn; reflexivity).
  rewrite (map_ext_in _ (fun n => cell n (sample n)) ["id"; "name"; "email"; "description"]%string) in Hall
    by (intros n Hn; rewrite Hs' by exact Hn; reflexivity).
  destruct (rec_names h) as [|n1 [|n2 [|n3 [|n4 [|n5 ns]]]]];
    try (apply Permutation_length in Hp; discriminate).
  cbn [map app zip_cols Load.users_schema] in Hall. injection Hall as E1 E2 E3 E4.
  apply column_sample_inj in E1, E2, E3, E4; try (apply Hin; cbn; tauto); try (cbn; tauto).
  subst. reflexivity.
Qed.

Lemma db_rows_intended h clock t rs :
  Permutation h csv_file_fieldnames -> rec_names h = ["id"; "name"; "email"; "description"]%string ->
  forallb (hrec_ok h) rs = true -> db_rows h clock t rs = intended_rows h clock t rs.
Proof.
  intros Hh E. revert t. induction rs as [|r rs IH]; intros t Hok; [reflexivity|].
  cbn [forallb] in Hok. apply andb_prop in Hok as [Hr Hok]. cbn [db_rows intended_rows].
  rewrite stored_row_names by (exact Hh || exact (hrec_length h r Hr)). rewrite E, IH by exact Hok.
  reflexivity.
Qed.

(** C8: steps 3-5 of the program store every record as the
    specification describes it -- each value in the column of its name,
    for every file [csv.DictWriter] wrote and every [users] table --
    exactly when the CSV header, [password] left out, is [id, name,
    email, description] in this order; the header may be any order of
    the five field names.  [load_data] binds [tuple(row.values())] by
    position, so for any other order some record is stored with values
    in other columns. *)
Theorem header_binding_iff h :
  Permutation h csv_file_fieldnames ->
  run_stores_intended h <-> rec_names h = ["id"; "name"; "email"; "description"]%string.
Proof.
  intros Hh. split.
  - intros Hall. unfold run_stores_intended in Hall.
    set (f := fs_write (fs_write [] db_path (NDb users_db)) csv_file
                (NText (write_record h ++ records_text [map sample h]))).
    assert (E : Some (tbl_rows (mkTable Load.users_schema []) ++ db_rows h (fun _ => 0%Z) 0 [map sample h]) =
                Some (tbl_rows (mkTable Load.users_schema []) ++
                      intended_rows h (fun _ => 0%Z) 0 [map sample h])).
    { rewrite <- (run_etl_hrecs_rows 2 h [map sample h] f [] 0 (fun _ => 0%Z) users_db
                    (mkTable Load.users_schema [])).
      1: apply (Hall 2 [map sample h] f [] 0 (fun _ => 0%Z) users_db).
      all: first [exact Hh | cbn [forallb]; rewrite (sample_ok h Hh); reflexivity | cbn; lia
                 | unfold f, fs_lookup, fs_write; apply assoc_find_set_eq
                 | unfold f, fs_lookup, fs_write; rewrite assoc_find_set_ne by discriminate;
                   apply assoc_find_set_eq
                 | reflexivity]. }
    cbn [tbl_rows app db_rows intended_rows] in E. injection E as E. exact (sample_binding h _ Hh E).
  - intros E fuel rs f out t clock db tb Hok Hf Hcsv Hdb Ht Hc.
    rewrite (run_etl_hrecs_rows fuel h rs f out t clock db tb Hh Hok Hf Hcsv Hdb Ht Hc).
    rewrite (db_rows_intended h clock t rs Hh E Hok). reflexivity.
Qed.

Lemma header_binding_iff_witness :
  Permutation ["name"; "id"; "email"; "password"; "description"]%string csv_file_fieldnames /\
  (run_stores_intended ["name"; "id"; "email"; "password"; "description"]%string <->
   rec_names ["name"; "id"; "email"; "password"; "description"]%string =
     ["id"; "name"; "email"; "description"]%string).
Proof. split; [apply perm_swap | apply header_binding_iff; apply perm_swap]. Defined.

End HeaderOrder.
